(** * AmoLP webhook pipeline: rule evaluation, deduplication and dispatch

    A shallow embedding of [server/services/webhookService.ts],
    [server/services/performanceOptimizer.ts], [server/config/redis.ts]
    (the [RedisCache] wrapper) and the webhook handlers of
    [server/config/queue.ts], followed by the properties of the pipeline.

    The TypeScript code works on untyped JSON ([any]); the embedding keeps
    that: payloads, condition trees and action lists are values of a small
    JSON/JavaScript value type, and the JavaScript operators the source uses
    ([||], [===], [==], [?.], [String(x)], [.includes], [.find], ...) are
    defined once in the section "JavaScript values" and used by name. *)

From Stdlib Require Import ZArith List String Ascii Bool Lia.
From stdpp Require Import base option list strings gmap pretty.

Open Scope string_scope.
Open Scope Z_scope.

Set Warnings "-register-all".

(* ===================================================================== *)
(** ** Exceptions *)
(* ===================================================================== *)

(** What a JavaScript expression can throw in this code: a [TypeError]
    raised by the language (property read on [null]/[undefined], call of a
    non-function, iteration over a non-iterable) or an [Error] built by the
    program or a collaborator ([new Error(msg)], a failed network call). *)
Inductive exn : Type :=
| TypeError
| JsError (msg : string).

Inductive outcome (A : Type) : Type :=
| Return (a : A)
| Throw (e : exn).
Arguments Return {A} a.
Arguments Throw {A} e.

Definition obind {A B} (m : outcome A) (k : A -> outcome B) : outcome B :=
  match m with
  | Return a => k a
  | Throw e => Throw e
  end.

Notation "'let*' x ':=' m 'in' k" := (obind m (fun x => k))
  (at level 10, x name, m at level 100, k at level 200, only parsing).

Fixpoint omap {A B} (f : A -> outcome B) (l : list A) : outcome (list B) :=
  match l with
  | [] => Return []
  | x :: rest =>
      let* y := f x in
      let* ys := omap f rest in
      Return (y :: ys)
  end.

(* ===================================================================== *)
(** ** JavaScript values *)
(* ===================================================================== *)

(** JSON values plus [undefined].  Numbers are the integer-valued ones
    (identifiers, timestamps, prices in whole units); an object is the list
    of its own properties in enumeration order. *)
Inductive value : Type :=
| VUndefined
| VNull
| VBool (b : bool)
| VNumber (n : Z)
| VString (s : string)
| VArray (items : list value)
| VObject (fields : list (string * value)).

(** Truthiness: what [if (v)], [!v] and [a || b] test. *)
Definition truthy (v : value) : bool :=
  match v with
  | VUndefined | VNull => false
  | VBool b => b
  | VNumber n => negb (n =? 0)
  | VString s => negb (String.eqb s EmptyString)
  | VArray _ | VObject _ => true
  end.

(** [a || b] *)
Definition jor (a b : value) : value := if truthy a then a else b.

(** [String(v)], also what a template literal [`${v}`] inserts. *)
Fixpoint toString (v : value) : string :=
  match v with
  | VUndefined => "undefined"
  | VNull => "null"
  | VBool true => "true"
  | VBool false => "false"
  | VNumber n => pretty n
  | VString s => s
  | VArray items =>
      (fix join (l : list value) : string :=
         match l with
         | [] => EmptyString
         | x :: rest =>
             let sx := match x with
                       | VUndefined | VNull => EmptyString
                       | _ => toString x
                       end in
             match rest with
             | [] => sx
             | _ :: _ => sx +:+ "," +:+ join rest
             end
         end) items
  | VObject _ => "[object Object]"
  end.

(** [a === b].  Two objects (or arrays) are equal only when they are the
    same reference; every comparison in this code has its operands from
    different JSON documents or from a literal, so that never holds. *)
Definition strictEq (a b : value) : bool :=
  match a, b with
  | VUndefined, VUndefined => true
  | VNull, VNull => true
  | VBool x, VBool y => Bool.eqb x y
  | VNumber x, VNumber y => x =? y
  | VString x, VString y => String.eqb x y
  | _, _ => false
  end.

(** *** [Number(s)] on strings, for [==]

    The StringNumericLiteral grammar: optional white space around an
    optionally signed decimal literal (with fraction and exponent) or an
    unsigned [0x]/[0o]/[0b] literal; the empty string is [0].  The result is
    [None] when the string is not numeric ([NaN]) or denotes a number that
    is not an integer, neither of which equals any number of the model. *)

Definition is_space (c : ascii) : bool :=
  let n := nat_of_ascii c in
  ((n =? 32) || (n =? 9) || (n =? 10) || (n =? 11) || (n =? 12) || (n =? 13))%nat.

Fixpoint ltrim (s : string) : string :=
  match s with
  | String c rest => if is_space c then ltrim rest else s
  | EmptyString => EmptyString
  end.

Fixpoint rtrim (s : string) : string :=
  match s with
  | EmptyString => EmptyString
  | String c rest =>
      match rtrim rest with
      | EmptyString => if is_space c then EmptyString else String c EmptyString
      | r => String c r
      end
  end.

Definition digit_of (base : Z) (c : ascii) : option Z :=
  let n := Z.of_nat (nat_of_ascii c) in
  let d := if (48 <=? n) && (n <=? 57) then Some (n - 48)
           else if (97 <=? n) && (n <=? 102) then Some (n - 87)
           else if (65 <=? n) && (n <=? 70) then Some (n - 55)
           else None in
  match d with
  | Some k => if k <? base then Some k else None
  | None => None
  end.

(** Reads a maximal run of digits: accumulated value, number of digits
    read, and the rest of the string. *)
Fixpoint read_digits (base : Z) (s : string) (acc : Z) (count : Z)
  : Z * Z * string :=
  match s with
  | String c rest =>
      match digit_of base c with
      | Some d => read_digits base rest (acc * base + d) (count + 1)
      | None => (acc, count, s)
      end
  | EmptyString => (acc, count, s)
  end.

Definition radix_literal (base : Z) (s : string) : option Z :=
  match read_digits base s 0 0 with
  | (n, count, EmptyString) => if 0 <? count then Some n else None
  | _ => None
  end.

Definition read_exponent (s : string) : option Z :=
  match s with
  | EmptyString => Some 0
  | String e rest =>
      if (Ascii.eqb e "e" || Ascii.eqb e "E")%char then
        let '(sign, body) :=
          match rest with
          | String "+" r => (1, r)
          | String "-" r => (-1, r)
          | _ => (1, rest)
          end in
        match read_digits 10 body 0 0 with
        | (n, count, EmptyString) => if 0 <? count then Some (sign * n) else None
        | _ => None
        end
      else None
  end.

Definition decimal_literal (s : string) : option Z :=
  let '(ip, icount, after_int) := read_digits 10 s 0 0 in
  let '(mant, fcount, after_frac) :=
    match after_int with
    | String "." r => read_digits 10 r ip 0
    | _ => (ip, 0, after_int)
    end in
  let has_dot := match after_int with String "." _ => true | _ => false end in
  if (icount =? 0) && ((fcount =? 0) || negb has_dot) then None
  else
    match read_exponent after_frac with
    | None => None
    | Some ex =>
        let scale := ex - fcount in
        if mant =? 0 then Some 0
        else if 0 <=? scale then Some (mant * 10 ^ scale)
        else if mant mod 10 ^ (- scale) =? 0 then Some (mant / 10 ^ (- scale))
        else None
    end.

Definition toNumberString (s : string) : option Z :=
  match rtrim (ltrim s) with
  | EmptyString => Some 0
  | String "0" (String "x" r) | String "0" (String "X" r) => radix_literal 16 r
  | String "0" (String "o" r) | String "0" (String "O" r) => radix_literal 8 r
  | String "0" (String "b" r) | String "0" (String "B" r) => radix_literal 2 r
  | String "+" r => decimal_literal r
  | String "-" r => option_map Z.opp (decimal_literal r)
  | t => decimal_literal t
  end.

(** [a == b] (abstract equality).  An object operand is first converted to
    a primitive, which for JSON data is its [String(...)]. *)
Definition looseEqPrim (a b : value) : bool :=
  match a, b with
  | VNumber x, VString s | VString s, VNumber x =>
      match toNumberString s with
      | Some y => x =? y
      | None => false
      end
  | _, _ => strictEq a b
  end.

Definition boolToNumber (v : value) : value :=
  match v with
  | VBool true => VNumber 1
  | VBool false => VNumber 0
  | _ => v
  end.

Definition is_nullish (v : value) : bool :=
  match v with
  | VUndefined | VNull => true
  | _ => false
  end.

Definition is_object (v : value) : bool :=
  match v with
  | VArray _ | VObject _ => true
  | _ => false
  end.

Definition looseEq (a b : value) : bool :=
  if is_nullish a || is_nullish b then is_nullish a && is_nullish b
  else if is_object a && is_object b then false
  else
    let prim v := if is_object v then VString (toString v) else v in
    looseEqPrim (boolToNumber (prim a)) (boolToNumber (prim b)).

(** *** Property reads and the built-in methods the source calls *)

Fixpoint assoc (k : string) (fs : list (string * value)) : value :=
  match fs with
  | [] => VUndefined
  | (k', v) :: rest => if String.eqb k k' then v else assoc k rest
  end.

(** [v.k] for the property names of the data ([rules], [type], [value],
    [leadDetails], ...): a [TypeError] on [null]/[undefined], the own
    property of an object, [length] of an array or string, and [undefined]
    for any other name on a primitive or an array. *)
Definition get (v : value) (k : string) : outcome value :=
  match v with
  | VUndefined | VNull => Throw TypeError
  | VObject fs => Return (assoc k fs)
  | VArray items =>
      Return (if String.eqb k "length"
              then VNumber (Z.of_nat (List.length items)) else VUndefined)
  | VString s =>
      Return (if String.eqb k "length"
              then VNumber (Z.of_nat (String.length s)) else VUndefined)
  | VBool _ | VNumber _ => Return VUndefined
  end.

(** [v[0]] *)
Definition getIndex0 (v : value) : outcome value :=
  match v with
  | VUndefined | VNull => Throw TypeError
  | VArray items => Return (List.hd VUndefined items)
  | VString (String c _) => Return (VString (String c EmptyString))
  | VObject fs => Return (assoc "0" fs)
  | _ => Return VUndefined
  end.

(** Optional chaining: [v?.rest] is [undefined] when [v] is nullish. *)
Definition ochain (v : value) (rest : value -> outcome value) : outcome value :=
  if is_nullish v then Return VUndefined else rest v.

(** [v?.k] *)
Definition oget (v : value) (k : string) : outcome value :=
  ochain v (fun o => get o k).

Definition isArray (v : value) : bool :=
  match v with
  | VArray _ => true
  | _ => false
  end.

Fixpoint ofind (pred : value -> outcome bool) (l : list value) : outcome value :=
  match l with
  | [] => Return VUndefined
  | x :: rest =>
      let* hit := pred x in
      if hit : bool then Return x else ofind pred rest
  end.

(** [v.find(pred)]: only an array has a callable [find]. *)
Definition arrayFind (pred : value -> outcome bool) (v : value) : outcome value :=
  match v with
  | VArray items => ofind pred items
  | _ => Throw TypeError
  end.

(** [v.map(f)] *)
Definition arrayMap (f : value -> outcome value) (v : value) : outcome (list value) :=
  match v with
  | VArray items => omap f items
  | _ => Throw TypeError
  end.

Fixpoint oexists {A} (pred : A -> outcome bool) (l : list A) : outcome bool :=
  match l with
  | [] => Return false
  | x :: rest =>
      let* hit := pred x in
      if hit : bool then Return true else oexists pred rest
  end.

(** [s.startsWith(p)] *)
Fixpoint startsWith (p s : string) : bool :=
  match p with
  | EmptyString => true
  | String a p' =>
      match s with
      | String b s' => Ascii.eqb a b && startsWith p' s'
      | EmptyString => false
      end
  end.

(** [hay.includes(needle)] on strings: [needle] occurs in [hay]. *)
Fixpoint str_includes (hay needle : string) : bool :=
  startsWith needle hay ||
  match hay with
  | String _ rest => str_includes rest needle
  | EmptyString => false
  end.

(** [v.includes(x)]: substring search on a string (the argument is
    converted with [String(x)]), membership by [===] on an array, and a
    [TypeError] on anything else, which has no callable [includes]. *)
Definition jsIncludes (v x : value) : outcome bool :=
  match v with
  | VString s => Return (str_includes s (toString x))
  | VArray items => Return (existsb (strictEq x) items)
  | _ => Throw TypeError
  end.

(* ===================================================================== *)
(** ** Condition evaluator ([checkConditions]) *)
(* ===================================================================== *)

Definition is_str (v : value) (s : string) : bool := strictEq v (VString s).

(** [eventData.leadDetails?.custom_fields_values
       ?.find(f => f.field_id == condition.field)?.values?.[0]?.value] *)
Definition amoFieldValue (eventData condition : value) : outcome value :=
  let* leadDetails := get eventData "leadDetails" in
  ochain leadDetails (fun ld =>
  let* cfv := get ld "custom_fields_values" in
  ochain cfv (fun arr =>
  let* found := arrayFind (fun f =>
                  let* fid := get f "field_id" in
                  let* cf := get condition "field" in
                  Return (looseEq fid cf)) arr in
  ochain found (fun f =>
  let* vals := get f "values" in
  ochain vals (fun vs =>
  let* v0 := getIndex0 vs in
  ochain v0 (fun first => get first "value"))))).

(** [eventData.custom?.find(f => f.id == condition.field)?.value] *)
Definition lpTrackerFieldValue (eventData condition : value) : outcome value :=
  let* custom := get eventData "custom" in
  ochain custom (fun arr =>
  let* found := arrayFind (fun f =>
                  let* fid := get f "id" in
                  let* cf := get condition "field" in
                  Return (looseEq fid cf)) arr in
  ochain found (fun f => get f "value")).

Definition isUndefined (v : value) : bool :=
  match v with
  | VUndefined => true
  | _ => false
  end.

(** The three [field_*] cases share their shape: the AmoCRM lookup, then the
    LPTracker lookup, then [false]; [test] is what the case does with a
    value that is not [undefined]. *)
Definition fieldCondition (test : value -> outcome value)
    (eventData condition : value) : outcome value :=
  let* fieldValue := amoFieldValue eventData condition in
  if negb (isUndefined fieldValue) then test fieldValue
  else
    let* lpValue := lpTrackerFieldValue eventData condition in
    if negb (isUndefined lpValue) then test lpValue
    else Return (VBool false).

(** The callback of [conditions.rules.map]: the [switch] on
    [condition.type]. *)
Definition evalCondition (eventData condition : value) : outcome value :=
  let* ty := get condition "type" in
  if is_str ty "event_type" then
    let* t := get eventData "type" in
    let* cv := get condition "value" in
    Return (VBool (strictEq t cv))
  else if is_str ty "pipeline" then
    let* ld := get eventData "leadDetails" in
    let* fromLead := oget ld "pipeline_id" in
    let* pipelineId :=
      if truthy fromLead then Return fromLead
      else (let* wp := get eventData "webhookPayload" in
            oget wp "leads[add][0][pipeline_id]") in
    let* cv := get condition "value" in
    Return (VBool (String.eqb (toString pipelineId) (toString cv)))
  else if is_str ty "status" then
    let* ld := get eventData "leadDetails" in
    let* fromLead := oget ld "status_id" in
    let* statusId :=
      if truthy fromLead then Return fromLead
      else
        let* wp := get eventData "webhookPayload" in
        let* fromPayload := oget wp "leads[add][0][status_id]" in
        if truthy fromPayload then Return fromPayload
        else
          let* stageId := get eventData "stage_id" in
          if truthy stageId then Return stageId
          else (let* stage := get eventData "stage" in oget stage "id") in
    let* cv := get condition "value" in
    Return (VBool (String.eqb (toString statusId) (toString cv)))
  else if is_str ty "field_equals" then
    fieldCondition (fun fv =>
      let* cv := get condition "value" in
      Return (VBool (String.eqb (toString fv) (toString cv))))
      eventData condition
  else if is_str ty "field_contains" then
    fieldCondition (fun fv =>
      ochain fv (fun s =>
        let* cv := get condition "value" in
        let* r := jsIncludes s cv in
        Return (VBool r)))
      eventData condition
  else if is_str ty "field_not_empty" then
    fieldCondition (fun fv =>
      Return (VBool (negb (is_nullish fv) && negb (strictEq fv (VString EmptyString)))))
      eventData condition
  else Return (VBool false).

(** The body of the [try] block of [checkConditions]. *)
Definition checkConditions_try (conditions eventData : value) : outcome bool :=
  if negb (truthy conditions) then Return false
  else
    let* rules := get conditions "rules" in
    if negb (truthy rules) then Return false
    else
      let* op := get conditions "operator" in
      let operator := jor op (VString "AND") in
      let* results := arrayMap (evalCondition eventData) rules in
      if is_str operator "OR"
      then Return (existsb truthy results)
      else Return (forallb truthy results).

(** [checkConditions]: the [catch] turns every exception into [false]. *)
Definition checkConditions (conditions eventData : value) : bool :=
  match checkConditions_try conditions eventData with
  | Return b => b
  | Throw _ => false
  end.

(* ===================================================================== *)
(** ** Data model *)
(* ===================================================================== *)

(** A row of the [sync_rules] table as the storage layer returns it.  The
    condition tree and the action list are JSON columns. *)
Record SyncRule : Type := {
  rule_id : Z;
  rule_name : string;
  webhookSource : string;
  isActive : bool;
  conditions : value;
  actions : value
}.

(** What a Redis key holds: the JSON text written by [JSON.stringify], here
    the value it encodes.  Rule lists are kept as rows; the type argument of
    [cache.get<any[]>] asserts that shape on the reading side. *)
Inductive cached : Type :=
| CachedRules (rules : list SyncRule)
| CachedJson (v : value).

(** A key with its expiry: the entry is live while [now < expires_at]. *)
Record entry : Type := {
  payload : cached;
  expires_at : Z
}.

Inductive adapter : Type := AmoCrm | LpTracker.

(** One call of a CRM sync adapter: [syncToAmoCrm(userId, data, searchBy)]
    or [syncToLpTracker(userId, data, searchBy)]. *)
Record dispatch : Type := {
  d_target : adapter;
  d_userId : value;
  d_data : value;
  d_searchBy : value
}.

Inductive level : Type := Info | Warning | Failure.

(** What the pipeline logs: each call of the log service is kept as an
    entry of a journal, with its level, the rule it is about (if any) and a
    tag for its message. *)
Inductive message : Type :=
| MsgRuleApplicable
| MsgRuleNotApplicable
| MsgRuleAlreadyProcessed
| MsgRuleNotRelevant
| MsgRuleError
| MsgRulesError
| MsgCheckingRule
| MsgCheckingRules
| MsgRuleMatches
| MsgActionStart
| MsgActionSource
| MsgActionUnknown
| MsgActionError
| MsgActionsError
| MsgCacheHit
| MsgCacheStored
| MsgCacheCleared
| MsgWebhookStart
| MsgNoSubdomain
| MsgNoUser
| MsgNoLeadId
| MsgLeadDetails
| MsgContactDetails
| MsgContactFailed
| MsgLeadFetchFailed
| MsgParseError
| MsgNoProject
| MsgWebhookError
| MsgJobDone
| MsgJobError.

Record logEntry : Type := {
  log_level : level;
  log_rule : option Z;
  log_message : message
}.

(** Everything the pipeline writes: the Redis keyspace, the execution
    counters of the rules (column [executionCount], through
    [storage.incrementRuleExecution]), the adapter calls made, and the
    journal. *)
Record world : Type := {
  redis : gmap string entry;
  executions : gmap Z nat;
  dispatched : list dispatch;
  journal : list logEntry
}.

Definition with_redis (f : gmap string entry -> gmap string entry) (w : world) : world :=
  {| redis := f (redis w); executions := executions w;
     dispatched := dispatched w; journal := journal w |}.

Definition with_executions (f : gmap Z nat -> gmap Z nat) (w : world) : world :=
  {| redis := redis w; executions := f (executions w);
     dispatched := dispatched w; journal := journal w |}.

Definition add_dispatch (d : dispatch) (w : world) : world :=
  {| redis := redis w; executions := executions w;
     dispatched := dispatched w ++ [d]; journal := journal w |}.

Definition add_log (e : logEntry) (w : world) : world :=
  {| redis := redis w; executions := executions w;
     dispatched := dispatched w; journal := journal w ++ [e] |}.

(** The per-user settings rows read by the pipeline. *)
Record AmoCrmSettings : Type := {
  amo_subdomain : value;
  amo_apiKey : value
}.

Record LpTrackerSettings : Type := {
  lp_userId : string;
  lp_projectId : value
}.

Record response : Type := {
  resp_ok : bool;
  resp_status : Z;
  resp_json : outcome value
}.

(** The collaborators as one job run sees them: the clock, whether the
    Redis server answers, the storage layer, the adapters, the AmoCRM HTTP
    API and [JSON.parse].  A collaborator that can fail returns an
    [outcome]; an adapter or the counter update returns the exception it
    throws, if any. *)
Record env : Type := {
  now : Z;
  redis_up : bool;
  getSyncRules : string -> outcome (list SyncRule);
  incrementRuleExecution : Z -> option exn;
  syncToAmoCrm : value -> value -> value -> option exn;
  syncToLpTracker : value -> value -> value -> option exn;
  getAllLpTrackerSettings : outcome (list LpTrackerSettings);
  allUsers : outcome (list string);
  getAmoCrmSettings : string -> outcome (option AmoCrmSettings);
  fetch : string -> outcome response;
  jsonParse : string -> outcome value
}.

(* ===================================================================== *)
(** ** Effects: state with exceptions *)
(* ===================================================================== *)

(** An [async] method: it runs on the world and either returns or throws;
    what it wrote before throwing stays written. *)
Definition M (A : Type) : Type := world -> outcome A * world.

Definition ret {A} (a : A) : M A := fun w => (Return a, w).

Definition raise {A} (e : exn) : M A := fun w => (Throw e, w).

Definition bind {A B} (m : M A) (k : A -> M B) : M B :=
  fun w =>
    match m w with
    | (Return a, w') => k a w'
    | (Throw e, w') => (Throw e, w')
    end.

Notation "'do*' x ':=' m 'in' k" := (bind m (fun x => k))
  (at level 10, x name, m at level 100, k at level 200, only parsing).

Notation "m ';;;' k" := (bind m (fun _ => k))
  (at level 100, k at level 200, right associativity, only parsing).

(** [try { body } catch (error) { handler }] *)
Definition tryCatch {A} (body : M A) (handler : exn -> M A) : M A :=
  fun w =>
    match body w with
    | (Return a, w') => (Return a, w')
    | (Throw e, w') => handler e w'
    end.

(** A pure expression that may throw, evaluated inside a method. *)
Definition lift {A} (o : outcome A) : M A := fun w => (o, w).

Definition modify (f : world -> world) : M unit := fun w => (Return tt, f w).

(** Modelled from the spec: [LogService] ([server/services/logService.ts]
    is not among the sources).  The log sink records a level, the user, a
    message and its context, fire-and-forget: "failures in logging must
    never fail the calling operation".  A call appends one entry to the
    journal and returns. *)
Definition logService (lvl : level) (rule : option Z) (msg : message) : M unit :=
  modify (add_log {| log_level := lvl; log_rule := rule; log_message := msg |}).

(** [for (const x of items) { body }] over an array already in hand. *)
Fixpoint forEach {A} (body : A -> M unit) (items : list A) : M unit :=
  match items with
  | [] => ret tt
  | x :: rest => body x ;;; forEach body rest
  end.

(* ===================================================================== *)
(** ** Redis: the server, the client and the [RedisCache] wrapper *)
(* ===================================================================== *)

(** *** Glob patterns of the [KEYS] command

    [*] matches any run of characters, [?] one character, [[...]] one
    character of a class (with [^] for the complement, [a-z] ranges and
    backslash escapes), a backslash makes the next character literal, and
    every other character matches itself. *)

Definition is_char (c : ascii) (lit : string) : bool :=
  match lit with
  | String l EmptyString => Ascii.eqb c l
  | _ => false
  end.

Definition in_range (a b c : ascii) : bool :=
  let lo := N.min (N_of_ascii a) (N_of_ascii b) in
  let hi := N.max (N_of_ascii a) (N_of_ascii b) in
  ((lo <=? N_of_ascii c) && (N_of_ascii c <=? hi))%N.

Fixpoint globMatch (p s : string) {struct p} : bool :=
  match p with
  | EmptyString =>
      match s with
      | EmptyString => true
      | String _ _ => false
      end
  | String c p' =>
      if is_char c "*" then
        (fix star (t : string) : bool :=
           globMatch p' t ||
           match t with
           | String _ t' => star t'
           | EmptyString => false
           end) s
      else
        match s with
        | EmptyString => false
        | String d s' =>
            if is_char c "?" then globMatch p' s'
            else if is_char c "[" then
              match p' with
              | String n p'' =>
                  if is_char n "^" then globClass p'' d s' true false
                  else globClass p' d s' false false
              | EmptyString => globClass p' d s' false false
              end
            else if is_char c "\" then
              match p' with
              | String q p'' => Ascii.eqb q d && globMatch p'' s'
              | EmptyString => Ascii.eqb c d && globMatch p' s'
              end
            else Ascii.eqb c d && globMatch p' s'
        end
  end
with globClass (p : string) (d : ascii) (s' : string) (negate matched : bool)
    {struct p} : bool :=
  match p with
  | EmptyString =>
      xorb negate matched &&
      match s' with
      | EmptyString => true
      | String _ _ => false
      end
  | String a p' =>
      match p' with
      | String b p'' =>
          if is_char a "\" then globClass p'' d s' negate (matched || Ascii.eqb b d)
          else if is_char a "]" then xorb negate matched && globMatch p' s'
          else if is_char b "-" then
            match p'' with
            | String z p''' => globClass p''' d s' negate (matched || in_range a z d)
            | EmptyString => globClass p' d s' negate (matched || Ascii.eqb a d)
            end
          else globClass p' d s' negate (matched || Ascii.eqb a d)
      | EmptyString =>
          if is_char a "]" then xorb negate matched && globMatch p' s'
          else globClass p' d s' negate (matched || Ascii.eqb a d)
      end
  end.

(** *** The server and the [ioredis] client

    A command throws when the server does not answer.  An expired key is
    invisible to every command. *)

Definition connectionLost : exn := JsError "redis: connection lost".

Definition live (e : env) (x : entry) : bool := now e <? expires_at x.

Definition liveLookup (e : env) (key : string) (m : gmap string entry) : option cached :=
  match m !! key with
  | Some x => if live e x then Some (payload x) else None
  | None => None
  end.

Definition command {A} (e : env) (run : M A) : M A :=
  if redis_up e then run else raise connectionLost.

Definition client_get (e : env) (key : string) : M (option cached) :=
  command e (fun w => (Return (liveLookup e key (redis w)), w)).

Definition client_setex (e : env) (key : string) (ttl : Z) (v : cached) : M unit :=
  command e (modify (with_redis
    (insert key {| payload := v; expires_at := now e + ttl |}))).

Definition client_exists (e : env) (key : string) : M Z :=
  command e (fun w =>
    (Return (match liveLookup e key (redis w) with
             | Some _ => 1
             | None => 0
             end), w)).

Definition client_keys (e : env) (pattern : string) : M (list string) :=
  command e (fun w =>
    (Return (List.filter
               (fun k => globMatch pattern k && bool_decide (is_Some (liveLookup e k (redis w))))
               (map fst (map_to_list (redis w)))), w)).

Definition client_del (e : env) (keys : list string) : M unit :=
  command e (modify (with_redis (fun m => foldr delete m keys))).

(** *** [RedisCache] (the exported [cache]) *)

Definition crm (key : string) : string := "crm:" +:+ key.

(** [console.error] in a [catch]: nothing the pipeline observes. *)
Definition consoleError : M unit := ret tt.

Definition cache_get (e : env) (key : string) : M (option cached) :=
  tryCatch (client_get e (crm key))
           (fun _ => consoleError ;;; ret None).

Definition cache_set (e : env) (key : string) (v : cached) (ttl : Z) : M unit :=
  tryCatch (client_setex e (crm key) ttl v)
           (fun _ => consoleError).

Definition cache_exists (e : env) (key : string) : M bool :=
  tryCatch (do* result := client_exists e (crm key) in ret (result =? 1))
           (fun _ => consoleError ;;; ret false).

Definition cache_keys (e : env) (pattern : string) : M (list string) :=
  tryCatch (client_keys e (crm pattern))
           (fun _ => consoleError ;;; ret []).

Definition cache_flushPattern (e : env) (pattern : string) : M unit :=
  tryCatch (do* keys := cache_keys e pattern in
            if (0 <? Z.of_nat (List.length keys)) then client_del e keys else ret tt)
           (fun _ => consoleError).

Definition cache_setWithTTL (e : env) (key : string) (v : cached) (ttl : Z) : M unit :=
  tryCatch (client_setex e (crm key) ttl v)
           (fun _ => consoleError).

(* ===================================================================== *)
(** ** Webhook deduplication *)
(* ===================================================================== *)

(** [WEBHOOK_DEDUP_TTL = 10 * 60] seconds. *)
Definition WEBHOOK_DEDUP_TTL : Z := 10 * 60.

(** [`webhook:${userId}:${leadId}:${ruleId}:${timestamp || 'default'}`];
    a call that leaves [timestamp] out passes [undefined]. *)
Definition generateWebhookKey (userId leadId : string) (ruleId : Z) (timestamp : value)
  : string :=
  "webhook:" +:+ userId +:+ ":" +:+ leadId +:+ ":" +:+ pretty ruleId +:+ ":"
  +:+ toString (jor timestamp (VString "default")).

Definition isWebhookAlreadyProcessed (e : env) (userId leadId : string) (ruleId : Z)
    (timestamp : value) : M bool :=
  cache_exists e (generateWebhookKey userId leadId ruleId timestamp).

(** The marker is [{ processed: true, timestamp: Date.now() }]; the clock of
    the model counts seconds, [Date.now()] milliseconds. *)
Definition markWebhookProcessedInRedis (e : env) (userId leadId : string) (ruleId : Z)
    (timestamp : value) : M unit :=
  cache_setWithTTL e (generateWebhookKey userId leadId ruleId timestamp)
    (CachedJson (VObject [("processed", VBool true);
                          ("timestamp", VNumber (1000 * now e))]))
    WEBHOOK_DEDUP_TTL.

(* ===================================================================== *)
(** ** Relevance filter ([isWebhookRelevant]) *)
(* ===================================================================== *)

(** The characters of a string as one-character strings. *)
Fixpoint chars (s : string) : list value :=
  match s with
  | EmptyString => []
  | String c rest => VString (String c EmptyString) :: chars rest
  end.

(** [for (const x of v)]: arrays and strings are iterable. *)
Definition iterate (v : value) : outcome (list value) :=
  match v with
  | VArray items => Return items
  | VString s => Return (chars s)
  | _ => Throw TypeError
  end.

Definition indexed (items : list value) : list (string * value) :=
  imap (fun i x => (pretty (Z.of_nat i), x)) items.

(** [Object.entries(v)] and the properties a spread [{...v}] copies. *)
Definition ownEntries (v : value) : list (string * value) :=
  match v with
  | VObject fs => fs
  | VArray items => indexed items
  | VString s => indexed (chars s)
  | _ => []
  end.

(** [updatedFields.some(field => field.includes(name) || field === `custom.${name}`)] *)
Definition fieldTouched (updatedFields : list value) (name : value) : outcome bool :=
  let fieldPattern := "custom." +:+ toString name in
  oexists (fun field =>
             let* inc := jsIncludes field name in
             if inc : bool then Return true
             else Return (strictEq field (VString fieldPattern)))
          updatedFields.

(** The test made on one element of [rule.conditions.rules]. *)
Definition conditionTouched (updatedFields : list value) (condition : value)
  : outcome bool :=
  let* field := get condition "field" in
  if negb (truthy field) then Return false
  else
    let* ty := get condition "type" in
    let* isFieldType :=
      (if is_nullish ty then Return false else jsIncludes ty (VString "field_")) in
    if isFieldType : bool then fieldTouched updatedFields field else Return false.

(** The test made on one element of [rule.actions.list]. *)
Definition actionTouched (updatedFields : list value) (action : value)
  : outcome bool :=
  let* mappings := get action "fieldMappings" in
  if negb (truthy mappings) then Return false
  else
    oexists (fun kv : string * value => fieldTouched updatedFields (VString (fst kv)))
            (ownEntries mappings).

Definition arrayItems (v : value) : list value :=
  match v with
  | VArray items => items
  | _ => []
  end.

(** [arr.includes(x)] on a value known to be an array. *)
Definition arrayIncludes (arr : list value) (x : value) : bool :=
  existsb (strictEq x) arr.

Definition isWebhookRelevant (webhookData : value) (rule : SyncRule) : outcome bool :=
  let* auf := get webhookData "action_update_fields" in
  if negb (truthy auf) || negb (isArray auf) then Return true
  else
    let updatedFields := arrayItems auf in
    if arrayIncludes updatedFields (VString "stage")
       || arrayIncludes updatedFields (VString "stage_id")
    then Return true
    else if arrayIncludes updatedFields (VString "payments")
    then Return true
    else
      let* condRules := oget (conditions rule) "rules" in
      let* byCondition :=
        (if truthy condRules
         then let* items := iterate condRules in
              oexists (conditionTouched updatedFields) items
         else Return false) in
      if byCondition : bool then Return true
      else
        let* actionList := oget (actions rule) "list" in
        if truthy actionList
        then let* items := iterate actionList in
             oexists (actionTouched updatedFields) items
        else Return false.

(* ===================================================================== *)
(** ** Action dispatcher ([executeActions]) *)
(* ===================================================================== *)

(** [a || b], with [b] evaluated only when [a] is falsy. *)
Definition orElse (a b : outcome value) : outcome value :=
  let* x := a in
  if truthy x then Return x else b.

(** [v?.[0]?.k] *)
Definition firstField (v : value) (k : string) : outcome value :=
  ochain v (fun arr => let* x := getIndex0 arr in oget x k).

(** [n > 0] for the [length] of a JSON value. *)
Definition gtZero (v : value) : bool :=
  match boolToNumber (if is_object v then VString (toString v) else v) with
  | VNumber n => 0 <? n
  | VString s =>
      match toNumberString s with
      | Some n => 0 <? n
      | None => false
      end
  | _ => false
  end.

(** The shared shape of [extractPhoneFromContact] and
    [extractEmailFromContact]: the first custom field whose [field_code] or
    [field_name] is the given one, and the [value] of its first entry. *)
Definition extractFromContact (code name : string) (contact : value) : outcome value :=
  if negb (truthy contact) then Return (VString EmptyString)
  else
    let* cfv := get contact "custom_fields_values" in
    if negb (truthy cfv) then Return (VString EmptyString)
    else
      let* found := arrayFind (fun field =>
                      let* fc := get field "field_code" in
                      if is_str fc code then Return true
                      else let* fn := get field "field_name" in
                           Return (is_str fn name)) cfv in
      if negb (truthy found) then Return (VString EmptyString)
      else
        let* vals := get found "values" in
        if negb (truthy vals) then Return (VString EmptyString)
        else
          let* len := get vals "length" in
          if gtZero len
          then let* v0 := getIndex0 vals in get v0 "value"
          else Return (VString EmptyString).

Definition extractPhoneFromContact : value -> outcome value :=
  extractFromContact "PHONE" "Телефон".

Definition extractEmailFromContact : value -> outcome value :=
  extractFromContact "EMAIL" "Email".

Definition extractPhoneFromLpTrackerContact (contact : value) : outcome value :=
  if negb (truthy contact) then Return (VString EmptyString)
  else
    let* cs := get contact "contacts" in
    if negb (truthy cs) then Return (VString EmptyString)
    else
      let* phoneContact := arrayFind (fun c =>
                             let* ty := get c "type" in
                             Return (is_str ty "phone")) cs in
      if truthy phoneContact then get phoneContact "data"
      else Return (VString EmptyString).

(** [obj.k = v] on an object literal under construction, and the effect
    of a later property in [{ ...obj, k: v }]. *)
Fixpoint setField (k : string) (v : value) (fs : list (string * value))
  : list (string * value) :=
  match fs with
  | [] => [(k, v)]
  | (k', v') :: rest =>
      if String.eqb k k' then (k, v) :: rest else (k', v') :: setField k v rest
  end.

(** The object literal [webhookData = { name: ..., ..., keyword: ... }]. *)
Definition syncRecord (eventData : value) : outcome (list (string * value)) :=
  let* contactsDetails := get eventData "contactsDetails" in
  let* contact := get eventData "contact" in
  let* callData := get eventData "callData" in
  let* leadDetails := get eventData "leadDetails" in
  let* first := ochain contactsDetails getIndex0 in
  let* name :=
    orElse (firstField contactsDetails "name")
   (orElse (firstField contactsDetails "first_name")
   (orElse (oget contact "name")
   (orElse (oget callData "contact_name")
           (Return (VString "Новый контакт"))))) in
  let* first_name :=
    orElse (firstField contactsDetails "first_name")
   (orElse (oget callData "contact_name") (Return (VString EmptyString))) in
  let* last_name :=
    orElse (firstField contactsDetails "last_name") (Return (VString EmptyString)) in
  let* phone :=
    orElse (extractPhoneFromLpTrackerContact contact)
   (orElse (extractPhoneFromContact first)
   (orElse (oget callData "phone") (Return (VString EmptyString)))) in
  let* email :=
    orElse (extractEmailFromContact first)
   (orElse (oget callData "email") (Return (VString EmptyString))) in
  let* deal_name :=
    orElse (oget leadDetails "name")
   (orElse (get eventData "name") (Return (VString "Новая сделка"))) in
  let* price := orElse (oget leadDetails "price") (Return (VNumber 0)) in
  let* custom_fields :=
    orElse (oget leadDetails "custom_fields_values") (Return (VObject [])) in
  let* campaign := orElse (oget callData "campaign") (Return (VString EmptyString)) in
  let* keyword := orElse (oget callData "keyword") (Return (VString EmptyString)) in
  Return [("name", name); ("first_name", first_name); ("last_name", last_name);
          ("phone", phone); ("email", email); ("deal_name", deal_name);
          ("price", price); ("custom_fields", custom_fields);
          ("source", VString "webhook_automation");
          ("campaign", campaign); ("keyword", keyword)].

(** [if (action.k && action.k !== '') webhookData.k = action.k] *)
Definition copyIfSet (action : value) (k : string) (fs : list (string * value))
  : outcome (list (string * value)) :=
  let* v := get action k in
  if truthy v && negb (strictEq v (VString EmptyString))
  then Return (setField k v fs) else Return fs.

(** One adapter call: the call is made, and the adapter may throw. *)
Definition callAdapter (e : env) (target : adapter) (userId data searchBy : value)
  : M unit :=
  modify (add_dispatch {| d_target := target; d_userId := userId;
                          d_data := data; d_searchBy := searchBy |}) ;;;
  match (match target with
         | AmoCrm => syncToAmoCrm e userId data searchBy
         | LpTracker => syncToLpTracker e userId data searchBy
         end) with
  | Some ex => raise ex
  | None => ret tt
  end.

(** The body of the inner [try] of [executeActions], for one action. *)
Definition executeAction_try (e : env) (eventData action : value) : M unit :=
  do* ty := lift (get action "type") in
  do* userId := lift (get eventData "userId") in
  logService Info None MsgActionStart ;;;
  do* base := lift (syncRecord eventData) in
  logService Info None MsgActionSource ;;;
  do* mappings := lift (get action "fieldMappings") in
  let fs1 := setField "fieldMappings" (jor mappings (VObject [])) base in
  let fs2 := setField "originalEventData" eventData fs1 in
  do* fs3 := lift (copyIfSet action "amocrmPipelineId" fs2) in
  do* fs4 := lift (copyIfSet action "amocrmStatusId" fs3) in
  do* fs5 := lift (copyIfSet action "lptrackerStageId" fs4) in
  do* fs6 := lift (copyIfSet action "lptrackerProjectId" fs5) in
  let webhookData := VObject fs6 in
  do* searchBy := lift (get action "searchBy") in
  if is_str ty "sync_to_amocrm" then
    callAdapter e AmoCrm userId webhookData (jor searchBy (VString "phone"))
  else if is_str ty "sync_to_lptracker" then
    callAdapter e LpTracker userId webhookData (jor searchBy (VString "phone"))
  else
    logService Warning None MsgActionUnknown.

(** One iteration of the loop over [actions.list]: the inner [try] with its
    [catch], whose log call reads [action.type] and [eventData.userId]. *)
Definition executeAction (e : env) (eventData action : value) : M unit :=
  tryCatch (executeAction_try e eventData action)
           (fun _ =>
              do* _ty := lift (get action "type") in
              do* _uid := lift (get eventData "userId") in
              logService Failure None MsgActionError).

Definition executeActions (e : env) (actionsV eventData : value) : M unit :=
  tryCatch
    (if negb (truthy actionsV) then ret tt
     else
       do* list := lift (get actionsV "list") in
       if negb (truthy list) then ret tt
       else
         do* items := lift (iterate list) in
         forEach (executeAction e eventData) items)
    (fun _ =>
       do* _uid := lift (get eventData "userId") in
       logService Failure None MsgActionsError).

(* ===================================================================== *)
(** ** Configuration cache ([PerformanceOptimizer]) *)
(* ===================================================================== *)

Definition METADATA_CACHE_TTL : Z := 30 * 60.
Definition RULES_CACHE_TTL : Z := 5 * 60.
Definition SETTINGS_CACHE_TTL : Z := 10 * 60.

(** [getCachedSyncRules]: the cached list when the key is live, otherwise
    the rows of the storage layer, cached for [RULES_CACHE_TTL].  Keys of
    the form [sync_rules:...] are written here only, with rule lists, so a
    hit is a rule list (and an array, even empty, is truthy). *)
Definition getCachedSyncRules (e : env) (userId : string) : M (list SyncRule) :=
  let cacheKey := "sync_rules:" +:+ userId in
  do* hit := cache_get e cacheKey in
  match hit with
  | Some (CachedRules rules) =>
      logService Info None MsgCacheHit ;;;
      ret rules
  | _ =>
      do* rules := lift (getSyncRules e userId) in
      cache_set e cacheKey (CachedRules rules) RULES_CACHE_TTL ;;;
      logService Info None MsgCacheStored ;;;
      ret rules
  end.

(** [clearAllCaches]; the in-process [connectionPools] map it also empties
    is not read by the pipeline. *)
Definition clearAllCaches (e : env) : M unit :=
  cache_flushPattern e "sync_rules:*" ;;;
  cache_flushPattern e "metadata:*" ;;;
  cache_flushPattern e "settings:*" ;;;
  cache_flushPattern e "webhook:*" ;;;
  logService Info None MsgCacheCleared.

Definition invalidateUserCache (e : env) (userId : string) : M unit :=
  cache_flushPattern e ("sync_rules:" +:+ userId +:+ "*") ;;;
  cache_flushPattern e ("metadata:*:" +:+ userId +:+ "*") ;;;
  cache_flushPattern e ("settings:*:" +:+ userId +:+ "*") ;;;
  cache_flushPattern e ("webhook:" +:+ userId +:+ "*") ;;;
  logService Info None MsgCacheCleared.

(* ===================================================================== *)
(** ** Rule loops *)
(* ===================================================================== *)

(** [await this.storage.incrementRuleExecution(rule.id)] *)
Definition bump (ruleId : Z) (m : gmap Z nat) : gmap Z nat :=
  <[ruleId := S (default 0%nat (m !! ruleId))]> m.

Definition storage_incrementRuleExecution (e : env) (ruleId : Z) : M unit :=
  match incrementRuleExecution e ruleId with
  | Some ex => raise ex
  | None => modify (with_executions (bump ruleId))
  end.

Definition executionCount (w : world) (ruleId : Z) : nat :=
  default 0%nat (executions w !! ruleId).

(** *** LPTracker: the loop of [processLpTrackerWebhookDirect] *)

(** The body of the [try] inside [for (const rule of syncRules)]. *)
Definition lpRule_try (e : env) (userId : string) (webhookData : value)
    (rule : SyncRule) : M unit :=
  if checkConditions (conditions rule) webhookData then
    do* id := lift (get webhookData "id") in
    let leadId := toString id in
    do* actionTimestamp := lift (get webhookData "action_timestamp") in
    do* already := isWebhookAlreadyProcessed e userId leadId (rule_id rule) actionTimestamp in
    if already : bool then
      logService Info (Some (rule_id rule)) MsgRuleAlreadyProcessed
    else
      do* relevant := lift (isWebhookRelevant webhookData rule) in
      if negb relevant then
        logService Info (Some (rule_id rule)) MsgRuleNotRelevant
      else
        logService Info (Some (rule_id rule)) MsgRuleApplicable ;;;
        executeActions e (actions rule)
          (VObject (setField "userId" (VString userId) (ownEntries webhookData))) ;;;
        markWebhookProcessedInRedis e userId leadId (rule_id rule) actionTimestamp ;;;
        storage_incrementRuleExecution e (rule_id rule)
  else
    do* _id := lift (get webhookData "id") in
    logService Info (Some (rule_id rule)) MsgRuleNotApplicable.

(** One iteration: the [try] with its [catch (ruleError)]. *)
Definition lpRule (e : env) (userId : string) (webhookData : value)
    (rule : SyncRule) : M unit :=
  tryCatch (lpRule_try e userId webhookData rule)
           (fun _ =>
              do* _id := lift (get webhookData "id") in
              logService Failure (Some (rule_id rule)) MsgRuleError).

Definition lpRules (e : env) (userId : string) (webhookData : value)
    (rules : list SyncRule) : M unit :=
  forEach (lpRule e userId webhookData) rules.

(** *** AmoCRM: the loop of [processLeadRules] *)

Definition amoEventData (userId : string) (leadId leadDetails : value)
    (contactsDetails : list value) (originalPayload : value) : value :=
  VObject [("leadId", leadId); ("leadDetails", leadDetails);
           ("contactsDetails", VArray contactsDetails);
           ("webhookPayload", originalPayload); ("userId", VString userId)].

Definition amoRule_try (e : env) (userId : string) (leadId leadDetails : value)
    (contactsDetails : list value) (originalPayload : value) (rule : SyncRule)
  : M unit :=
  let eventData := amoEventData userId leadId leadDetails contactsDetails originalPayload in
  do* _pipeline := lift (get leadDetails "pipeline_id") in
  do* _status := lift (get leadDetails "status_id") in
  logService Info (Some (rule_id rule)) MsgCheckingRule ;;;
  if checkConditions (conditions rule) eventData then
    logService Info (Some (rule_id rule)) MsgRuleMatches ;;;
    let leadIdStr := toString leadId in
    do* already := isWebhookAlreadyProcessed e userId leadIdStr (rule_id rule) VUndefined in
    if already : bool then
      logService Info (Some (rule_id rule)) MsgRuleAlreadyProcessed
    else
      executeActions e (actions rule) eventData ;;;
      markWebhookProcessedInRedis e userId leadIdStr (rule_id rule) VUndefined ;;;
      storage_incrementRuleExecution e (rule_id rule)
  else
    logService Info (Some (rule_id rule)) MsgRuleNotApplicable.

Definition amoRule (e : env) (userId : string) (leadId leadDetails : value)
    (contactsDetails : list value) (originalPayload : value) (rule : SyncRule)
  : M unit :=
  tryCatch (amoRule_try e userId leadId leadDetails contactsDetails originalPayload rule)
           (fun _ => logService Failure (Some (rule_id rule)) MsgRuleError).

Definition amoRules (e : env) (userId : string) (leadId leadDetails : value)
    (contactsDetails : list value) (originalPayload : value)
    (rules : list SyncRule) : M unit :=
  forEach (amoRule e userId leadId leadDetails contactsDetails originalPayload) rules.

(** The rules [processLeadRules] keeps:
    [rules.filter(rule => rule.webhookSource === 'amocrm')]
    [.filter(rule => rule.isActive)]. *)
Definition activeAmoCrmRules (rules : list SyncRule) : list SyncRule :=
  List.filter isActive
    (List.filter (fun rule => String.eqb (webhookSource rule) "amocrm") rules).

Definition processLeadRules (e : env) (userId : string) (leadId leadDetails : value)
    (contactsDetails : list value) (originalPayload : value) : M unit :=
  tryCatch
    (do* rules := lift (getSyncRules e userId) in
     let activeRules := activeAmoCrmRules rules in
     do* _name := lift (get leadDetails "name") in
     logService Info None MsgCheckingRules ;;;
     amoRules e userId leadId leadDetails contactsDetails originalPayload activeRules)
    (fun _ => logService Failure None MsgRulesError).

(* ===================================================================== *)
(** ** Owner resolution and enrichment *)
(* ===================================================================== *)

Definition settingsSubdomain (s : option AmoCrmSettings) : value :=
  match s with
  | Some x => amo_subdomain x
  | None => VUndefined
  end.

Definition settingsApiKey (s : option AmoCrmSettings) : value :=
  match s with
  | Some x => amo_apiKey x
  | None => VUndefined
  end.

(** The loop of [findUserBySubdomain]: the first user whose AmoCRM settings
    carry the subdomain. *)
Fixpoint firstUserWithSubdomain (e : env) (subdomain : value) (users : list string)
  : outcome (option string) :=
  match users with
  | [] => Return None
  | user :: rest =>
      let* settings := getAmoCrmSettings e user in
      if strictEq (settingsSubdomain settings) subdomain then Return (Some user)
      else firstUserWithSubdomain e subdomain rest
  end.

Definition findUserBySubdomain (e : env) (subdomain : value) : M (option string) :=
  tryCatch (do* users := lift (allUsers e) in
            lift (firstUserWithSubdomain e subdomain users))
           (fun _ => ret None).

(** [findUserByProjectId]: the settings row whose [projectId] is
    [projectId.toString()]. *)
Definition findUserByProjectId (e : env) (projectId : value) : M (option string) :=
  tryCatch (do* all := lift (getAllLpTrackerSettings e) in
            ret (option_map lp_userId
                   (List.find (fun s => strictEq (lp_projectId s)
                                          (VString (toString projectId))) all)))
           (fun _ => logService Failure None MsgNoUser ;;; ret None).

(** [!userId] for a [string | null]. *)
Definition noUser (userId : option string) : bool :=
  match userId with
  | Some u => String.eqb u EmptyString
  | None => true
  end.

Definition settingsMissing : exn := JsError "AmoCRM настройки не найдены".

Definition apiError (prefix : string) (status : Z) : exn :=
  JsError (prefix +:+ pretty status).

(** The shared shape of [getLeadDetails] and [getContactDetails]: read the
    user's settings, [GET] the URL, and return the JSON body of a 2xx
    response. *)
Definition amoGet (e : env) (userId : string) (path : string) (errorPrefix : string)
  : M value :=
  do* settings := lift (getAmoCrmSettings e userId) in
  if negb (truthy (settingsSubdomain settings)) || negb (truthy (settingsApiKey settings))
  then raise settingsMissing
  else
    let url := "https://" +:+ toString (settingsSubdomain settings)
               +:+ ".amocrm.ru/api/v4/" +:+ path in
    do* resp := lift (fetch e url) in
    if negb (resp_ok resp) then raise (apiError errorPrefix (resp_status resp))
    else lift (resp_json resp).

Definition getLeadDetails (e : env) (userId : string) (leadId : value) : M value :=
  amoGet e userId
    ("leads/" +:+ toString leadId
     +:+ "?with=contacts,companies,catalog_elements,loss_reason,source")
    "AmoCRM API error: ".

Definition getContactDetails (e : env) (userId : string) (contactId : value) : M value :=
  amoGet e userId ("contacts/" +:+ toString contactId) "AmoCRM Contact API error: ".

(** The loop over [leadDetails._embedded.contacts]: a contact whose detail
    cannot be fetched is logged and left out. *)
Fixpoint fetchContacts (e : env) (userId : string) (contacts : list value)
  : M (list value) :=
  match contacts with
  | [] => ret []
  | contact :: rest =>
      do* got :=
        tryCatch (do* cid := lift (get contact "id") in
                  do* details := getContactDetails e userId cid in
                  logService Info None MsgContactDetails ;;;
                  ret (Some details))
                 (fun _ =>
                    do* _cid := lift (get contact "id") in
                    logService Warning None MsgContactFailed ;;;
                    ret None) in
      do* others := fetchContacts e userId rest in
      ret (match got with
           | Some details => details :: others
           | None => others
           end)
  end.

(* ===================================================================== *)
(** ** The two processing entry points *)
(* ===================================================================== *)

(** The first populated lead id of an AmoCRM payload, or [null]. *)
Definition amoLeadId (payload : value) : outcome value :=
  let* added := get payload "leads[add][0][id]" in
  if truthy added then Return added
  else
    let* status := get payload "leads[status][0][id]" in
    if truthy status then Return status
    else
      let* updated := get payload "leads[update][0][id]" in
      if truthy updated then Return updated
      else
        let* deleted := get payload "leads[delete][0][id]" in
        if truthy deleted then Return deleted
        else Return VNull.

(** The inner [try] of [processAmoCrmWebhookDirect]: enrichment, then the
    rules. *)
Definition amoEnrichAndProcess_try (e : env) (userId : string) (leadId payload : value)
  : M unit :=
  do* leadDetails := getLeadDetails e userId leadId in
  logService Info None MsgLeadDetails ;;;
  do* embedded := lift (get leadDetails "_embedded") in
  do* contacts := lift (oget embedded "contacts") in
  do* len := lift (if truthy contacts then get contacts "length" else Return VUndefined) in
  do* contactsDetails :=
    (if truthy contacts && gtZero len
     then do* items := lift (iterate contacts) in fetchContacts e userId items
     else ret []) in
  processLeadRules e userId leadId leadDetails contactsDetails payload.

(** ... and its [catch], which logs and does not rethrow. *)
Definition amoEnrichAndProcess (e : env) (userId : string) (leadId payload : value)
  : M unit :=
  tryCatch (amoEnrichAndProcess_try e userId leadId payload)
           (fun _ => logService Failure None MsgLeadFetchFailed).

Definition processAmoCrmWebhookDirect (e : env) (payload : value) : M unit :=
  tryCatch
    ((* JSON.stringify(payload).length in the first log call *)
     (if isUndefined payload then raise TypeError else ret tt) ;;;
     logService Info None MsgWebhookStart ;;;
     do* subdomain := lift (get payload "account[subdomain]") in
     if negb (truthy subdomain) then
       logService Warning None MsgNoSubdomain
     else
       do* userId := findUserBySubdomain e subdomain in
       match userId with
       | Some user =>
           if noUser userId then logService Warning None MsgNoUser
           else
             do* leadId := lift (amoLeadId payload) in
             if negb (truthy leadId) then
               logService Warning None MsgNoLeadId
             else amoEnrichAndProcess e user leadId payload
       | None => logService Warning None MsgNoUser
       end)
    (fun error =>
       logService Failure None MsgWebhookError ;;;
       raise error).

Definition isString (v : value) : bool :=
  match v with
  | VString _ => true
  | _ => false
  end.

(** [processLpTrackerWebhookDirect] once [webhookData] is known. *)
Definition processLpTrackerData (e : env) (webhookData : value) : M unit :=
  do* projectId := lift (get webhookData "project_id") in
  logService Info None MsgWebhookStart ;;;
  if negb (truthy projectId) then
    logService Warning None MsgNoProject
  else
    do* userId := findUserByProjectId e projectId in
    match userId with
    | Some user =>
        if noUser userId then logService Warning None MsgNoUser
        else
          logService Info None MsgWebhookStart ;;;
          do* syncRules := getCachedSyncRules e user in
          lpRules e user webhookData syncRules
    | None => logService Warning None MsgNoUser
    end.

Definition processLpTrackerWebhookDirect (e : env) (payload : value) : M unit :=
  tryCatch
    (do* data := lift (get payload "data") in
     if truthy data && isString data then
       match jsonParse e (toString data) with
       | Return webhookData => processLpTrackerData e webhookData
       | Throw _ => logService Failure None MsgParseError
       end
     else processLpTrackerData e payload)
    (fun error =>
       logService Failure None MsgWebhookError ;;;
       raise error).

(* ===================================================================== *)
(** ** Queue handlers ([setupWebhookProcessors]) *)
(* ===================================================================== *)

(** The handler registered for a topic: it returns [{ processed: true }]
    when processing returns, and rethrows what processing throws.  Bull
    marks the job completed in the first case and failed, to be retried
    while attempts remain, in the second. *)
Definition jobHandler (process : M unit) : M bool :=
  tryCatch (process ;;;
            logService Info None MsgJobDone ;;;
            ret true)
           (fun error =>
              logService Failure None MsgJobError ;;;
              raise error).

Definition amocrmWebhookJob (e : env) (payload : value) : M bool :=
  jobHandler (processAmoCrmWebhookDirect e payload).

Definition lptrackerWebhookJob (e : env) (payload : value) : M bool :=
  jobHandler (processLpTrackerWebhookDirect e payload).

(* ===================================================================== *)
(** ** Vocabulary of the properties *)
(* ===================================================================== *)

(** *** Methods *)

(** [returns m]: the method never throws. *)
Definition returns {A} (m : M A) : Prop :=
  forall w, exists a w', m w = (Return a, w').

(** [preserves P m]: whatever [m] does, and whether it returns or throws,
    a world satisfying [P] is left satisfying [P]. *)
Definition preserves {A} (P : world -> Prop) (m : M A) : Prop :=
  forall w, P w -> P (snd (m w)).

(** A property of the world that the journal and the list of adapter
    calls do not affect. *)
Definition quiet (P : world -> Prop) : Prop :=
  (forall w en, P w -> P (add_log en w)) /\
  (forall w d, P w -> P (add_dispatch d w)).

(** ... and that a counter update and the writing of a dedup marker (a
    key set to expire [ttl] seconds from now) do not break either. *)
Definition robust (e : env) (ttl : Z) (P : world -> Prop) : Prop :=
  quiet P /\
  (forall w f, P w -> P (with_executions f w)) /\
  (forall w k v, P w ->
     P (with_redis (insert k {| payload := v; expires_at := now e + ttl |}) w)).

(** Two worlds that differ at most in their journal. *)
Definition agree (w1 w2 : world) : Prop :=
  redis w1 = redis w2 /\ executions w1 = executions w2 /\ dispatched w1 = dispatched w2.

(** A method that never reads the journal: from worlds that agree it has
    the same outcome and leaves worlds that agree. *)
Definition oblivious {A} (m : M A) : Prop :=
  forall w1 w2, agree w1 w2 ->
    fst (m w1) = fst (m w2) /\ agree (snd (m w1)) (snd (m w2)).

(** *** Conditions *)

(** The six condition types [checkConditions] knows. *)
Definition knownType (ty : value) : bool :=
  is_str ty "event_type" || is_str ty "pipeline" || is_str ty "status"
  || is_str ty "field_equals" || is_str ty "field_contains"
  || is_str ty "field_not_empty".

(** A condition "evaluates to true" when the [map] callback returns a
    truthy value for it; it "evaluates" when the callback returns at all. *)
Definition evaluatesTrue (eventData condition : value) : Prop :=
  exists r, evalCondition eventData condition = Return r /\ truthy r = true.

Definition evaluates (eventData condition : value) : Prop :=
  exists r, evalCondition eventData condition = Return r.

(** *** Rules, markers and counters *)

(** The journal entry a rule loop writes about a rule. *)
Definition entryOf (lvl : level) (rule : SyncRule) (msg : message) : logEntry :=
  {| log_level := lvl; log_rule := Some (rule_id rule); log_message := msg |}.

(** What [markWebhookProcessedInRedis] stores under the dedup key. *)
Definition marker (e : env) : entry :=
  {| payload := CachedJson (VObject [("processed", VBool true);
                                     ("timestamp", VNumber (1000 * now e))]);
     expires_at := now e + WEBHOOK_DEDUP_TTL |}.

(** An event carries an action timestamp when the value read from its
    [action_timestamp] is neither [undefined] nor [null]. *)
Definition timestampAvailable (ts : value) : bool := negb (is_nullish ts).

(** The dedup check answers [true] exactly when Redis answers and holds the
    key, unexpired. *)
Definition keyLive (e : env) (key : string) (w : world) : bool :=
  redis_up e && bool_decide (is_Some (liveLookup e (crm key) (redis w))).

(** The dedup key is in Redis and does not expire before [T]. *)
Definition markedUntil (key : string) (T : Z) (w : world) : Prop :=
  exists x, redis w !! crm key = Some x /\ T <= expires_at x.

(** The event object handed to [executeActions] on the LPTracker path:
    [{ ...webhookData, userId }]. *)
Definition lpEventData (userId : string) (webhookData : value) : value :=
  VObject (setField "userId" (VString userId) (ownEntries webhookData)).

(** *** Relevance *)

(** An updated field touches a name when it contains it or is exactly
    [custom.<name>]: the test [isWebhookRelevant] makes. *)
Definition touches (updated name : value) : Prop :=
  jsIncludes updated name = Return true
  \/ strictEq updated (VString ("custom." +:+ toString name)) = true.

(** The names the filter looks for in a rule: the [field] of an element of
    [conditions.rules] whose [type] contains [field_], and the source
    fields (keys) of the [fieldMappings] of an element of [actions.list]. *)
Definition conditionField (rule : SyncRule) (name : value) : Prop :=
  exists condRules items c ty,
    oget (conditions rule) "rules" = Return condRules
    /\ iterate condRules = Return items
    /\ In c items /\ get c "field" = Return name /\ truthy name = true
    /\ get c "type" = Return ty /\ is_nullish ty = false
    /\ jsIncludes ty (VString "field_") = Return true.

Definition mappingField (rule : SyncRule) (name : value) : Prop :=
  exists actionList items a mappings k,
    oget (actions rule) "list" = Return actionList
    /\ iterate actionList = Return items
    /\ In a items /\ get a "fieldMappings" = Return mappings
    /\ In k (map fst (ownEntries mappings)) /\ name = VString k.

(** *** Flushing *)

(** The live keys a [KEYS pattern] command returns. *)
Definition matching (e : env) (pattern : string) (m : gmap string entry) : list string :=
  List.filter (fun k => globMatch pattern k && bool_decide (is_Some (liveLookup e k m)))
              (map fst (map_to_list m)).

Definition isMeta (c : ascii) : bool :=
  is_char c "*" || is_char c "?" || is_char c "[" || is_char c "\".

(** No character of the string is special in a glob pattern. *)
Fixpoint literal (s : string) : bool :=
  match s with
  | EmptyString => true
  | String c rest => negb (isMeta c) && literal rest
  end.

(** The keys [invalidateUserCache(userId)] asks Redis to delete. *)
Definition flushedForUser (userId k : string) : bool :=
  globMatch (crm ("sync_rules:" +:+ userId +:+ "*")) k
  || globMatch (crm ("metadata:*:" +:+ userId +:+ "*")) k
  || globMatch (crm ("settings:*:" +:+ userId +:+ "*")) k
  || globMatch (crm ("webhook:" +:+ userId +:+ "*")) k.

(** The keys [clearAllCaches()] asks Redis to delete. *)
Definition flushedForAll (k : string) : bool :=
  globMatch (crm "sync_rules:*") k
  || globMatch (crm "metadata:*") k
  || globMatch (crm "settings:*") k
  || globMatch (crm "webhook:*") k.

(* ===================================================================== *)
(** ** Example data *)
(* ===================================================================== *)

Definition adapterError : exn := JsError "adapter: upstream write failed".

(** A run at time [t] in which Redis answers, the storage layer holds
    [rules] for every user, the counter update works, both adapters fail
    with [adapterError] when [adaptersFail] is set, user [u1] owns the
    AmoCRM subdomain [acme] and the LPTracker project 77, and every HTTP
    request to AmoCRM fails. *)
Definition exampleEnv (t : Z) (rules : list SyncRule) (adaptersFail : bool) : env :=
  {| now := t;
     redis_up := true;
     getSyncRules := fun _ => Return rules;
     incrementRuleExecution := fun _ => None;
     syncToAmoCrm := fun _ _ _ => if adaptersFail then Some adapterError else None;
     syncToLpTracker := fun _ _ _ => if adaptersFail then Some adapterError else None;
     getAllLpTrackerSettings :=
       Return [{| lp_userId := "u1"; lp_projectId := VString "77" |}];
     allUsers := Return ["u1"];
     getAmoCrmSettings := fun _ =>
       Return (Some {| amo_subdomain := VString "acme"; amo_apiKey := VString "k" |});
     fetch := fun _ => Throw (JsError "fetch failed");
     jsonParse := fun _ => Throw (JsError "Unexpected token") |}.

(** A run in which every adapter call fails and so does the counter update
    of rule [broken]. *)
Definition brokenCounterEnv (t : Z) (broken : Z) : env :=
  {| now := t;
     redis_up := true;
     getSyncRules := fun _ => Return [];
     incrementRuleExecution := fun ruleId =>
       if ruleId =? broken then Some (JsError "storage: update failed") else None;
     syncToAmoCrm := fun _ _ _ => Some adapterError;
     syncToLpTracker := fun _ _ _ => Some adapterError;
     getAllLpTrackerSettings := Return [];
     allUsers := Return [];
     getAmoCrmSettings := fun _ => Return None;
     fetch := fun _ => Throw (JsError "fetch failed");
     jsonParse := fun _ => Throw (JsError "Unexpected token") |}.

Definition emptyWorld : world :=
  {| redis := ∅; executions := ∅; dispatched := []; journal := [] |}.

(** An LPTracker event that moved lead 55 of project 77 to stage 142. *)
Definition stage_event : value :=
  VObject [("project_id", VNumber 77); ("id", VNumber 55);
           ("stage_id", VNumber 142); ("action_timestamp", VNumber 1700000000);
           ("action_update_fields", VArray [VString "stage_id"])].

(** The same lead, with only its [name] updated. *)
Definition rename_event : value :=
  VObject [("project_id", VNumber 77); ("id", VNumber 55);
           ("stage_id", VNumber 142); ("action_timestamp", VNumber 1700000000);
           ("action_update_fields", VArray [VString "name"])].

(** An LPTracker event whose custom field 1 holds the number 5. *)
Definition lp_event_numeric_field : value :=
  VObject [("stage_id", VNumber 142);
           ("custom", VArray [VObject [("id", VNumber 1); ("value", VNumber 5)]])].

(** An AmoCRM status webhook for lead 42 of the account [acme]. *)
Definition status_payload : value :=
  VObject [("account[subdomain]", VString "acme");
           ("leads[status][0][id]", VString "42")].

Definition stage_conditions (stage : string) : value :=
  VObject [("operator", VString "AND");
           ("rules", VArray [VObject [("type", VString "status");
                                      ("value", VString stage)]])].

Definition to_amocrm : value :=
  VObject [("list", VArray [VObject [("type", VString "sync_to_amocrm")]])].

(** A rule that fires on stage 142, with one action towards AmoCRM and no
    field mappings. *)
Definition stage_rule (id : Z) (source : string) (active : bool) : SyncRule :=
  {| rule_id := id; rule_name := "stage 142"; webhookSource := source;
     isActive := active; conditions := stage_conditions "142"; actions := to_amocrm |}.

(** A rule on the same stage whose field mappings name the contact's
    [name]. *)
Definition name_mapping_rule (id : Z) : SyncRule :=
  {| rule_id := id; rule_name := "name sync"; webhookSource := "lptracker";
     isActive := true; conditions := stage_conditions "142";
     actions := VObject [("list", VArray [
                  VObject [("type", VString "sync_to_amocrm");
                           ("fieldMappings", VObject [("name", VString "NAME")])]])] |}.

(** "status is 142, or custom field 1 contains vip". *)
Definition or_tree : value :=
  VObject [("operator", VString "OR");
           ("rules", VArray [
              VObject [("type", VString "status"); ("value", VString "142")];
              VObject [("type", VString "field_contains"); ("field", VNumber 1);
                       ("value", VString "vip")]])].

(** "status is 999" and "status is 142" under the given operator entry. *)
Definition two_status_rules (op : list (string * value)) : value :=
  VObject (op ++ [("rules", VArray [
              VObject [("type", VString "status"); ("value", VString "999")];
              VObject [("type", VString "status"); ("value", VString "142")]])]).

(* ===================================================================== *)
(** ** [RedisCache]: the remaining methods *)
(* ===================================================================== *)

(** [del(key)] *)
Definition cache_del (e : env) (key : string) : M unit :=
  tryCatch (client_del e [crm key])
           (fun _ => consoleError).

(** [client.set(key, value, 'EX', ttl, 'NX')]: the key is written only if
    it does not exist; the reply is ['OK'] ([true]) or [null]. *)
Definition client_set_nx (e : env) (key : string) (v : cached) (ttl : Z) : M bool :=
  command e (fun w =>
    match liveLookup e key (redis w) with
    | Some _ => (Return false, w)
    | None =>
        (Return true,
         with_redis (insert key {| payload := v; expires_at := now e + ttl |}) w)
    end).

(** [setIfNotExists(key, value, ttl)] *)
Definition cache_setIfNotExists (e : env) (key : string) (v : cached) (ttl : Z) : M bool :=
  tryCatch (client_set_nx e (crm key) v ttl)
           (fun _ => consoleError ;;; ret false).

(* ===================================================================== *)
(** ** Configuration cache: settings and metadata *)
(* ===================================================================== *)

(** [type: 'amocrm' | 'lptracker'] *)
Inductive platform : Type := OfAmoCrm | OfLpTracker.

Definition platformName (type : platform) : string :=
  match type with
  | OfAmoCrm => "amocrm"
  | OfLpTracker => "lptracker"
  end.

(** The storage methods behind the settings and metadata caches, each
    returning its row as the JSON it serialises to, or [undefined] when
    there is none: [getAmoCrmSettings(userId)] and
    [getLpTrackerSettings(userId)], and [getAmoCrmMetadata(userId, kind)] and
    [getLpTrackerMetadata(userId, kind)], whose rows carry the cached part
    in [data]. *)
Record configStore : Type := {
  getSettings : platform -> string -> outcome value;
  getMetadata : platform -> string -> string -> outcome value
}.

(** What a read of the cache yields to [if (cached)]: keys of the forms
    [settings:...] and [metadata:...] are written with JSON values only. *)
Definition cachedJson (hit : option cached) : value :=
  match hit with
  | Some (CachedJson v) => v
  | _ => VNull
  end.

Definition getCachedMetadata (e : env) (st : configStore) (userId : string)
    (type : platform) (metadataType : string) : M value :=
  let cacheKey := "metadata:" +:+ platformName type +:+ ":" +:+ userId
                  +:+ ":" +:+ metadataType in
  do* hit := cache_get e cacheKey in
  if truthy (cachedJson hit) then
    logService Info None MsgCacheHit ;;;
    ret (cachedJson hit)
  else
    do* metadata := lift (getMetadata st type userId metadataType) in
    if truthy metadata then
      do* data := lift (get metadata "data") in
      cache_set e cacheKey (CachedJson data) METADATA_CACHE_TTL ;;;
      logService Info None MsgCacheStored ;;;
      ret data
    else ret VNull.

Definition getCachedSettings (e : env) (st : configStore) (userId : string)
    (type : platform) : M value :=
  let cacheKey := "settings:" +:+ platformName type +:+ ":" +:+ userId in
  do* hit := cache_get e cacheKey in
  if truthy (cachedJson hit) then
    logService Info None MsgCacheHit ;;;
    ret (cachedJson hit)
  else
    do* settings := lift (getSettings st type userId) in
    if truthy settings then
      cache_set e cacheKey (CachedJson settings) SETTINGS_CACHE_TTL ;;;
      logService Info None MsgCacheStored ;;;
      ret settings
    else ret VNull.

(** [preloadCriticalData(userId)] *)
Definition preloadCriticalData (e : env) (st : configStore) (userId : string) : M unit :=
  do* _rules := getCachedSyncRules e userId in
  do* _amo := getCachedSettings e st userId OfAmoCrm in
  do* _lp := getCachedSettings e st userId OfLpTracker in
  do* _pipelines := getCachedMetadata e st userId OfAmoCrm "pipelines" in
  do* _statuses := getCachedMetadata e st userId OfAmoCrm "statuses" in
  do* _projects := getCachedMetadata e st userId OfLpTracker "projects" in
  ret tt.

(** A value that [JSON.parse(JSON.stringify(v))] gives back: one without
    [undefined] inside. *)
Fixpoint isJson (v : value) : bool :=
  match v with
  | VUndefined => false
  | VArray items => forallb isJson items
  | VObject fields => forallb (fun kv => isJson (snd kv)) fields
  | _ => true
  end.

(** What [set] can store without loss. *)
Definition storable (c : cached) : bool :=
  match c with
  | CachedJson v => isJson v
  | CachedRules _ => true
  end.

(** An installation whose Redis does not answer. *)
Definition downEnv (t : Z) (rules : list SyncRule) : env :=
  {| now := t;
     redis_up := false;
     getSyncRules := fun _ => Return rules;
     incrementRuleExecution := fun _ => None;
     syncToAmoCrm := fun _ _ _ => None;
     syncToLpTracker := fun _ _ _ => None;
     getAllLpTrackerSettings :=
       Return [{| lp_userId := "u1"; lp_projectId := VString "77" |}];
     allUsers := Return ["u1"];
     getAmoCrmSettings := fun _ =>
       Return (Some {| amo_subdomain := VString "acme"; amo_apiKey := VString "k" |});
     fetch := fun _ => Throw (JsError "fetch failed");
     jsonParse := fun _ => Throw (JsError "Unexpected token") |}.

(** What the settings and metadata caches answer when they go to the
    storage layer. *)
Definition freshSettings (st : configStore) (type : platform) (userId : string)
  : outcome value :=
  let* settings := getSettings st type userId in
  Return (if truthy settings then settings else VNull).

Definition freshMetadata (st : configStore) (type : platform)
    (userId metadataType : string) : outcome value :=
  let* metadata := getMetadata st type userId metadataType in
  if truthy metadata then get metadata "data" else Return VNull.

Definition settingsKey (type : platform) (userId : string) : string :=
  "settings:" +:+ platformName type +:+ ":" +:+ userId.

Definition metadataKey (type : platform) (userId metadataType : string) : string :=
  "metadata:" +:+ platformName type +:+ ":" +:+ userId +:+ ":" +:+ metadataType.

(** A storage layer with the settings of one AmoCRM account and its
    pipelines. *)
Definition exampleStore (subdomain : string) : configStore :=
  {| getSettings := fun type _ =>
       match type with
       | OfAmoCrm => Return (VObject [("subdomain", VString subdomain)])
       | OfLpTracker => Return VUndefined
       end;
     getMetadata := fun type _ _ =>
       match type with
       | OfAmoCrm => Return (VObject [("id", VNumber 1);
                                      ("data", VArray [VString "Sales"])])
       | OfLpTracker => Return VUndefined
       end |}.

(** A storage layer that cannot be reached. *)
Definition failingStore : configStore :=
  {| getSettings := fun _ _ => Throw (JsError "storage: connection refused");
     getMetadata := fun _ _ _ => Throw (JsError "storage: connection refused") |}.

(** *** Events without an owner *)

(** An LPTracker event whose owner cannot be resolved: it carries no
    project id, or the settings rows cannot be read, or none of them
    carries the project id, or the row that does has no user. *)
Inductive lpUnowned (e : env) (webhookData : value) : Prop :=
| LpNoProject (projectId : value) :
    get webhookData "project_id" = Return projectId ->
    truthy projectId = false ->
    lpUnowned e webhookData
| LpSettingsUnavailable (projectId : value) (ex : exn) :
    get webhookData "project_id" = Return projectId ->
    truthy projectId = true ->
    getAllLpTrackerSettings e = Throw ex ->
    lpUnowned e webhookData
| LpUnknownProject (projectId : value) (all : list LpTrackerSettings) :
    get webhookData "project_id" = Return projectId ->
    truthy projectId = true ->
    getAllLpTrackerSettings e = Return all ->
    noUser (option_map lp_userId
              (List.find (fun s => strictEq (lp_projectId s)
                                     (VString (toString projectId))) all)) = true ->
    lpUnowned e webhookData.

(** An LPTracker delivery that ends before any rule is read: its [data]
    string cannot be parsed, or the event it carries has no owner. *)
Inductive lpDropped (e : env) (payload : value) : Prop :=
| LpUnparsable (data : value) (ex : exn) :
    get payload "data" = Return data ->
    truthy data && isString data = true ->
    jsonParse e (toString data) = Throw ex ->
    lpDropped e payload
| LpParsedUnowned (data webhookData : value) :
    get payload "data" = Return data ->
    truthy data && isString data = true ->
    jsonParse e (toString data) = Return webhookData ->
    lpUnowned e webhookData ->
    lpDropped e payload
| LpPlainUnowned (data : value) :
    get payload "data" = Return data ->
    truthy data && isString data = false ->
    lpUnowned e payload ->
    lpDropped e payload.

(** The LPTracker event of a delivery and its owner. *)
Definition lpDecoded (e : env) (payload webhookData : value) : Prop :=
  exists data,
    get payload "data" = Return data
    /\ if truthy data && isString data
       then jsonParse e (toString data) = Return webhookData
       else webhookData = payload.

Definition lpOwnedBy (e : env) (webhookData : value) (user : string) : Prop :=
  exists projectId all s,
    get webhookData "project_id" = Return projectId
    /\ truthy projectId = true
    /\ getAllLpTrackerSettings e = Return all
    /\ List.find (fun s => strictEq (lp_projectId s) (VString (toString projectId))) all
       = Some s
    /\ lp_userId s = user
    /\ user <> EmptyString.

(** An AmoCRM delivery that ends before the lead is fetched: it names no
    account, or no user has that account's subdomain (or the users or their
    settings cannot be read), or it names no lead. *)
Inductive amoDropped (e : env) (payload : value) : Prop :=
| AmoNoSubdomain (subdomain : value) :
    get payload "account[subdomain]" = Return subdomain ->
    truthy subdomain = false ->
    amoDropped e payload
| AmoUsersUnavailable (subdomain : value) (ex : exn) :
    get payload "account[subdomain]" = Return subdomain ->
    truthy subdomain = true ->
    (let* users := allUsers e in firstUserWithSubdomain e subdomain users) = Throw ex ->
    amoDropped e payload
| AmoUnknownSubdomain (subdomain : value) (user : option string) :
    get payload "account[subdomain]" = Return subdomain ->
    truthy subdomain = true ->
    (let* users := allUsers e in firstUserWithSubdomain e subdomain users) = Return user ->
    noUser user = true ->
    amoDropped e payload
| AmoNoLead (subdomain : value) (user : string) (leadId : value) :
    get payload "account[subdomain]" = Return subdomain ->
    truthy subdomain = true ->
    (let* users := allUsers e in firstUserWithSubdomain e subdomain users)
    = Return (Some user) ->
    noUser (Some user) = false ->
    amoLeadId payload = Return leadId ->
    truthy leadId = false ->
    amoDropped e payload.

(** An installation whose storage layer cannot read the sync rules. *)
Definition noRulesEnv (t : Z) (up : bool) : env :=
  {| now := t;
     redis_up := up;
     getSyncRules := fun _ => Throw (JsError "storage: connection refused");
     incrementRuleExecution := fun _ => None;
     syncToAmoCrm := fun _ _ _ => None;
     syncToLpTracker := fun _ _ _ => None;
     getAllLpTrackerSettings :=
       Return [{| lp_userId := "u1"; lp_projectId := VString "77" |}];
     allUsers := Return ["u1"];
     getAmoCrmSettings := fun _ =>
       Return (Some {| amo_subdomain := VString "acme"; amo_apiKey := VString "k" |});
     fetch := fun _ => Throw (JsError "fetch failed");
     jsonParse := fun _ => Throw (JsError "Unexpected token") |}.

(** *** Adapter calls *)

(** What identifies an adapter call: the adapter, the user and the search
    key. *)
Definition callOf (d : dispatch) : adapter * value * value :=
  (d_target d, d_userId d, d_searchBy d).

(** The adapter call an action stands for: none unless its [type] is one
    of the two known ones. *)
Definition actionCall (eventData action : value) : list (adapter * value * value) :=
  match get action "type", get eventData "userId", get action "searchBy" with
  | Return ty, Return userId, Return searchBy =>
      if is_str ty "sync_to_amocrm"
      then [(AmoCrm, userId, jor searchBy (VString "phone"))]
      else if is_str ty "sync_to_lptracker"
      then [(LpTracker, userId, jor searchBy (VString "phone"))]
      else []
  | _, _, _ => []
  end.

(** What the adapter answers to a call: the exception it throws, if any. *)
Definition adapterOutcome (e : env) (d : dispatch) : option exn :=
  match d_target d with
  | AmoCrm => syncToAmoCrm e (d_userId d) (d_data d) (d_searchBy d)
  | LpTracker => syncToLpTracker e (d_userId d) (d_data d) (d_searchBy d)
  end.

Definition callFailed (e : env) (d : dispatch) : bool :=
  match adapterOutcome e d with
  | Some _ => true
  | None => false
  end.

(** The number of calls that failed. *)
Definition failedCalls (e : env) (calls : list dispatch) : nat :=
  List.length (List.filter (callFailed e) calls).

(** The journal entry [executeActions] writes when an action fails. *)
Definition isActionError (en : logEntry) : bool :=
  match log_level en, log_message en with
  | Failure, MsgActionError => true
  | _, _ => false
  end.

Definition actionErrors (entries : list logEntry) : nat :=
  List.length (List.filter isActionError entries).

(** An action list [executeActions] can walk: [actions.list] is an array
    (or a string) whose elements are not [null] or [undefined], and the
    record for the adapters can be built from the event. *)
Definition wellFormedActions (actionsV eventData : value) (items : list value) : Prop :=
  truthy actionsV = true
  /\ (exists actionList,
        get actionsV "list" = Return actionList
        /\ truthy actionList = true
        /\ iterate actionList = Return items)
  /\ Forall (fun action => is_nullish action = false) items
  /\ exists base, syncRecord eventData = Return base.

(** Between two worlds the actions were dispatched: one adapter call was
    made for each action of a known type, in order, and each call that
    failed left an error entry in the journal. *)
Definition callsMade (e : env) (eventData : value) (items : list value)
    (before after : world) : Prop :=
  exists calls,
    dispatched after = (dispatched before ++ calls)%list
    /\ map callOf calls = flat_map (actionCall eventData) items
    /\ actionErrors (journal after)
       = (actionErrors (journal before) + failedCalls e calls)%nat.

(** An AmoCRM event for lead 55 with one contact. *)
Definition amo_event : value :=
  amoEventData "u1" (VString "55")
    (VObject [("name", VString "Deal"); ("status_id", VNumber 142)])
    [VObject [("name", VString "Ann")]] (VObject []).

(** Three actions: towards LPTracker by email, of a type the dispatcher
    does not know, and towards AmoCRM. *)
Definition three_actions : value :=
  VObject [("list", VArray [
    VObject [("type", VString "sync_to_lptracker"); ("searchBy", VString "email")];
    VObject [("type", VString "send_email")];
    VObject [("type", VString "sync_to_amocrm")]])].

(** *** Dedup keys *)

(** A string without the separator of the key. *)
Fixpoint colonFree (s : string) : bool :=
  match s with
  | EmptyString => true
  | String c rest => negb (is_char c ":") && colonFree rest
  end.

(* ===================================================================== *)
(** ** Rate limiting ([setupSecurity]) *)
(* ===================================================================== *)

(** What the limiter reads of a request; the empty string stands for an
    address that is not known. *)
Record request : Type := {
  ip : string;
  remoteAddress : string
}.

(** [req.ip || req.connection.remoteAddress] *)
Definition clientAddress (req : request) : string :=
  if String.eqb (ip req) EmptyString then remoteAddress req else ip req.

(** The value of [requestCounts] for an address. *)
Record rateRecord : Type := {
  count : Z;
  resetTime : Z
}.

(** What the middleware does with the request: [next()], or the reply
    [429]. *)
Inductive verdict : Type := Next | TooManyRequests.

(** The middleware [rateLimit(windowMs, max)] builds, at clock [now]
    ([Date.now()], in milliseconds), on the one table [requestCounts] of
    [setupSecurity]. *)
Definition rateLimit (windowMs max : Z) (req : request) (now : Z)
    (requestCounts : gmap string rateRecord) : verdict * gmap string rateRecord :=
  let ip := clientAddress req in
  match requestCounts !! ip with
  | None =>
      (Next, <[ip := {| count := 1; resetTime := now + windowMs |}]> requestCounts)
  | Some record =>
      if resetTime record <? now then
        (Next, <[ip := {| count := 1; resetTime := now + windowMs |}]> requestCounts)
      else if max <=? count record then
        (TooManyRequests, requestCounts)
      else
        (Next, <[ip := {| count := count record + 1; resetTime := resetTime record |}]>
                 requestCounts)
  end.

Definition apiLimiter := rateLimit (15 * 60 * 1000) 100.
Definition webhookLimiter := rateLimit (1 * 60 * 1000) 60.

(** Requests served one after the other by a limiter: the number of those
    of [address] that are let through, and the table they leave. *)
Fixpoint serve (limiter : request -> Z -> gmap string rateRecord
                          -> verdict * gmap string rateRecord)
    (address : string) (arrivals : list (request * Z))
    (requestCounts : gmap string rateRecord) : Z * gmap string rateRecord :=
  match arrivals with
  | [] => (0, requestCounts)
  | (req, at_time) :: rest =>
      let (v, table) := limiter req at_time requestCounts in
      let (n, final) := serve limiter address rest table in
      (match v with
       | Next => if String.eqb (clientAddress req) address then n + 1 else n
       | TooManyRequests => n
       end, final)
  end.

(** The number of arrivals from an address. *)
Fixpoint arrivalsFrom (address : string) (arrivals : list (request * Z)) : Z :=
  match arrivals with
  | [] => 0
  | (req, _) :: rest =>
      (if String.eqb (clientAddress req) address then 1 else 0)
      + arrivalsFrom address rest
  end.

(** Every arrival from the address is at or before the given time. *)
Definition arriveBy (address : string) (deadline : Z) (arrivals : list (request * Z))
  : Prop :=
  Forall (fun a : request * Z => clientAddress (fst a) = address -> snd a <= deadline)
         arrivals.

Definition requestFrom (address : string) : request :=
  {| ip := address; remoteAddress := EmptyString |}.

(** *** Numeric ids *)

(** A decimal digit, and a string of decimal digits. *)
Definition is_digit (c : ascii) : bool :=
  match digit_of 10 c with
  | Some _ => true
  | None => false
  end.

Fixpoint digitsOnly (s : string) : bool :=
  match s with
  | EmptyString => true
  | String c rest => is_digit c && digitsOnly rest
  end.

(** The numeric [id] of a custom field of an LPTracker event. *)
Definition hasId (n : Z) (field : value) : bool :=
  match get field "id" with
  | Return (VNumber k) => k =? n
  | _ => false
  end.

(** An LPTracker event with two custom fields. *)
Definition custom_event : value :=
  VObject [("project_id", VNumber 77); ("id", VNumber 55);
           ("custom", VArray [
              VObject [("id", VNumber 12); ("value", VString "gold")];
              VObject [("id", VNumber 123); ("value", VString "silver")]])].

(* ===================================================================== *)
(** ** Passwords ([hashPassword], [comparePasswords]) *)
(* ===================================================================== *)

(** A [Buffer]. *)
Definition buffer : Type := list Byte.byte.

(** The functions of Node's [crypto] module the two functions call:
    [scryptAsync(password, salt, keylen)], which may reject, and
    [createHash('sha256').update(data).digest()]. *)
Record crypto : Type := {
  scrypt : string -> string -> Z -> outcome buffer;
  sha256 : string -> buffer
}.

Definition hexChar (n : N) : ascii :=
  match n with
  | 0 => "0" | 1 => "1" | 2 => "2" | 3 => "3" | 4 => "4" | 5 => "5" | 6 => "6"
  | 7 => "7" | 8 => "8" | 9 => "9" | 10 => "a" | 11 => "b" | 12 => "c"
  | 13 => "d" | 14 => "e" | _ => "f"
  end%char%N.

(** [buf.toString('hex')] *)
Fixpoint toHex (buf : buffer) : string :=
  match buf with
  | [] => EmptyString
  | b :: rest =>
      String (hexChar (Byte.to_N b / 16))
        (String (hexChar (Byte.to_N b mod 16)) (toHex rest))
  end.

(** [Buffer.from(s, 'hex')]: pairs of hexadecimal digits, of either case,
    up to the first pair that is not one. *)
Fixpoint fromHex (s : string) : buffer :=
  match s with
  | String hi (String lo rest) =>
      match digit_of 16 hi, digit_of 16 lo with
      | Some x, Some y =>
          match Byte.of_N (Z.to_N (16 * x + y)) with
          | Some b => b :: fromHex rest
          | None => []
          end
      | _, _ => []
      end
  | _ => []
  end.

(** [s.split(sep)] for a one-character separator. *)
Fixpoint split (sep : ascii) (s : string) : list string :=
  match s with
  | EmptyString => [EmptyString]
  | String c rest =>
      if Ascii.eqb c sep then EmptyString :: split sep rest
      else
        match split sep rest with
        | first :: others => String c first :: others
        | [] => [String c EmptyString]
        end
  end.

Fixpoint bytesEq (a b : buffer) : bool :=
  match a, b with
  | [], [] => true
  | x :: a', y :: b' => Byte.eqb x y && bytesEq a' b'
  | _, _ => false
  end.

(** [timingSafeEqual(a, b)] throws a [RangeError] when the two buffers
    differ in length. *)
Definition timingSafeEqual (a b : buffer) : outcome bool :=
  if (List.length a =? List.length b)%nat then Return (bytesEq a b)
  else Throw (JsError "RangeError: Input buffers must have the same byte length").

(** [hashPassword(password)], with the bytes [randomBytes(16)] drew. *)
Definition hashPassword (lib : crypto) (randomBytes : buffer) (password : string)
  : outcome string :=
  let salt := toHex randomBytes in
  let* buf := scrypt lib password salt 64 in
  Return (toHex buf +:+ "." +:+ salt).

(** The body of the [try] of [comparePasswords]. *)
Definition comparePasswords_try (lib : crypto) (supplied stored : string)
  : outcome bool :=
  if (Z.of_nat (String.length stored) =? 64) && negb (str_includes stored ".") then
    let hashedSupplied := toHex (sha256 lib supplied) in
    Return (String.eqb hashedSupplied stored)
  else
    match split "." stored with
    | hashed :: salt :: _ =>
        if String.eqb hashed EmptyString || String.eqb salt EmptyString
        then Return false
        else
          let hashedBuf := fromHex hashed in
          let* suppliedBuf := scrypt lib supplied salt 64 in
          timingSafeEqual hashedBuf suppliedBuf
    | _ => Return false
    end.

(** [comparePasswords]: the [catch] answers [false]. *)
Definition comparePasswords (lib : crypto) (supplied stored : string) : bool :=
  match comparePasswords_try lib supplied stored with
  | Return b => b
  | Throw _ => false
  end.

(** A stand-in for [crypto] on which the functions can be run: the key is
    the bytes of the salt followed by those of the password. *)
Definition toyCrypto : crypto :=
  {| scrypt := fun password salt _ =>
       Return (list_byte_of_string salt ++ list_byte_of_string password)%list;
     sha256 := fun data => list_byte_of_string data |}.

(** The password [createSuperuserIfNotExists] stores for the user [admin]:
    [crypto.createHash('sha256').update("admin123").digest('hex')]. *)
Definition superuserPassword (lib : crypto) : string :=
  toHex (sha256 lib "admin123").

(** A stand-in whose digests have the 32 bytes of SHA-256: the data,
    cut or padded with zero bytes. *)
Definition toyDigest (data : string) : buffer :=
  firstn 32 (list_byte_of_string data ++ repeat Byte.x00 32).

Definition toyCrypto32 : crypto :=
  {| scrypt := fun password salt _ =>
       Return (list_byte_of_string salt ++ list_byte_of_string password)%list;
     sha256 := toyDigest |}.

(** *** Contacts *)

(** What [fetchContacts] keeps of a contact of the lead: its details when
    they can be fetched, and nothing otherwise. *)
Definition fetchedContact (e : env) (userId : string) (w : world) (contact : value)
  : list value :=
  match get contact "id" with
  | Return contactId =>
      match fst (getContactDetails e userId contactId w) with
      | Return details => [details]
      | Throw _ => []
      end
  | Throw _ => []
  end.

(** An installation whose AmoCRM API knows contact 7 only. *)
Definition contactsEnv : env :=
  {| now := 1000;
     redis_up := true;
     getSyncRules := fun _ => Return [];
     incrementRuleExecution := fun _ => None;
     syncToAmoCrm := fun _ _ _ => None;
     syncToLpTracker := fun _ _ _ => None;
     getAllLpTrackerSettings := Return [];
     allUsers := Return ["u1"];
     getAmoCrmSettings := fun _ =>
       Return (Some {| amo_subdomain := VString "acme"; amo_apiKey := VString "k" |});
     fetch := fun url =>
       if String.eqb url "https://acme.amocrm.ru/api/v4/contacts/7"
       then Return {| resp_ok := true; resp_status := 200;
                      resp_json := Return (VObject [("id", VNumber 7);
                                                    ("name", VString "Ann")]) |}
       else Return {| resp_ok := false; resp_status := 404;
                      resp_json := Return VNull |};
     jsonParse := fun _ => Throw (JsError "Unexpected token") |}.

(** *** Relevance: the reading of the specification *)

(** A name is referenced by a condition of the rule when it is the [field]
    of an element of [conditions.rules], whatever the type of the
    condition. *)
Definition referencedByCondition (rule : SyncRule) (name : value) : Prop :=
  exists condRules items c,
    oget (conditions rule) "rules" = Return condRules
    /\ iterate condRules = Return items
    /\ In c items /\ get c "field" = Return name /\ truthy name = true.

(** The lead of [stage_event], with only its [first_name] updated. *)
Definition first_name_event : value :=
  VObject [("project_id", VNumber 77); ("id", VNumber 55);
           ("stage_id", VNumber 142); ("action_timestamp", VNumber 1700000000);
           ("action_update_fields", VArray [VString "first_name"])].

(** The elements of an action list up to its first [null] or [undefined]
    one. *)
Fixpoint beforeNull (items : list value) : list value :=
  match items with
  | [] => []
  | x :: rest => if is_nullish x then [] else x :: beforeNull rest
  end.

(** Three actions with a [null] between the first and the last. *)
Definition actions_with_null : value :=
  VObject [("list", VArray [
    VObject [("type", VString "sync_to_lptracker")];
    VNull;
    VObject [("type", VString "sync_to_amocrm")]])].

(** *** The record handed to the adapters *)

(** The fields of a record that leaves no gap: the names that fall back
    to a literal, the ones that fall back to the empty string, to [0] or
    to [{}], and the event the record was built from. *)
Definition recordFields (eventData : value) (fs : list (string * value)) : Prop :=
  truthy (assoc "name" fs) = true
  /\ truthy (assoc "deal_name" fs) = true
  /\ assoc "source" fs = VString "webhook_automation"
  /\ (truthy (assoc "price" fs) = true \/ assoc "price" fs = VNumber 0)
  /\ Forall (fun k => truthy (assoc k fs) = true \/ assoc k fs = VString EmptyString)
       ["first_name"; "last_name"; "phone"; "email"; "campaign"; "keyword"]
  /\ truthy (assoc "custom_fields" fs) = true
  /\ truthy (assoc "fieldMappings" fs) = true
  /\ assoc "originalEventData" fs = eventData.

Definition completeRecord (eventData data : value) : Prop :=
  exists fs, data = VObject fs /\ recordFields eventData fs.

(* ===================================================================== *)
(** * Properties *)
(* ===================================================================== *)

(** ** JavaScript values: basic facts *)

Lemma get_not_nullish (v : value) (k : string) :
  is_nullish v = false -> exists x, get v k = Return x.
Proof.
  destruct v; simpl; intros H; try discriminate; eauto.
Qed.

Lemma get_nullish (v : value) (k : string) :
  is_nullish v = true -> get v k = Throw TypeError.
Proof.
  destruct v; simpl; intros H; try discriminate; reflexivity.
Qed.

Lemma truthy_not_nullish (v : value) : truthy v = true -> is_nullish v = false.
Proof. destruct v; simpl; intros H; try discriminate; reflexivity. Qed.

Lemma is_str_jor_default (op : value) :
  is_str (jor op (VString "AND")) "OR" = is_str op "OR".
Proof.
  unfold jor. destruct (truthy op) eqn:Ht; [reflexivity|].
  destruct op; simpl in *; try reflexivity; try discriminate.
  destruct s; simpl in *; [reflexivity | discriminate].
Qed.

Lemma omap_In {A B} (f : A -> outcome B) (l : list A) (rs : list B) (x : A) :
  omap f l = Return rs -> In x l -> exists r, f x = Return r /\ In r rs.
Proof.
  revert rs. induction l as [|a l IH]; intros rs Hm Hin; [destruct Hin|].
  simpl in Hm. destruct (f a) as [b|] eqn:Hfa; simpl in Hm; [|discriminate].
  destruct (omap f l) as [bs|] eqn:Hl; simpl in Hm; [|discriminate].
  injection Hm as <-. destruct Hin as [->|Hin].
  - exists b. split; [assumption | left; reflexivity].
  - destruct (IH bs eq_refl Hin) as (r & Hr & Hrs).
    exists r. split; [assumption | right; assumption].
Qed.

Lemma omap_results {A B} (f : A -> outcome B) (l : list A) (rs : list B) (r : B) :
  omap f l = Return rs -> In r rs -> exists x, In x l /\ f x = Return r.
Proof.
  revert rs. induction l as [|a l IH]; intros rs Hm Hin; simpl in Hm.
  - injection Hm as <-. destruct Hin.
  - destruct (f a) as [b|] eqn:Hfa; simpl in Hm; [|discriminate].
    destruct (omap f l) as [bs|] eqn:Hl; simpl in Hm; [|discriminate].
    injection Hm as <-. destruct Hin as [->|Hin].
    + exists a. split; [left; reflexivity | assumption].
    + destruct (IH bs eq_refl Hin) as (x & Hx & Hfx).
      exists x. split; [right; assumption | assumption].
Qed.

Lemma omap_all {A B} (f : A -> outcome B) (l : list A) :
  (forall x, In x l -> exists r, f x = Return r) ->
  exists rs, omap f l = Return rs.
Proof.
  induction l as [|a l IH]; intros H; simpl; [eauto|].
  destruct (H a (or_introl eq_refl)) as (b & ->). simpl.
  destruct IH as (bs & ->); [intros x Hx; apply H; right; assumption|].
  simpl. eauto.
Qed.

(** ** The condition evaluator *)

Lemma evalCondition_unknown (eventData condition ty : value) :
  get condition "type" = Return ty -> knownType ty = false ->
  evalCondition eventData condition = Return (VBool false).
Proof.
  intros Hty Hk. unfold evalCondition. rewrite Hty. simpl.
  unfold knownType in Hk.
  repeat (apply orb_false_elim in Hk; destruct Hk as [Hk ?]).
  repeat match goal with H : is_str ty _ = false |- _ => rewrite H; clear H end.
  reflexivity.
Qed.

(** What [checkConditions] computes once [rules] is an array. *)
Lemma checkConditions_array (conditions eventData op : value) (items : list value) :
  get conditions "rules" = Return (VArray items) ->
  get conditions "operator" = Return op ->
  checkConditions conditions eventData =
    match omap (evalCondition eventData) items with
    | Return results =>
        if is_str op "OR" then existsb truthy results else forallb truthy results
    | Throw _ => false
    end.
Proof.
  intros Hr Ho. unfold checkConditions, checkConditions_try.
  assert (Ht : truthy conditions = true).
  { destruct conditions; simpl in Hr; try discriminate; try reflexivity;
      destruct (String.eqb _ _); discriminate. }
  rewrite Ht, Hr. simpl. rewrite Ho. simpl.
  rewrite is_str_jor_default.
  destruct (omap (evalCondition eventData) items) as [results|]; simpl; [|reflexivity].
  destruct (is_str op "OR"); reflexivity.
Qed.

(** C2, as stated, fails: a tree whose [rules] is the empty list and whose
    operator is omitted evaluates to [true] ([[].every(...)]). *)
Lemma empty_rules_match_everything :
  checkConditions (VObject [("rules", VArray [])]) (VObject []) = true.
Proof. reflexivity. Qed.

(** C2 (amended): [checkConditions] never throws, whatever the tree and the
    event: an exception inside it yields [false].  It returns [false] when
    [conditions] is null (or otherwise falsy), when [conditions.rules] is
    missing (or falsy), when [rules] is the empty list and the operator is
    "OR", and when some condition has an unknown type and the operator is
    not "OR".  A condition of unknown type evaluates to [false] by itself;
    an empty list under AND (or no operator) evaluates to [true]. *)
Theorem checkConditions_fail_closed (conditions eventData : value) :
  (forall ex, checkConditions_try conditions eventData = Throw ex ->
              checkConditions conditions eventData = false)
  /\ (truthy conditions = false -> checkConditions conditions eventData = false)
  /\ (forall rules, get conditions "rules" = Return rules -> truthy rules = false ->
        checkConditions conditions eventData = false)
  /\ (forall op, get conditions "rules" = Return (VArray []) ->
        get conditions "operator" = Return op ->
        checkConditions conditions eventData = negb (is_str op "OR"))
  /\ (forall condition ty, get condition "type" = Return ty -> knownType ty = false ->
        evalCondition eventData condition = Return (VBool false))
  /\ (forall items op condition ty,
        get conditions "rules" = Return (VArray items) ->
        get conditions "operator" = Return op ->
        is_str op "OR" = false ->
        In condition items ->
        get condition "type" = Return ty -> knownType ty = false ->
        checkConditions conditions eventData = false).
Proof.
  repeat split.
  - intros ex H. unfold checkConditions. rewrite H. reflexivity.
  - intros H. unfold checkConditions, checkConditions_try. rewrite H. reflexivity.
  - intros rules Hr Ht. unfold checkConditions, checkConditions_try.
    destruct (truthy conditions); simpl; [|reflexivity].
    rewrite Hr. simpl. rewrite Ht. reflexivity.
  - intros op Hr Ho. rewrite (checkConditions_array _ _ op [] Hr Ho). simpl.
    destruct (is_str op "OR"); reflexivity.
  - intros condition ty. apply evalCondition_unknown.
  - intros items op condition ty Hr Ho Hop Hin Hty Hk.
    rewrite (checkConditions_array _ _ op items Hr Ho), Hop.
    destruct (omap (evalCondition eventData) items) as [results|] eqn:Hm; [|reflexivity].
    destruct (omap_In _ _ _ _ Hm Hin) as (r & Hr' & Hrin).
    rewrite (evalCondition_unknown _ _ _ Hty Hk) in Hr'. injection Hr' as <-.
    apply not_true_is_false. intros Hall.
    rewrite forallb_forall in Hall. specialize (Hall _ Hrin). discriminate.
Qed.

Lemma checkConditions_fail_closed_witness :
  checkConditions (VObject [("operator", VString "AND");
                            ("rules", VArray [VObject [("type", VString "stage_name")]])])
                  (VObject [("stage_id", VNumber 142)]) = false.
Proof.
  refine (proj2 (proj2 (proj2 (proj2 (proj2
            (checkConditions_fail_closed _ _)))))
          [VObject [("type", VString "stage_name")]] (VString "AND")
          (VObject [("type", VString "stage_name")]) (VString "stage_name")
          _ _ _ _ _ _);
    first [reflexivity | left; reflexivity].
Defined.

(** C5, as stated, fails for "OR": one condition evaluates to [true], yet
    the tree is [false], because evaluating the other one throws
    ([(5).includes] is not a function) and the [catch] answers [false]. *)
Lemma or_false_despite_true_condition :
  evalCondition lp_event_numeric_field
    (VObject [("type", VString "status"); ("value", VString "142")])
  = Return (VBool true)
  /\ checkConditions or_tree lp_event_numeric_field = false.
Proof. split; reflexivity. Qed.

(** C5 (amended): for every condition list, with operator "OR"
    [checkConditions] returns [true] iff some condition evaluates to true
    and no condition's evaluation throws; with any other operator, "AND"
    and an omitted one among them, it returns [true] iff every condition
    evaluates to true.  So OR over results [false, true] is [true] and AND
    over [false, true] is [false]. *)
Theorem checkConditions_operator (conditions eventData op : value) (items : list value) :
  get conditions "rules" = Return (VArray items) ->
  get conditions "operator" = Return op ->
  (is_str op "OR" = true ->
     (checkConditions conditions eventData = true <->
      (exists c, In c items /\ evaluatesTrue eventData c)
      /\ (forall c, In c items -> evaluates eventData c)))
  /\ (is_str op "OR" = false ->
     (checkConditions conditions eventData = true <->
      forall c, In c items -> evaluatesTrue eventData c))
  /\ (op = VUndefined \/ op = VString "AND" -> is_str op "OR" = false)
  /\ (forall r1 r2,
        omap (evalCondition eventData) items = Return [r1; r2] ->
        truthy r1 = false -> truthy r2 = true ->
        checkConditions conditions eventData = is_str op "OR").
Proof.
  intros Hr Ho. rewrite (checkConditions_array _ _ op items Hr Ho).
  split; [|split; [|split]].
  - intros Hop. rewrite Hop. split.
    + (* OR, left to right *)
      intros Hex.
      destruct (omap (evalCondition eventData) items) as [results|] eqn:Hm; [|discriminate].
      split.
      * apply existsb_exists in Hex as (r & Hin & Ht).
        destruct (omap_results _ _ _ _ Hm Hin) as (c & Hc & Hfc).
        exists c. split; [assumption|]. exists r. split; assumption.
      * intros c Hc.
        destruct (omap_In _ _ _ _ Hm Hc) as (r & Hfc & _). exists r. assumption.
    + (* OR, right to left *)
      intros [(c & Hc & r & Hfc & Ht) Hall].
      destruct (omap_all (evalCondition eventData) items Hall) as (results & Hm).
      rewrite Hm. apply existsb_exists.
      destruct (omap_In _ _ _ _ Hm Hc) as (r' & Hfc' & Hin).
      rewrite Hfc in Hfc'. injection Hfc' as <-. exists r. split; assumption.
  - intros Hop. rewrite Hop. split.
    + (* AND, left to right *)
      intros Hfa c Hc.
      destruct (omap (evalCondition eventData) items) as [results|] eqn:Hm; [|discriminate].
      destruct (omap_In _ _ _ _ Hm Hc) as (r & Hfc & Hin).
      rewrite forallb_forall in Hfa. exists r. split; [assumption | apply Hfa; assumption].
    + (* AND, right to left *)
      intros Hall.
      destruct (omap_all (evalCondition eventData) items) as (results & Hm).
      { intros c Hc. destruct (Hall c Hc) as (r & Hfc & _). exists r. assumption. }
      rewrite Hm. apply forallb_forall. intros r Hin.
      destruct (omap_results _ _ _ _ Hm Hin) as (c & Hc & Hfc).
      destruct (Hall c Hc) as (r' & Hfc' & Ht).
      rewrite Hfc in Hfc'. injection Hfc' as <-. assumption.
  - intros [-> | ->]; reflexivity.
  - intros r1 r2 Hm Hf Ht. rewrite Hm. simpl. rewrite Hf, Ht.
    destruct (is_str op "OR"); reflexivity.
Qed.

Lemma checkConditions_operator_witness :
  checkConditions (two_status_rules [("operator", VString "OR")])
                  (VObject [("stage_id", VNumber 142)]) = true
  /\ checkConditions (two_status_rules [("operator", VString "AND")])
                     (VObject [("stage_id", VNumber 142)]) = false
  /\ checkConditions (two_status_rules [])
                     (VObject [("stage_id", VNumber 142)]) = false.
Proof.
  pose (ev := VObject [("stage_id", VNumber 142)]).
  pose (items := [VObject [("type", VString "status"); ("value", VString "999")];
                  VObject [("type", VString "status"); ("value", VString "142")]]).
  split; [|split].
  - exact (proj2 (proj2 (proj2
            (checkConditions_operator (two_status_rules [("operator", VString "OR")])
               ev (VString "OR") items eq_refl eq_refl)))
            (VBool false) (VBool true) eq_refl eq_refl eq_refl).
  - exact (proj2 (proj2 (proj2
            (checkConditions_operator (two_status_rules [("operator", VString "AND")])
               ev (VString "AND") items eq_refl eq_refl)))
            (VBool false) (VBool true) eq_refl eq_refl eq_refl).
  - exact (proj2 (proj2 (proj2
            (checkConditions_operator (two_status_rules [])
               ev VUndefined items eq_refl eq_refl)))
            (VBool false) (VBool true) eq_refl eq_refl eq_refl).
Defined.

(* ===================================================================== *)
(** ** Reasoning about methods *)
(* ===================================================================== *)

Section Combinators.
Context {A B : Type}.

Lemma returns_ret (a : A) : returns (ret a).
Proof. intros w. exists a, w. reflexivity. Qed.

Lemma returns_lift (o : outcome A) (a : A) : o = Return a -> returns (lift o).
Proof. intros -> w. exists a, w. reflexivity. Qed.

Lemma returns_modify (f : world -> world) : returns (modify f).
Proof. intros w. exists tt, (f w). reflexivity. Qed.

Lemma returns_bind (m : M A) (k : A -> M B) :
  returns m -> (forall a, returns (k a)) -> returns (bind m k).
Proof.
  intros Hm Hk w. destruct (Hm w) as (a & w1 & E).
  destruct (Hk a w1) as (b & w2 & E2).
  exists b, w2. unfold bind. rewrite E. exact E2.
Qed.

Lemma returns_tryCatch (body : M A) (handler : exn -> M A) :
  (forall ex, returns (handler ex)) -> returns (tryCatch body handler).
Proof.
  intros Hh w. unfold tryCatch.
  destruct (body w) as [[a|ex] w1]; [exists a, w1; reflexivity|].
  apply Hh.
Qed.

Lemma preserves_ret P (a : A) : preserves P (ret a).
Proof. intros w H. exact H. Qed.

Lemma preserves_raise P (ex : exn) : preserves P (@raise A ex).
Proof. intros w H. exact H. Qed.

Lemma preserves_lift P (o : outcome A) : preserves P (lift o).
Proof. intros w H. exact H. Qed.

Lemma preserves_bind P (m : M A) (k : A -> M B) :
  preserves P m -> (forall a, preserves P (k a)) -> preserves P (bind m k).
Proof.
  intros Hm Hk w H. unfold bind. specialize (Hm w H).
  destruct (m w) as [[a|ex] w1]; simpl in *; [apply Hk; assumption | assumption].
Qed.

Lemma preserves_tryCatch P (body : M A) (handler : exn -> M A) :
  preserves P body -> (forall ex, preserves P (handler ex)) ->
  preserves P (tryCatch body handler).
Proof.
  intros Hb Hh w H. unfold tryCatch. specialize (Hb w H).
  destruct (body w) as [[a|ex] w1]; simpl in *; [assumption | apply Hh; assumption].
Qed.
End Combinators.

Lemma returns_logService lvl rule msg : returns (logService lvl rule msg).
Proof. apply returns_modify. Qed.

Lemma returns_forEach {A} (body : A -> M unit) (items : list A) :
  (forall x, returns (body x)) -> returns (forEach body items).
Proof.
  intros Hb. induction items as [|x rest IH]; simpl.
  - apply returns_ret.
  - apply returns_bind; [apply Hb | intros _; exact IH].
Qed.

Lemma preserves_modify P (f : world -> world) :
  (forall w, P w -> P (f w)) -> preserves P (modify f).
Proof. intros Hf w H. apply Hf. exact H. Qed.

Lemma preserves_forEach {A} P (body : A -> M unit) (items : list A) :
  (forall x, preserves P (body x)) -> preserves P (forEach body items).
Proof.
  intros Hb. induction items as [|x rest IH]; simpl.
  - apply preserves_ret.
  - apply preserves_bind; [apply Hb | intros _; exact IH].
Qed.

Lemma forEach_app {A} (body : A -> M unit) (xs ys : list A) (w : world) :
  forEach body (xs ++ ys) w =
    match forEach body xs w with
    | (Return _, w') => forEach body ys w'
    | (Throw ex, w') => (Throw ex, w')
    end.
Proof.
  revert w. induction xs as [|x xs IH]; intros w; simpl.
  - reflexivity.
  - unfold bind. destruct (body x w) as [[[]|ex] w1]; [apply IH | reflexivity].
Qed.

Lemma preserves_logService P lvl rule msg :
  quiet P -> preserves P (logService lvl rule msg).
Proof. intros [Hl _]. apply preserves_modify. intros w. apply Hl. Qed.

Ltac step_method :=
  match goal with
  | |- returns (bind _ _) => apply returns_bind; [|intros ?]
  | |- returns (tryCatch _ _) => apply returns_tryCatch; intros ?
  | |- returns (ret _) => apply returns_ret
  | |- returns (modify _) => apply returns_modify
  | |- returns (logService _ _ _) => apply returns_logService
  | |- returns (forEach _ _) => apply returns_forEach; intros ?
  | |- preserves _ (bind _ _) => apply preserves_bind; [|intros ?]
  | |- preserves _ (tryCatch _ _) => apply preserves_tryCatch; [|intros ?]
  | |- preserves _ (ret _) => apply preserves_ret
  | |- preserves _ (raise _) => apply preserves_raise
  | |- preserves _ (lift _) => apply preserves_lift
  | |- preserves _ (logService _ _ _) => apply preserves_logService; assumption
  | |- preserves _ (forEach _ _) => apply preserves_forEach; intros ?
  | |- preserves _ (if ?b then _ else _) => destruct b
  | |- preserves _ (match ?x with _ => _ end) => destruct x
  | |- returns (if ?b then _ else _) => destruct b
  | |- returns (match ?x with _ => _ end) => destruct x
  end.

(** *** The cache wrapper never throws *)

Lemma cache_exists_spec (e : env) (key : string) (w : world) :
  cache_exists e key w =
    (Return (redis_up e && bool_decide (is_Some (liveLookup e (crm key) (redis w)))), w).
Proof.
  unfold cache_exists, tryCatch, bind, client_exists, command.
  destruct (redis_up e); simpl; [|reflexivity].
  destruct (liveLookup e (crm key) (redis w)); reflexivity.
Qed.

Lemma cache_setWithTTL_spec (e : env) (key : string) (v : cached) (ttl : Z) (w : world) :
  cache_setWithTTL e key v ttl w =
    (Return tt,
     if redis_up e
     then with_redis (insert (crm key) {| payload := v; expires_at := now e + ttl |}) w
     else w).
Proof.
  unfold cache_setWithTTL, tryCatch, client_setex, command.
  destruct (redis_up e); reflexivity.
Qed.

Lemma returns_cache_setWithTTL e key v ttl : returns (cache_setWithTTL e key v ttl).
Proof. intros w. rewrite cache_setWithTTL_spec. eauto. Qed.

Lemma returns_cache_exists e key : returns (cache_exists e key).
Proof. intros w. rewrite cache_exists_spec. eauto. Qed.

Lemma preserves_cache_exists P e key : preserves P (cache_exists e key).
Proof. intros w H. rewrite cache_exists_spec. exact H. Qed.

Lemma preserves_mark P e userId leadId ruleId ts :
  robust e WEBHOOK_DEDUP_TTL P ->
  preserves P (markWebhookProcessedInRedis e userId leadId ruleId ts).
Proof.
  intros (_ & _ & Hins) w H. unfold markWebhookProcessedInRedis.
  rewrite cache_setWithTTL_spec. simpl.
  destruct (redis_up e); [apply Hins; exact H | exact H].
Qed.

Lemma preserves_increment P e ttl ruleId :
  robust e ttl P -> preserves P (storage_incrementRuleExecution e ruleId).
Proof.
  intros (_ & Hex & _). unfold storage_incrementRuleExecution.
  destruct (incrementRuleExecution e ruleId).
  - apply preserves_raise.
  - apply preserves_modify. intros w. apply Hex.
Qed.

(** ** The action dispatcher never throws *)

Lemma executeActions_returns (e : env) (actionsV eventData : value) :
  is_nullish eventData = false -> returns (executeActions e actionsV eventData).
Proof.
  intros Hev. unfold executeActions. step_method. step_method.
  - destruct (get_not_nullish eventData "userId" Hev) as (u & Hu).
    eapply returns_lift. exact Hu.
  - step_method.
Qed.

Lemma callAdapter_preserves P e target userId data searchBy :
  quiet P -> preserves P (callAdapter e target userId data searchBy).
Proof.
  intros HP. unfold callAdapter. step_method.
  - apply preserves_modify. intros w. apply HP.
  - repeat step_method.
Qed.

Lemma executeActions_preserves P (e : env) (actionsV eventData : value) :
  quiet P -> preserves P (executeActions e actionsV eventData).
Proof.
  intros HP. unfold executeActions, executeAction, executeAction_try.
  repeat first [apply callAdapter_preserves; assumption | step_method].
Qed.

(** Running the actions changes neither the Redis keys nor the counters. *)
Lemma executeActions_frame (e : env) (actionsV eventData : value) (w : world) :
  redis (snd (executeActions e actionsV eventData w)) = redis w /\
  executions (snd (executeActions e actionsV eventData w)) = executions w.
Proof.
  apply (executeActions_preserves
           (fun w' => redis w' = redis w /\ executions w' = executions w)).
  - split; intros w' x H; exact H.
  - split; reflexivity.
Qed.

(** ** One rule, step by step *)

Lemma isWebhookAlreadyProcessed_spec e userId leadId ruleId ts w :
  isWebhookAlreadyProcessed e userId leadId ruleId ts w =
    (Return (keyLive e (generateWebhookKey userId leadId ruleId ts) w), w).
Proof. unfold isWebhookAlreadyProcessed. apply cache_exists_spec. Qed.

Lemma markWebhookProcessedInRedis_spec e userId leadId ruleId ts w :
  markWebhookProcessedInRedis e userId leadId ruleId ts w =
    (Return tt,
     if redis_up e
     then with_redis (insert (crm (generateWebhookKey userId leadId ruleId ts)) (marker e)) w
     else w).
Proof. unfold markWebhookProcessedInRedis. apply cache_setWithTTL_spec. Qed.

Section LpTrackerRule.
Variables (e : env) (userId : string) (webhookData : value) (rule : SyncRule).
Variables (id ts : value).
Hypothesis Hmatch : checkConditions (conditions rule) webhookData = true.
Hypothesis Hid : get webhookData "id" = Return id.
Hypothesis Hts : get webhookData "action_timestamp" = Return ts.

Let key := generateWebhookKey userId (toString id) (rule_id rule) ts.

(** Key already marked: the rule is skipped, and only the journal says so. *)
Lemma lpRule_already (w : world) :
  keyLive e key w = true ->
  lpRule e userId webhookData rule w =
    (Return tt, add_log (entryOf Info rule MsgRuleAlreadyProcessed) w).
Proof.
  intros Hlive. unfold lpRule, lpRule_try, tryCatch, bind, lift.
  rewrite Hmatch, Hid, Hts, isWebhookAlreadyProcessed_spec.
  fold key. rewrite Hlive. reflexivity.
Qed.

(** Not relevant: the rule is skipped, and only the journal says so. *)
Lemma lpRule_not_relevant (w : world) :
  keyLive e key w = false ->
  isWebhookRelevant webhookData rule = Return false ->
  lpRule e userId webhookData rule w =
    (Return tt, add_log (entryOf Info rule MsgRuleNotRelevant) w).
Proof.
  intros Hlive Hrel. unfold lpRule, lpRule_try, tryCatch, bind, lift.
  rewrite Hmatch, Hid, Hts, isWebhookAlreadyProcessed_spec.
  fold key. rewrite Hlive, Hrel. reflexivity.
Qed.

(** Otherwise the actions run, then the key is marked, then the counter
    is updated; the last step is the only one that can throw. *)
Lemma lpRule_executes (w : world) :
  keyLive e key w = false ->
  isWebhookRelevant webhookData rule = Return true ->
  let w1 := snd (executeActions e (actions rule) (lpEventData userId webhookData)
                   (add_log (entryOf Info rule MsgRuleApplicable) w)) in
  let w2 := if redis_up e then with_redis (insert (crm key) (marker e)) w1 else w1 in
  lpRule e userId webhookData rule w =
    match incrementRuleExecution e (rule_id rule) with
    | None => (Return tt, with_executions (bump (rule_id rule)) w2)
    | Some _ => (Return tt, add_log (entryOf Failure rule MsgRuleError) w2)
    end.
Proof.
  intros Hlive Hrel w1 w2. unfold lpRule, lpRule_try, tryCatch, bind, lift.
  rewrite Hmatch, Hid, Hts, isWebhookAlreadyProcessed_spec.
  fold key. rewrite Hlive, Hrel. simpl.
  destruct (executeActions_returns e (actions rule) (lpEventData userId webhookData)
              eq_refl (add_log (entryOf Info rule MsgRuleApplicable) w))
    as ([] & w1' & E).
  unfold logService, modify at 1. fold (lpEventData userId webhookData).
  subst w2 w1. unfold entryOf in *. rewrite E. simpl.
  rewrite markWebhookProcessedInRedis_spec. fold key.
  unfold storage_incrementRuleExecution.
  destruct (incrementRuleExecution e (rule_id rule)); reflexivity.
Qed.
End LpTrackerRule.

Section AmoCrmRule.
Variables (e : env) (userId : string) (leadId leadDetails : value).
Variables (contactsDetails : list value) (originalPayload : value) (rule : SyncRule).
Hypothesis Hlead : is_nullish leadDetails = false.

Let eventData := amoEventData userId leadId leadDetails contactsDetails originalPayload.
Let key := generateWebhookKey userId (toString leadId) (rule_id rule) VUndefined.
Let step := amoRule e userId leadId leadDetails contactsDetails originalPayload rule.
Let checked (w : world) : world :=
  add_log (entryOf Info rule MsgRuleMatches) (add_log (entryOf Info rule MsgCheckingRule) w).

Hypothesis Hmatch : checkConditions (conditions rule) eventData = true.

Lemma amoRule_already (w : world) :
  keyLive e key w = true ->
  step w = (Return tt, add_log (entryOf Info rule MsgRuleAlreadyProcessed) (checked w)).
Proof.
  intros Hlive. subst step. unfold amoRule, amoRule_try, tryCatch, bind, lift.
  destruct (get_not_nullish leadDetails "pipeline_id" Hlead) as (p & ->).
  destruct (get_not_nullish leadDetails "status_id" Hlead) as (s & ->).
  fold eventData. rewrite Hmatch. simpl.
  rewrite isWebhookAlreadyProcessed_spec. fold key.
  replace (keyLive e key _) with true by (symmetry; exact Hlive).
  reflexivity.
Qed.

Lemma amoRule_executes (w : world) :
  keyLive e key w = false ->
  let w1 := snd (executeActions e (actions rule) eventData (checked w)) in
  let w2 := if redis_up e then with_redis (insert (crm key) (marker e)) w1 else w1 in
  step w =
    match incrementRuleExecution e (rule_id rule) with
    | None => (Return tt, with_executions (bump (rule_id rule)) w2)
    | Some _ => (Return tt, add_log (entryOf Failure rule MsgRuleError) w2)
    end.
Proof.
  intros Hlive w1 w2. subst step. unfold amoRule, amoRule_try, tryCatch, bind, lift.
  destruct (get_not_nullish leadDetails "pipeline_id" Hlead) as (p & ->).
  destruct (get_not_nullish leadDetails "status_id" Hlead) as (s & ->).
  fold eventData. rewrite Hmatch. simpl.
  rewrite isWebhookAlreadyProcessed_spec. fold key.
  replace (keyLive e key _) with false by (symmetry; exact Hlive).
  destruct (executeActions_returns e (actions rule) eventData eq_refl (checked w))
    as ([] & w1' & E).
  subst w2 w1. unfold checked, entryOf in *. rewrite E. simpl.
  rewrite markWebhookProcessedInRedis_spec. fold key.
  unfold storage_incrementRuleExecution.
  destruct (incrementRuleExecution e (rule_id rule)); reflexivity.
Qed.
End AmoCrmRule.

(** *** Neither loop throws, and what a loop can do to the world *)

Lemma lpRule_returns e userId webhookData rule :
  is_nullish webhookData = false -> returns (lpRule e userId webhookData rule).
Proof.
  intros Hwd. unfold lpRule. step_method. step_method; [|step_method].
  destruct (get_not_nullish webhookData "id" Hwd) as (x & Hx).
  eapply returns_lift. exact Hx.
Qed.

Lemma lpRules_returns e userId webhookData rules :
  is_nullish webhookData = false -> returns (lpRules e userId webhookData rules).
Proof.
  intros Hwd. apply returns_forEach. intros rule. apply lpRule_returns. exact Hwd.
Qed.

Lemma amoRule_returns e userId leadId leadDetails contactsDetails payload rule :
  returns (amoRule e userId leadId leadDetails contactsDetails payload rule).
Proof. unfold amoRule. repeat step_method. Qed.

Lemma amoRules_returns e userId leadId leadDetails contactsDetails payload rules :
  returns (amoRules e userId leadId leadDetails contactsDetails payload rules).
Proof. apply returns_forEach. intros rule. apply amoRule_returns. Qed.

Lemma lpRule_preserves P e userId webhookData rule :
  robust e WEBHOOK_DEDUP_TTL P -> preserves P (lpRule e userId webhookData rule).
Proof.
  intros HP. pose proof HP as (HQ & _).
  unfold lpRule, lpRule_try, isWebhookAlreadyProcessed.
  repeat first [ apply preserves_cache_exists
               | apply executeActions_preserves; assumption
               | apply preserves_mark; assumption
               | eapply preserves_increment; eassumption
               | step_method ].
Qed.

Lemma lpRules_preserves P e userId webhookData rules :
  robust e WEBHOOK_DEDUP_TTL P -> preserves P (lpRules e userId webhookData rules).
Proof. intros HP. apply preserves_forEach. intros rule. apply lpRule_preserves, HP. Qed.

Lemma amoRule_preserves P e userId leadId leadDetails contactsDetails payload rule :
  robust e WEBHOOK_DEDUP_TTL P ->
  preserves P (amoRule e userId leadId leadDetails contactsDetails payload rule).
Proof.
  intros HP. pose proof HP as (HQ & _).
  unfold amoRule, amoRule_try, isWebhookAlreadyProcessed.
  repeat first [ apply preserves_cache_exists
               | apply executeActions_preserves; assumption
               | apply preserves_mark; assumption
               | eapply preserves_increment; eassumption
               | step_method ].
Qed.

Lemma amoRules_preserves P e userId leadId leadDetails contactsDetails payload rules :
  robust e WEBHOOK_DEDUP_TTL P ->
  preserves P (amoRules e userId leadId leadDetails contactsDetails payload rules).
Proof. intros HP. apply preserves_forEach. intros rule. apply amoRule_preserves, HP. Qed.

(* ===================================================================== *)
(** ** Deduplication key and TTL *)
(* ===================================================================== *)

(** C8, as stated, fails on "exactly when": an action timestamp of [0] is
    available, and the key still ends in the fallback token, because
    [0 || 'default'] is ['default']. *)
Lemma zero_timestamp_falls_back :
  timestampAvailable (VNumber 0) = true
  /\ generateWebhookKey "u1" "55" 7 (VNumber 0) = "webhook:u1:55:7:default".
Proof. split; reflexivity. Qed.

Lemma liveLookup_insert_eq (e' : env) (k : string) (x : entry) (m : gmap string entry) :
  liveLookup e' k (<[k := x]> m) = if live e' x then Some (payload x) else None.
Proof. unfold liveLookup. rewrite lookup_insert_eq. reflexivity. Qed.

(** C8 (amended): the key written and checked for a rule execution is
    ["webhook:{userId}:{externalId}:{ruleId}:{timestamp}"], whose last
    component is the token "default" when the action timestamp is absent or
    falsy ([undefined], [null], [0], the empty string) and [String(timestamp)]
    otherwise; the marker is stored with a TTL of 600 seconds: the check
    made on the same key finds it during the 600 seconds after the write and
    no longer finds it, by that write, afterwards. *)
Theorem dedup_key_and_ttl (e e' : env) (userId leadId : string) (ruleId : Z)
    (ts : value) (w : world) :
  redis_up e = true -> redis_up e' = true ->
  let key := generateWebhookKey userId leadId ruleId ts in
  let w' := snd (markWebhookProcessedInRedis e userId leadId ruleId ts w) in
  key = "webhook:" +:+ userId +:+ ":" +:+ leadId +:+ ":" +:+ pretty ruleId +:+ ":"
        +:+ (if truthy ts then toString ts else "default")
  /\ WEBHOOK_DEDUP_TTL = 600
  /\ redis w' !! crm key = Some (marker e)
  /\ expires_at (marker e) = now e + 600
  /\ fst (isWebhookAlreadyProcessed e' userId leadId ruleId ts w')
     = Return (now e' <? now e + 600).
Proof.
  intros Hup Hup' key w'. subst w'.
  rewrite markWebhookProcessedInRedis_spec, Hup. fold key. simpl.
  split; [|split; [|split; [|split]]].
  - subst key. unfold generateWebhookKey, jor. destruct (truthy ts); reflexivity.
  - reflexivity.
  - apply lookup_insert_eq.
  - reflexivity.
  - rewrite isWebhookAlreadyProcessed_spec. fold key. simpl.
    unfold keyLive. rewrite Hup'. simpl.
    rewrite liveLookup_insert_eq. unfold live. simpl.
    change (now e + WEBHOOK_DEDUP_TTL) with (now e + 600).
    destruct (now e' <? now e + 600); reflexivity.
Qed.

Lemma dedup_key_and_ttl_witness :
  fst (isWebhookAlreadyProcessed (exampleEnv 1599 [] false) "u1" "55" 7 (VNumber 1700000000)
         (snd (markWebhookProcessedInRedis (exampleEnv 1000 [] false)
                 "u1" "55" 7 (VNumber 1700000000) emptyWorld)))
  = Return true.
Proof.
  exact (proj2 (proj2 (proj2 (proj2
    (dedup_key_and_ttl (exampleEnv 1000 [] false) (exampleEnv 1599 [] false)
       "u1" "55" 7 (VNumber 1700000000) emptyWorld eq_refl eq_refl))))).
Defined.

(* ===================================================================== *)
(** ** Marking and counting do not depend on the adapters *)
(* ===================================================================== *)

Lemma executionCount_bump (w : world) (ruleId : Z) :
  executionCount (with_executions (bump ruleId) w) ruleId = S (executionCount w ruleId).
Proof. unfold executionCount, bump. simpl. rewrite lookup_insert_eq. reflexivity. Qed.

(** C9: [executeActions] never throws, whatever the adapters do; and a
    rule whose conditions match, whose key is not yet marked and (on the
    LPTracker path) that passes the relevance filter gets its dedup key
    marked and its execution counter incremented by one, whether or not any
    adapter call succeeded.  The environment [e] is arbitrary but for the
    two collaborators the marking and counting themselves go through: Redis
    answers and the counter update does not fail. *)
Theorem marking_independent_of_dispatch (e : env) (userId : string) (rule : SyncRule) :
  redis_up e = true ->
  incrementRuleExecution e (rule_id rule) = None ->
  (* the dispatcher never throws *)
  (forall eventData, is_nullish eventData = false ->
     returns (executeActions e (actions rule) eventData))
  (* LPTracker *)
  /\ (forall webhookData id ts w,
        checkConditions (conditions rule) webhookData = true ->
        get webhookData "id" = Return id ->
        get webhookData "action_timestamp" = Return ts ->
        fst (isWebhookAlreadyProcessed e userId (toString id) (rule_id rule) ts w)
          = Return false ->
        isWebhookRelevant webhookData rule = Return true ->
        exists w',
          lpRule e userId webhookData rule w = (Return tt, w')
          /\ redis w' !! crm (generateWebhookKey userId (toString id) (rule_id rule) ts)
             = Some (marker e)
          /\ executionCount w' (rule_id rule) = S (executionCount w (rule_id rule)))
  (* AmoCRM *)
  /\ (forall leadId leadDetails contactsDetails payload w,
        is_nullish leadDetails = false ->
        checkConditions (conditions rule)
          (amoEventData userId leadId leadDetails contactsDetails payload) = true ->
        fst (isWebhookAlreadyProcessed e userId (toString leadId) (rule_id rule)
               VUndefined w) = Return false ->
        exists w',
          amoRule e userId leadId leadDetails contactsDetails payload rule w
            = (Return tt, w')
          /\ redis w' !! crm (generateWebhookKey userId (toString leadId)
                                (rule_id rule) VUndefined)
             = Some (marker e)
          /\ executionCount w' (rule_id rule) = S (executionCount w (rule_id rule))).
Proof.
  intros Hup Hinc. split; [|split].
  - intros eventData Hev. apply executeActions_returns. exact Hev.
  - intros webhookData id ts w Hmatch Hid Hts Hfresh Hrel.
    rewrite isWebhookAlreadyProcessed_spec in Hfresh. simpl in Hfresh.
    injection Hfresh as Hfresh.
    pose proof (lpRule_executes e userId webhookData rule id ts Hmatch Hid Hts w
                  Hfresh Hrel) as Hrun.
    cbv zeta in Hrun. rewrite Hinc, Hup in Hrun.
    eexists. split; [exact Hrun|]. split.
    + simpl. apply lookup_insert_eq.
    + rewrite executionCount_bump. unfold executionCount. simpl.
      destruct (executeActions_frame e (actions rule) (lpEventData userId webhookData)
                  (add_log (entryOf Info rule MsgRuleApplicable) w)) as [_ ->].
      reflexivity.
  - intros leadId leadDetails contactsDetails payload w Hlead Hmatch Hfresh.
    rewrite isWebhookAlreadyProcessed_spec in Hfresh. simpl in Hfresh.
    injection Hfresh as Hfresh.
    pose proof (amoRule_executes e userId leadId leadDetails contactsDetails payload rule
                  Hlead Hmatch w Hfresh) as Hrun.
    cbv zeta in Hrun. rewrite Hinc, Hup in Hrun.
    eexists. split; [exact Hrun|]. split.
    + simpl. apply lookup_insert_eq.
    + rewrite executionCount_bump. unfold executionCount. simpl.
      match goal with
      | |- context [executeActions ?a ?b ?c ?d] =>
          destruct (executeActions_frame a b c d) as [_ ->]
      end.
      reflexivity.
Qed.

(** Every adapter call fails, and the rule is marked and counted all the
    same. *)
Lemma marking_independent_of_dispatch_witness :
  exists w',
    lpRule (exampleEnv 1000 [] true) "u1" stage_event (stage_rule 7 "lptracker" true)
           emptyWorld = (Return tt, w')
    /\ redis w' !! crm (generateWebhookKey "u1" "55" 7 (VNumber 1700000000))
       = Some (marker (exampleEnv 1000 [] true))
    /\ executionCount w' 7 = 1%nat.
Proof.
  exact (proj1 (proj2
    (marking_independent_of_dispatch (exampleEnv 1000 [] true) "u1"
       (stage_rule 7 "lptracker" true) eq_refl eq_refl))
    stage_event (VNumber 55) (VNumber 1700000000) emptyWorld
    eq_refl eq_refl eq_refl eq_refl eq_refl).
Defined.

(* ===================================================================== *)
(** ** Idempotent suppression *)
(* ===================================================================== *)

Lemma markedUntil_robust (e : env) (key : string) (T : Z) :
  T <= now e + WEBHOOK_DEDUP_TTL ->
  robust e WEBHOOK_DEDUP_TTL (markedUntil key T).
Proof.
  intros HT. repeat split.
  - intros w en H. exact H.
  - intros w d H. exact H.
  - intros w f H. exact H.
  - intros w k v (x & Hx & Hle). unfold markedUntil. simpl.
    destruct (decide (k = crm key)) as [->|Hne].
    + rewrite lookup_insert_eq. eexists. split; [reflexivity|]. simpl. exact HT.
    + rewrite lookup_insert_ne by exact Hne. exists x. split; assumption.
Qed.

Lemma markedUntil_live (e : env) (key : string) (T : Z) (w : world) :
  redis_up e = true -> now e < T -> markedUntil key T w -> keyLive e key w = true.
Proof.
  intros Hup Hlt (x & Hx & Hle). unfold keyLive, liveLookup, live.
  rewrite Hup, Hx. simpl.
  replace (now e <? expires_at x) with true by (symmetry; apply Z.ltb_lt; lia).
  reflexivity.
Qed.

Lemma crm_inj (a b : string) : crm a = crm b -> a = b.
Proof. unfold crm. intros H. cbv [append] in H. injection H as H. exact H. Qed.

Lemma rules_key_is_no_dedup_key (userId key : string) :
  startsWith "webhook:" key = true -> crm ("sync_rules:" +:+ userId) <> crm key.
Proof.
  intros Hkey Heq. apply crm_inj in Heq. subst key.
  vm_compute in Hkey. discriminate.
Qed.

(** Reading the rules through the cache writes at most the rules key, which
    is not a dedup key. *)
Lemma getCachedSyncRules_keeps_marks (e : env) (userId key : string) (T : Z) :
  startsWith "webhook:" key = true ->
  preserves (markedUntil key T) (getCachedSyncRules e userId).
Proof.
  intros Hkey.
  assert (Hset : forall rules, preserves (markedUntil key T)
            (cache_set e ("sync_rules:" +:+ userId) (CachedRules rules) RULES_CACHE_TTL)).
  { intros rules w (x & Hx & Hle). unfold cache_set, tryCatch, client_setex, command.
    destruct (redis_up e); unfold markedUntil; simpl; [|exists x; split; assumption].
    exists x. split; [|assumption].
    rewrite lookup_insert_ne; [assumption|].
    apply rules_key_is_no_dedup_key. exact Hkey. }
  assert (Hq : quiet (markedUntil key T)) by (split; intros w x H; exact H).
  unfold getCachedSyncRules.
  apply preserves_bind.
  - intros w H. unfold cache_get, tryCatch, client_get, command.
    destruct (redis_up e); exact H.
  - intros hit. repeat first [apply Hset | step_method].
Qed.

Lemma generateWebhookKey_prefix userId leadId ruleId ts :
  startsWith "webhook:" (generateWebhookKey userId leadId ruleId ts) = true.
Proof. reflexivity. Qed.

(** C1, as stated, fails: an LPTracker rule whose conditions match on both
    deliveries but which the relevance filter skips is never marked, so the
    second processing, 10 seconds after the first, does not find the key. *)
Lemma matching_rule_left_unmarked :
  let rule := stage_rule 7 "lptracker" true in
  let w1 := snd (lpRules (exampleEnv 1000 [rule] false) "u1" rename_event [rule] emptyWorld) in
  checkConditions (conditions rule) rename_event = true
  /\ fst (isWebhookAlreadyProcessed (exampleEnv 1010 [rule] false) "u1" "55" 7
            (VNumber 1700000000) w1) = Return false.
Proof. split; vm_compute; reflexivity. Qed.

Lemma snd_forEach_app {A} (body : A -> M unit) (xs ys : list A) (w : world) :
  returns (forEach body xs) ->
  snd (forEach body (xs ++ ys) w) = snd (forEach body ys (snd (forEach body xs w))).
Proof.
  intros Hr. rewrite forEach_app. destruct (Hr w) as ([] & w' & ->). reflexivity.
Qed.

Lemma snd_forEach_cons {A} (body : A -> M unit) (x : A) (ys : list A) (w w' : world) :
  body x w = (Return tt, w') ->
  snd (forEach body (x :: ys) w) = snd (forEach body ys w').
Proof. intros H. simpl. unfold bind. rewrite H. reflexivity. Qed.

Lemma marker_marks (e : env) (key : string) (w : world) :
  markedUntil key (now e + 600) (with_redis (insert (crm key) (marker e)) w).
Proof.
  exists (marker e). split; [apply lookup_insert_eq|]. simpl.
  change WEBHOOK_DEDUP_TTL with 600. lia.
Qed.

(** C1 (amended): take a rule whose conditions match on both deliveries and
    which the first delivery executed, that is, found unmarked and (on the
    LPTracker path) relevant.  With Redis answering, the first delivery
    leaves the dedup key marked until 600 seconds later, and reading the
    rules through the cache does not touch it; and in a second delivery
    within those 600 seconds, as long as nothing removed the key in between,
    the check finds the key marked when the rule is reached, whatever rules
    come before it, and the rule is skipped: no adapter call, no counter
    update, only a journal entry.  (A rule that matches but is not relevant
    is dispatched by neither delivery and is never marked.) *)
Theorem idempotent_suppression (e0 e1 : env) (userId : string) (rule rule' : SyncRule) :
  redis_up e0 = true -> redis_up e1 = true ->
  now e0 <= now e1 < now e0 + 600 ->
  rule_id rule' = rule_id rule ->
  (* LPTracker *)
  (forall webhookData id ts pre post w0,
     checkConditions (conditions rule) webhookData = true ->
     checkConditions (conditions rule') webhookData = true ->
     get webhookData "id" = Return id ->
     get webhookData "action_timestamp" = Return ts ->
     let key := generateWebhookKey userId (toString id) (rule_id rule) ts in
     keyLive e0 key (snd (lpRules e0 userId webhookData pre w0)) = false ->
     isWebhookRelevant webhookData rule = Return true ->
     let w1 := snd (lpRules e0 userId webhookData (pre ++ rule :: post) w0) in
     markedUntil key (now e0 + 600) w1
     /\ markedUntil key (now e0 + 600) (snd (getCachedSyncRules e1 userId w1))
     /\ forall w2 pre',
          markedUntil key (now e0 + 600) w2 ->
          let wr := snd (lpRules e1 userId webhookData pre' w2) in
          fst (isWebhookAlreadyProcessed e1 userId (toString id) (rule_id rule') ts wr)
            = Return true
          /\ lpRule e1 userId webhookData rule' wr
             = (Return tt, add_log (entryOf Info rule' MsgRuleAlreadyProcessed) wr))
  (* AmoCRM *)
  /\ (forall leadId leadDetails leadDetails' contacts contacts' payload pre post w0,
        is_nullish leadDetails = false -> is_nullish leadDetails' = false ->
        checkConditions (conditions rule)
          (amoEventData userId leadId leadDetails contacts payload) = true ->
        checkConditions (conditions rule')
          (amoEventData userId leadId leadDetails' contacts' payload) = true ->
        let key := generateWebhookKey userId (toString leadId) (rule_id rule) VUndefined in
        keyLive e0 key
          (snd (amoRules e0 userId leadId leadDetails contacts payload pre w0)) = false ->
        let w1 := snd (amoRules e0 userId leadId leadDetails contacts payload
                         (pre ++ rule :: post) w0) in
        markedUntil key (now e0 + 600) w1
        /\ forall w2 pre',
             markedUntil key (now e0 + 600) w2 ->
             let wr := snd (amoRules e1 userId leadId leadDetails' contacts' payload pre' w2) in
             fst (isWebhookAlreadyProcessed e1 userId (toString leadId) (rule_id rule')
                    VUndefined wr) = Return true
             /\ exists wr',
                 amoRule e1 userId leadId leadDetails' contacts' payload rule' wr
                   = (Return tt, wr')
                 /\ redis wr' = redis wr
                 /\ executions wr' = executions wr
                 /\ dispatched wr' = dispatched wr).
Proof.
  intros Hup0 Hup1 Hnow Hsame.
  assert (Hrob0 : forall key, robust e0 WEBHOOK_DEDUP_TTL (markedUntil key (now e0 + 600))).
  { intros key. apply markedUntil_robust. change WEBHOOK_DEDUP_TTL with 600. lia. }
  assert (Hrob1 : forall key, robust e1 WEBHOOK_DEDUP_TTL (markedUntil key (now e0 + 600))).
  { intros key. apply markedUntil_robust. change WEBHOOK_DEDUP_TTL with 600. lia. }
  split.
  - intros webhookData id ts pre post w0 Hm Hm' Hid Hts key Hfresh Hrel w1.
    assert (Hwd : is_nullish webhookData = false).
    { destruct webhookData; simpl in Hid; try discriminate; reflexivity. }
    assert (Hw1 : markedUntil key (now e0 + 600) w1).
    { subst w1. unfold lpRules.
      rewrite snd_forEach_app by (apply lpRules_returns; exact Hwd).
      pose proof (lpRule_executes e0 userId webhookData rule id ts Hm Hid Hts _
                    Hfresh Hrel) as Hrun.
      cbv zeta in Hrun. rewrite Hup0 in Hrun.
      destruct (incrementRuleExecution e0 (rule_id rule));
        rewrite (snd_forEach_cons _ _ _ _ _ Hrun);
        apply (lpRules_preserves _ e0 userId webhookData post (Hrob0 key));
        apply marker_marks. }
    split; [exact Hw1|]. split.
    + apply getCachedSyncRules_keeps_marks; [|exact Hw1].
      apply generateWebhookKey_prefix.
    + intros w2 pre' Hmarked wr.
      assert (Hlive : keyLive e1 key wr = true).
      { apply (markedUntil_live e1 key (now e0 + 600)); [exact Hup1 | lia |].
        apply (lpRules_preserves _ e1 userId webhookData pre' (Hrob1 key)).
        exact Hmarked. }
      subst key. rewrite <- Hsame in Hlive. split.
      * rewrite isWebhookAlreadyProcessed_spec. simpl. rewrite Hlive. reflexivity.
      * apply (lpRule_already e1 userId webhookData rule' id ts Hm' Hid Hts).
        exact Hlive.
  - intros leadId leadDetails leadDetails' contacts contacts' payload pre post w0
           Hld Hld' Hm Hm' key Hfresh w1.
    split.
    + subst w1. unfold amoRules.
      rewrite snd_forEach_app by (apply amoRules_returns).
      pose proof (amoRule_executes e0 userId leadId leadDetails contacts payload rule
                    Hld Hm _ Hfresh) as Hrun.
      cbv zeta in Hrun. rewrite Hup0 in Hrun.
      destruct (incrementRuleExecution e0 (rule_id rule));
        rewrite (snd_forEach_cons _ _ _ _ _ Hrun);
        apply (amoRules_preserves _ e0 userId leadId leadDetails contacts payload post
                 (Hrob0 key));
        apply marker_marks.
    + intros w2 pre' Hmarked wr.
      assert (Hlive : keyLive e1 key wr = true).
      { apply (markedUntil_live e1 key (now e0 + 600)); [exact Hup1 | lia |].
        apply (amoRules_preserves _ e1 userId leadId leadDetails' contacts' payload pre'
                 (Hrob1 key)).
        exact Hmarked. }
      subst key. rewrite <- Hsame in Hlive. split.
      * rewrite isWebhookAlreadyProcessed_spec. simpl. rewrite Hlive. reflexivity.
      * eexists. split.
        -- apply (amoRule_already e1 userId leadId leadDetails' contacts' payload rule'
                    Hld' Hm'). exact Hlive.
        -- repeat split; reflexivity.
Qed.

Lemma idempotent_suppression_witness :
  let e0 := exampleEnv 1000 [] false in
  let e1 := exampleEnv 1010 [] false in
  let rule := stage_rule 7 "lptracker" true in
  let w1 := snd (lpRules e0 "u1" stage_event [rule] emptyWorld) in
  fst (isWebhookAlreadyProcessed e1 "u1" "55" 7 (VNumber 1700000000) w1) = Return true
  /\ lpRule e1 "u1" stage_event rule w1
     = (Return tt, add_log (entryOf Info rule MsgRuleAlreadyProcessed) w1).
Proof.
  intros e0 e1 rule w1.
  assert (Hnow : now e0 <= now e1 < now e0 + 600) by (simpl; lia).
  destruct (proj1 (idempotent_suppression e0 e1 "u1" rule rule
                     eq_refl eq_refl Hnow eq_refl)
              stage_event (VNumber 55) (VNumber 1700000000) [] [] emptyWorld
              eq_refl eq_refl eq_refl eq_refl eq_refl eq_refl) as (Hmarked & _ & Hskip).
  exact (Hskip w1 [] Hmarked).
Defined.

(* ===================================================================== *)
(** ** Rule isolation *)
(* ===================================================================== *)

(** *** What a dispatch does *)

Lemma actionErrors_add_log (en : logEntry) (w : world) :
  actionErrors (journal (add_log en w))
  = (actionErrors (journal w) + (if isActionError en then 1 else 0))%nat.
Proof.
  unfold actionErrors. cbn [journal add_log].
  rewrite List.filter_app, List.length_app. cbn [List.filter].
  destruct (isActionError en); reflexivity.
Qed.

Lemma copyIfSet_returns (action : value) (k : string) (fs : list (string * value)) :
  is_nullish action = false -> exists fs', copyIfSet action k fs = Return fs'.
Proof.
  intros Ha. unfold copyIfSet.
  destruct (get_not_nullish action k Ha) as (v & ->). cbn [obind].
  destruct (truthy v && negb (strictEq v (VString EmptyString))); eauto.
Qed.

(** One action: the call its type stands for is made, and when the
    adapter throws, the [catch] writes an error entry and returns. *)
Lemma executeAction_calls (e : env) (eventData action : value)
    (base : list (string * value)) (w : world) :
  is_nullish action = false ->
  syncRecord eventData = Return base ->
  exists w' calls,
    executeAction e eventData action w = (Return tt, w')
    /\ dispatched w' = (dispatched w ++ calls)%list
    /\ map callOf calls = actionCall eventData action
    /\ actionErrors (journal w')
       = (actionErrors (journal w) + failedCalls e calls)%nat.
Proof.
  intros Ha Hbase.
  assert (Hev : is_nullish eventData = false).
  { destruct eventData; try reflexivity; discriminate. }
  destruct (get_not_nullish action "type" Ha) as (ty & Hty).
  destruct (get_not_nullish eventData "userId" Hev) as (uid & Huid).
  destruct (get_not_nullish action "fieldMappings" Ha) as (mp & Hmp).
  destruct (get_not_nullish action "searchBy" Ha) as (sb & Hsb).
  destruct (copyIfSet_returns action "amocrmPipelineId"
              (setField "originalEventData" eventData
                 (setField "fieldMappings" (jor mp (VObject [])) base)) Ha)
    as (fs3 & H3).
  destruct (copyIfSet_returns action "amocrmStatusId" fs3 Ha) as (fs4 & H4).
  destruct (copyIfSet_returns action "lptrackerStageId" fs4 Ha) as (fs5 & H5).
  destruct (copyIfSet_returns action "lptrackerProjectId" fs5 Ha) as (fs6 & H6).
  unfold actionCall. rewrite Hty, Huid, Hsb.
  unfold executeAction, executeAction_try, tryCatch, bind, lift.
  rewrite Hty, Huid. cbn [logService modify]. rewrite Hbase, Hmp.
  rewrite H3, H4, H5, H6, Hsb.
  destruct (is_str ty "sync_to_amocrm").
  - unfold callAdapter, bind, modify, raise, ret.
    destruct (syncToAmoCrm e uid (VObject fs6) (jor sb (VString "phone"))) eqn:Hcall.
    + eexists. exists [{| d_target := AmoCrm; d_userId := uid; d_data := VObject fs6;
                          d_searchBy := jor sb (VString "phone") |}].
      split; [reflexivity|]. split; [reflexivity|]. split; [reflexivity|].
      rewrite actionErrors_add_log. cbn [journal add_dispatch].
      rewrite !actionErrors_add_log.
      unfold failedCalls, callFailed, adapterOutcome. cbn. rewrite Hcall. cbn. lia.
    + eexists. exists [{| d_target := AmoCrm; d_userId := uid; d_data := VObject fs6;
                          d_searchBy := jor sb (VString "phone") |}].
      split; [reflexivity|]. split; [reflexivity|]. split; [reflexivity|].
      cbn [journal add_dispatch]. rewrite !actionErrors_add_log.
      unfold failedCalls, callFailed, adapterOutcome. cbn. rewrite Hcall. cbn. lia.
  - destruct (is_str ty "sync_to_lptracker").
    + unfold callAdapter, bind, modify, raise, ret.
      destruct (syncToLpTracker e uid (VObject fs6) (jor sb (VString "phone")))
        eqn:Hcall.
      * eexists. exists [{| d_target := LpTracker; d_userId := uid;
                            d_data := VObject fs6;
                            d_searchBy := jor sb (VString "phone") |}].
        split; [reflexivity|]. split; [reflexivity|]. split; [reflexivity|].
        rewrite actionErrors_add_log. cbn [journal add_dispatch].
        rewrite !actionErrors_add_log.
        unfold failedCalls, callFailed, adapterOutcome. cbn. rewrite Hcall. cbn. lia.
      * eexists. exists [{| d_target := LpTracker; d_userId := uid;
                            d_data := VObject fs6;
                            d_searchBy := jor sb (VString "phone") |}].
        split; [reflexivity|]. split; [reflexivity|]. split; [reflexivity|].
        cbn [journal add_dispatch]. rewrite !actionErrors_add_log.
        unfold failedCalls, callFailed, adapterOutcome. cbn. rewrite Hcall. cbn. lia.
    + eexists. exists []. split; [reflexivity|].
      split; [cbn [dispatched add_log]; rewrite app_nil_r; reflexivity|].
      split; [reflexivity|].
      rewrite !actionErrors_add_log. cbn. lia.
Qed.

Lemma failedCalls_app (e : env) (xs ys : list dispatch) :
  failedCalls e (xs ++ ys) = (failedCalls e xs + failedCalls e ys)%nat.
Proof. unfold failedCalls. rewrite List.filter_app, List.length_app. reflexivity. Qed.

Lemma forEach_executeAction_calls (e : env) (eventData : value)
    (base : list (string * value)) (items : list value) (w : world) :
  Forall (fun action => is_nullish action = false) items ->
  syncRecord eventData = Return base ->
  exists w' calls,
    forEach (executeAction e eventData) items w = (Return tt, w')
    /\ dispatched w' = (dispatched w ++ calls)%list
    /\ map callOf calls = flat_map (actionCall eventData) items
    /\ actionErrors (journal w')
       = (actionErrors (journal w) + failedCalls e calls)%nat.
Proof.
  intros Hitems Hbase. revert w.
  induction Hitems as [|action items Ha _ IH]; intros w.
  - exists w, []. split; [reflexivity|]. split; [rewrite app_nil_r; reflexivity|].
    split; [reflexivity|]. unfold failedCalls. cbn. lia.
  - destruct (executeAction_calls e eventData action base w Ha Hbase)
      as (w1 & calls1 & E1 & D1 & C1 & J1).
    destruct (IH w1) as (w2 & calls2 & E2 & D2 & C2 & J2).
    exists w2, (calls1 ++ calls2)%list. split; [|split; [|split]].
    + cbn [forEach]. unfold bind. rewrite E1. exact E2.
    + rewrite D2, D1, app_assoc. reflexivity.
    + rewrite map_app, C1, C2. reflexivity.
    + rewrite J2, J1, failedCalls_app. lia.
Qed.

(** The dispatcher on an action list it can walk. *)
Lemma executeActions_callsMade (e : env) (actionsV eventData : value)
    (items : list value) (w : world) :
  wellFormedActions actionsV eventData items ->
  exists w',
    executeActions e actionsV eventData w = (Return tt, w')
    /\ callsMade e eventData items w w'.
Proof.
  intros (Hact & (actionList & Hlist & Htruthy & Hiter) & Hitems & base & Hbase).
  destruct (forEach_executeAction_calls e eventData base items w Hitems Hbase)
    as (w' & calls & E & D & C & J).
  exists w'. split; [|exists calls; repeat split; assumption].
  unfold executeActions, tryCatch. rewrite Hact. cbn [negb].
  unfold bind, lift. rewrite Hlist, Htruthy. cbn [negb]. rewrite Hiter, E.
  reflexivity.
Qed.

(** A rule that is executed dispatches its actions: the world it leaves
    holds the calls [executeActions] made, and nothing else is added to
    the calls or to the action errors by the marking and the counting. *)
Lemma lpRule_dispatches (e : env) (userId : string) (webhookData : value)
    (rule : SyncRule) (id ts : value) (w : world) :
  checkConditions (conditions rule) webhookData = true ->
  get webhookData "id" = Return id ->
  get webhookData "action_timestamp" = Return ts ->
  keyLive e (generateWebhookKey userId (toString id) (rule_id rule) ts) w = false ->
  isWebhookRelevant webhookData rule = Return true ->
  let ran := snd (executeActions e (actions rule) (lpEventData userId webhookData)
                    (add_log (entryOf Info rule MsgRuleApplicable) w)) in
  dispatched (snd (lpRule e userId webhookData rule w)) = dispatched ran
  /\ actionErrors (journal (snd (lpRule e userId webhookData rule w)))
     = actionErrors (journal ran).
Proof.
  intros Hm Hid Hts Hlive Hrel ran.
  rewrite (lpRule_executes e userId webhookData rule id ts Hm Hid Hts w Hlive Hrel).
  fold ran.
  destruct (incrementRuleExecution e (rule_id rule)), (redis_up e); cbn [snd];
    (split; [reflexivity|]); rewrite ?actionErrors_add_log;
    cbn [journal with_executions with_redis isActionError entryOf
         log_level log_message]; lia.
Qed.

Lemma amoRule_dispatches (e : env) (userId : string) (leadId leadDetails : value)
    (contactsDetails : list value) (originalPayload : value) (rule : SyncRule)
    (w : world) :
  is_nullish leadDetails = false ->
  checkConditions (conditions rule)
    (amoEventData userId leadId leadDetails contactsDetails originalPayload) = true ->
  keyLive e (generateWebhookKey userId (toString leadId) (rule_id rule) VUndefined) w
  = false ->
  let ran := snd (executeActions e (actions rule)
                    (amoEventData userId leadId leadDetails contactsDetails
                       originalPayload)
                    (add_log (entryOf Info rule MsgRuleMatches)
                       (add_log (entryOf Info rule MsgCheckingRule) w))) in
  dispatched (snd (amoRule e userId leadId leadDetails contactsDetails
                     originalPayload rule w)) = dispatched ran
  /\ actionErrors (journal (snd (amoRule e userId leadId leadDetails contactsDetails
                                   originalPayload rule w)))
     = actionErrors (journal ran).
Proof.
  intros Hlead Hm Hlive ran.
  rewrite (amoRule_executes e userId leadId leadDetails contactsDetails
             originalPayload rule Hlead Hm w Hlive).
  fold ran.
  destruct (incrementRuleExecution e (rule_id rule)), (redis_up e); cbn [snd];
    (split; [reflexivity|]); rewrite ?actionErrors_add_log;
    cbn [journal with_executions with_redis isActionError entryOf
         log_level log_message]; lia.
Qed.

Lemma callsMade_after_logs (e : env) (eventData : value) (items : list value)
    (w before ran after : world) :
  dispatched before = dispatched w ->
  actionErrors (journal before) = actionErrors (journal w) ->
  dispatched after = dispatched ran ->
  actionErrors (journal after) = actionErrors (journal ran) ->
  callsMade e eventData items before ran ->
  callsMade e eventData items w after.
Proof.
  intros Hd Hj Hd' Hj' (calls & D & C & J). exists calls.
  rewrite Hd', Hj', D, J, Hd, Hj. repeat split. exact C.
Qed.

(** The adapter calls made so far stay where they are. *)
Lemma dispatched_grows_robust (e : env) (w : world) :
  robust e WEBHOOK_DEDUP_TTL
    (fun w' => exists later, dispatched w' = (dispatched w ++ later)%list).
Proof.
  split; [split|split].
  - intros w' en H. exact H.
  - intros w' d (later & H). exists (later ++ [d])%list.
    cbn [dispatched add_dispatch]. rewrite H, app_assoc. reflexivity.
  - intros w' f H. exact H.
  - intros w' k v H. exact H.
Qed.

(** *** The two loops *)

Lemma lpRules_reach (e : env) (userId : string) (webhookData : value)
    (before : list SyncRule) (next : SyncRule) (post : list SyncRule) (w : world) :
  is_nullish webhookData = false ->
  let wj := snd (lpRules e userId webhookData before w) in
  let wn := snd (lpRule e userId webhookData next wj) in
  lpRules e userId webhookData (before ++ next :: post) w
  = lpRules e userId webhookData post wn
  /\ exists w', lpRules e userId webhookData post wn = (Return tt, w')
                /\ exists later, dispatched w' = (dispatched wn ++ later)%list.
Proof.
  intros Hwd wj wn. split.
  - unfold lpRules. rewrite forEach_app.
    destruct (lpRules_returns e userId webhookData before Hwd w) as ([] & wb & E).
    unfold lpRules in E. subst wn wj. unfold lpRules. rewrite E. cbn [snd forEach].
    unfold bind at 1.
    destruct (lpRule_returns e userId webhookData next Hwd wb) as ([] & wx & E').
    rewrite E'. reflexivity.
  - destruct (lpRules_returns e userId webhookData post Hwd wn) as ([] & w' & E).
    exists w'. split; [exact E|].
    pose proof (lpRules_preserves _ e userId webhookData post
                  (dispatched_grows_robust e wn) wn) as H.
    rewrite E in H. apply H. exists []. rewrite app_nil_r. reflexivity.
Qed.

Lemma amoRules_reach (e : env) (userId : string) (leadId leadDetails : value)
    (contacts : list value) (payload : value)
    (before : list SyncRule) (next : SyncRule) (post : list SyncRule) (w : world) :
  let wj := snd (amoRules e userId leadId leadDetails contacts payload before w) in
  let wn := snd (amoRule e userId leadId leadDetails contacts payload next wj) in
  amoRules e userId leadId leadDetails contacts payload (before ++ next :: post) w
  = amoRules e userId leadId leadDetails contacts payload post wn
  /\ exists w', amoRules e userId leadId leadDetails contacts payload post wn
                = (Return tt, w')
                /\ exists later, dispatched w' = (dispatched wn ++ later)%list.
Proof.
  intros wj wn. split.
  - unfold amoRules. rewrite forEach_app.
    destruct (amoRules_returns e userId leadId leadDetails contacts payload before w)
      as ([] & wb & E).
    unfold amoRules in E. subst wn wj. unfold amoRules. rewrite E. cbn [snd forEach].
    unfold bind at 1.
    destruct (amoRule_returns e userId leadId leadDetails contacts payload next wb)
      as ([] & wx & E').
    rewrite E'. reflexivity.
  - destruct (amoRules_returns e userId leadId leadDetails contacts payload post wn)
      as ([] & w' & E).
    exists w'. split; [exact E|].
    pose proof (amoRules_preserves _ e userId leadId leadDetails contacts payload post
                  (dispatched_grows_robust e wn) wn) as H.
    rewrite E in H. apply H. exists []. rewrite app_nil_r. reflexivity.
Qed.

(** C7: take the rules of an event in stored order, a rule [rule] among
    them and a rule [next] after it; [reached] is the world in which the
    loop gets to [next].  On both paths:
    - an exception thrown while [rule] is processed (while its conditions,
      its relevance or its counter update are evaluated) is caught, and an
      error entry for that rule is written to the journal;
    - whatever [rule] did, the loop gets to [next], processes it, goes on
      with the rules after it and returns; the adapter calls [next] made
      are still there at the end;
    - when [next] matches (its conditions hold, its key is not marked and,
      on the LPTracker path, the relevance filter passes), it is
      dispatched: [executeActions] is run on its actions, and for an action
      list it can walk one adapter call is made for each action of a known
      type, in order;
    - a dispatch failure is caught and logged: each adapter call that
      throws leaves one error entry in the journal, and the calls after it
      are made all the same. *)
Theorem rule_isolation (e : env) (userId : string) (rule next : SyncRule)
    (pre mid post : list SyncRule) (w : world) :
  (* LPTracker *)
  (forall webhookData id ts,
     get webhookData "id" = Return id ->
     get webhookData "action_timestamp" = Return ts ->
     let eventData := lpEventData userId webhookData in
     let failing := snd (lpRules e userId webhookData pre w) in
     let reached := snd (lpRules e userId webhookData (pre ++ rule :: mid) w) in
     let left := snd (lpRule e userId webhookData next reached) in
     (forall ex wt,
        lpRule_try e userId webhookData rule failing = (Throw ex, wt) ->
        lpRule e userId webhookData rule failing
        = (Return tt, add_log (entryOf Failure rule MsgRuleError) wt))
     /\ lpRules e userId webhookData ((pre ++ rule :: mid) ++ next :: post) w
        = lpRules e userId webhookData post left
     /\ (exists w', lpRules e userId webhookData post left = (Return tt, w')
                    /\ exists later, dispatched w' = (dispatched left ++ later)%list)
     /\ (checkConditions (conditions next) webhookData = true ->
         keyLive e (generateWebhookKey userId (toString id) (rule_id next) ts) reached
         = false ->
         isWebhookRelevant webhookData next = Return true ->
         dispatched left
         = dispatched (snd (executeActions e (actions next) eventData
                              (add_log (entryOf Info next MsgRuleApplicable) reached)))
         /\ forall items,
              wellFormedActions (actions next) eventData items ->
              callsMade e eventData items reached left))
  (* AmoCRM *)
  /\ (forall leadId leadDetails contacts payload,
        is_nullish leadDetails = false ->
        let eventData := amoEventData userId leadId leadDetails contacts payload in
        let failing := snd (amoRules e userId leadId leadDetails contacts payload pre w) in
        let reached := snd (amoRules e userId leadId leadDetails contacts payload
                              (pre ++ rule :: mid) w) in
        let left := snd (amoRule e userId leadId leadDetails contacts payload next
                           reached) in
        (forall ex wt,
           amoRule_try e userId leadId leadDetails contacts payload rule failing
           = (Throw ex, wt) ->
           amoRule e userId leadId leadDetails contacts payload rule failing
           = (Return tt, add_log (entryOf Failure rule MsgRuleError) wt))
        /\ amoRules e userId leadId leadDetails contacts payload
             ((pre ++ rule :: mid) ++ next :: post) w
           = amoRules e userId leadId leadDetails contacts payload post left
        /\ (exists w', amoRules e userId leadId leadDetails contacts payload post left
                       = (Return tt, w')
                       /\ exists later, dispatched w' = (dispatched left ++ later)%list)
        /\ (checkConditions (conditions next) eventData = true ->
            keyLive e (generateWebhookKey userId (toString leadId) (rule_id next)
                         VUndefined) reached = false ->
            dispatched left
            = dispatched (snd (executeActions e (actions next) eventData
                                 (add_log (entryOf Info next MsgRuleMatches)
                                    (add_log (entryOf Info next MsgCheckingRule)
                                       reached))))
            /\ forall items,
                 wellFormedActions (actions next) eventData items ->
                 callsMade e eventData items reached left)).
Proof.
  split.
  - intros webhookData id ts Hid Hts eventData failing reached left.
    assert (Hwd : is_nullish webhookData = false).
    { destruct webhookData; try reflexivity; discriminate. }
    destruct (lpRules_reach e userId webhookData (pre ++ rule :: mid) next post w Hwd)
      as (Hrun & Hend).
    split; [|split; [exact Hrun | split; [exact Hend|]]].
    + intros ex wt Hthrow. unfold lpRule, tryCatch. rewrite Hthrow.
      unfold bind, lift. rewrite Hid. reflexivity.
    + intros Hm Hlive Hrel.
      destruct (lpRule_dispatches e userId webhookData next id ts reached
                  Hm Hid Hts Hlive Hrel) as (Hd & Hj).
      split; [exact Hd|]. intros items Hwf.
      destruct (executeActions_callsMade e (actions next) eventData items
                  (add_log (entryOf Info next MsgRuleApplicable) reached) Hwf)
        as (ran & E & Hcalls).
      subst eventData. rewrite E in Hd, Hj. cbn [snd] in Hd, Hj.
      apply (callsMade_after_logs e _ items reached
               (add_log (entryOf Info next MsgRuleApplicable) reached) ran left);
        [reflexivity | | exact Hd | exact Hj | exact Hcalls].
      rewrite actionErrors_add_log. cbn. lia.
  - intros leadId leadDetails contacts payload Hlead eventData failing reached left.
    destruct (amoRules_reach e userId leadId leadDetails contacts payload
                (pre ++ rule :: mid) next post w) as (Hrun & Hend).
    split; [|split; [exact Hrun | split; [exact Hend|]]].
    + intros ex wt Hthrow. unfold amoRule, tryCatch. rewrite Hthrow. reflexivity.
    + intros Hm Hlive.
      destruct (amoRule_dispatches e userId leadId leadDetails contacts payload next
                  reached Hlead Hm Hlive) as (Hd & Hj).
      split; [exact Hd|]. intros items Hwf.
      destruct (executeActions_callsMade e (actions next) eventData items
                  (add_log (entryOf Info next MsgRuleMatches)
                     (add_log (entryOf Info next MsgCheckingRule) reached)) Hwf)
        as (ran & E & Hcalls).
      subst eventData. rewrite E in Hd, Hj. cbn [snd] in Hd, Hj.
      apply (callsMade_after_logs e _ items reached
               (add_log (entryOf Info next MsgRuleMatches)
                  (add_log (entryOf Info next MsgCheckingRule) reached)) ran left);
        [reflexivity | | exact Hd | exact Hj | exact Hcalls].
      rewrite !actionErrors_add_log. cbn. lia.
Qed.

(** The counter update of rule 1 throws and every adapter call fails:
    the exception of rule 1 is caught and logged, and rule 2, reached
    next, still makes its call to AmoCRM, whose failure is logged. *)
Lemma rule_isolation_witness :
  let e := brokenCounterEnv 1000 1 in
  let r1 := stage_rule 1 "lptracker" true in
  let r2 := stage_rule 2 "lptracker" true in
  let reached := snd (lpRules e "u1" stage_event [r1] emptyWorld) in
  let left := snd (lpRule e "u1" stage_event r2 reached) in
  lpRule e "u1" stage_event r1 emptyWorld
  = (Return tt, add_log (entryOf Failure r1 MsgRuleError)
                  (snd (lpRule_try e "u1" stage_event r1 emptyWorld)))
  /\ callsMade e (lpEventData "u1" stage_event)
       [VObject [("type", VString "sync_to_amocrm")]] reached left.
Proof.
  intros e r1 r2 reached left.
  destruct (proj1 (rule_isolation e "u1" r1 r2 [] [] [] emptyWorld)
              stage_event (VNumber 55) (VNumber 1700000000) eq_refl eq_refl)
    as (Hcatch & _ & _ & Hdispatch).
  split.
  - apply (Hcatch (JsError "storage: update failed")). vm_compute. reflexivity.
  - apply (proj2 (Hdispatch eq_refl eq_refl eq_refl)).
    split; [reflexivity|]. split; [eexists; repeat split; reflexivity|].
    split; [repeat constructor|]. eexists. reflexivity.
Defined.

(** In that run both rules called their adapter, and rule 2 was counted. *)
Example second_rule_still_dispatched :
  let e := brokenCounterEnv 1000 1 in
  let w' := snd (lpRules e "u1" stage_event
                   [stage_rule 1 "lptracker" true; stage_rule 2 "lptracker" true]
                   emptyWorld) in
  List.length (dispatched w') = 2%nat
  /\ actionErrors (journal w') = 2%nat
  /\ executionCount w' 1 = 0%nat
  /\ executionCount w' 2 = 1%nat.
Proof. vm_compute. repeat split. Qed.

(* ===================================================================== *)
(** ** Enrichment failure *)
(* ===================================================================== *)

Lemma returns_tryCatch_body {A} (body : M A) (handler : exn -> M A) :
  returns body -> returns (tryCatch body handler).
Proof.
  intros Hb w. unfold tryCatch. destruct (Hb w) as (a & w' & ->). eauto.
Qed.

Lemma amoLeadId_returns (payload : value) :
  is_nullish payload = false -> exists leadId, amoLeadId payload = Return leadId.
Proof.
  intros Hp. unfold amoLeadId.
  destruct (get_not_nullish payload "leads[add][0][id]" Hp) as (a & ->).
  destruct (get_not_nullish payload "leads[status][0][id]" Hp) as (b & ->).
  destruct (get_not_nullish payload "leads[update][0][id]" Hp) as (c & ->).
  destruct (get_not_nullish payload "leads[delete][0][id]" Hp) as (d & ->).
  simpl. destruct (truthy a), (truthy b), (truthy c), (truthy d); eauto.
Qed.

Lemma amoEnrichAndProcess_returns e user leadId payload :
  returns (amoEnrichAndProcess e user leadId payload).
Proof. unfold amoEnrichAndProcess. repeat step_method. Qed.

Lemma processAmoCrmWebhookDirect_returns (e : env) (payload : value) :
  is_nullish payload = false -> returns (processAmoCrmWebhookDirect e payload).
Proof.
  intros Hp. unfold processAmoCrmWebhookDirect. apply returns_tryCatch_body.
  assert (Hu : isUndefined payload = false) by (destruct payload; try discriminate; reflexivity).
  rewrite Hu.
  destruct (get_not_nullish payload "account[subdomain]" Hp) as (sub & Hsub).
  destruct (amoLeadId_returns payload Hp) as (leadId & Hlead).
  apply returns_bind; [apply returns_ret | intros _].
  apply returns_bind; [apply returns_logService | intros _].
  apply returns_bind; [eapply returns_lift; exact Hsub | intros subdomain].
  destruct (negb (truthy subdomain)); [apply returns_logService|].
  apply returns_bind.
  { unfold findUserBySubdomain. repeat step_method. }
  intros [user|]; [|apply returns_logService].
  destruct (noUser (Some user)); [apply returns_logService|].
  apply returns_bind; [eapply returns_lift; exact Hlead | intros lid].
  destruct (negb (truthy lid)); [apply returns_logService|].
  apply amoEnrichAndProcess_returns.
Qed.

(** A failed fetch leaves the world as it was. *)
Lemma getLeadDetails_pure (e : env) (user : string) (leadId : value) (w : world) :
  snd (getLeadDetails e user leadId w) = w.
Proof.
  unfold getLeadDetails, amoGet, bind, lift, raise.
  destruct (getAmoCrmSettings e user) as [settings|]; simpl; [|reflexivity].
  destruct (negb (truthy (settingsSubdomain settings))
            || negb (truthy (settingsApiKey settings))); simpl; [reflexivity|].
  destruct (fetch e _) as [resp|]; simpl; [|reflexivity].
  destruct (negb (resp_ok resp)); reflexivity.
Qed.

(** C3, as stated, fails: the lead-detail fetch throws, and both
    [processAmoCrmWebhookDirect] and the queue handler return normally, so
    the job completes and is not retried. *)
Lemma failed_fetch_completes_the_job :
  let e := exampleEnv 1000 [] false in
  fst (getLeadDetails e "u1" (VString "42") emptyWorld) = Throw (JsError "fetch failed")
  /\ fst (processAmoCrmWebhookDirect e status_payload emptyWorld) = Return tt
  /\ fst (amocrmWebhookJob e status_payload emptyWorld) = Return true.
Proof. vm_compute. repeat split. Qed.

(** C3 (amended): when the AmoCRM lead-detail fetch fails during
    processing, the failure is caught where the enrichment is made: an error
    entry is logged, nothing else changes (no rule is evaluated, no adapter
    is called, no key is marked), and [processAmoCrmWebhookDirect] and the
    queue handler return normally, so the job is completed, not retried.
    For a payload that is an object, no failure of the enrichment or of what
    follows it makes [processAmoCrmWebhookDirect] throw. *)
Theorem enrichment_failure_is_swallowed (e : env) (payload : value) (w : world) :
  is_nullish payload = false ->
  (exists w', processAmoCrmWebhookDirect e payload w = (Return tt, w'))
  /\ (exists w', amocrmWebhookJob e payload w = (Return true, w'))
  /\ (forall user leadId ex w1,
        fst (getLeadDetails e user leadId w1) = Throw ex ->
        amoEnrichAndProcess e user leadId payload w1
        = (Return tt,
           add_log {| log_level := Failure; log_rule := None;
                      log_message := MsgLeadFetchFailed |} w1)).
Proof.
  intros Hp. split; [|split].
  - destruct (processAmoCrmWebhookDirect_returns e payload Hp w) as ([] & w' & E).
    exists w'. exact E.
  - destruct (processAmoCrmWebhookDirect_returns e payload Hp w) as ([] & w' & E).
    unfold amocrmWebhookJob, jobHandler, tryCatch, bind. rewrite E. simpl. eauto.
  - intros user leadId ex w1 Hthrow.
    pose proof (getLeadDetails_pure e user leadId w1) as Hpure.
    unfold amoEnrichAndProcess, amoEnrichAndProcess_try, tryCatch, bind.
    destruct (getLeadDetails e user leadId w1) as [o wt]. simpl in *.
    subst o wt. reflexivity.
Qed.

Lemma enrichment_failure_is_swallowed_witness :
  exists w', amocrmWebhookJob (exampleEnv 1000 [] false) status_payload emptyWorld
             = (Return true, w').
Proof.
  exact (proj1 (proj2
    (enrichment_failure_is_swallowed (exampleEnv 1000 [] false) status_payload
       emptyWorld eq_refl))).
Defined.

(* ===================================================================== *)
(** ** Rule selection *)
(* ===================================================================== *)

(** The AmoCRM path keeps the rules tagged [amocrm] that are active. *)
Lemma activeAmoCrmRules_spec (rules : list SyncRule) (rule : SyncRule) :
  In rule (activeAmoCrmRules rules) <->
  In rule rules /\ webhookSource rule = "amocrm" /\ isActive rule = true.
Proof.
  unfold activeAmoCrmRules. rewrite !filter_In, String.eqb_eq. tauto.
Qed.

(** The LPTracker path hands every rule the cache returns to the loop; on a
    miss those are all the rows of the user. *)
Lemma getCachedSyncRules_miss (e : env) (userId : string) (rules : list SyncRule)
    (w : world) :
  fst (cache_get e ("sync_rules:" +:+ userId) w) = Return None ->
  getSyncRules e userId = Return rules ->
  fst (getCachedSyncRules e userId w) = Return rules.
Proof.
  intros Hmiss Hdb. unfold getCachedSyncRules, bind.
  destruct (cache_get e ("sync_rules:" +:+ userId) w) as [o w1]. simpl in Hmiss.
  subst o. unfold lift. rewrite Hdb.
  destruct (returns_tryCatch (client_setex e (crm ("sync_rules:" +:+ userId))
                                RULES_CACHE_TTL (CachedRules rules))
              (fun _ => consoleError) (fun _ => returns_ret tt) w1) as ([] & w2 & E).
  unfold cache_set. rewrite E. reflexivity.
Qed.

(** C4, on the code: the user's only rule is tagged [amocrm] and is not
    active; an LPTracker event that matches its conditions is processed, and
    the rule is evaluated, dispatched, marked and counted.  The AmoCRM path
    would have dropped the rule for being inactive. *)
Lemma lptracker_runs_inactive_amocrm_rule :
  let rule := stage_rule 9 "amocrm" false in
  let e := exampleEnv 1000 [rule] false in
  let w' := snd (processLpTrackerWebhookDirect e stage_event emptyWorld) in
  fst (processLpTrackerWebhookDirect e stage_event emptyWorld) = Return tt
  /\ List.map d_target (dispatched w') = [AmoCrm]
  /\ executionCount w' 9 = 1%nat
  /\ activeAmoCrmRules [rule] = [].
Proof. vm_compute. repeat split. Qed.

(** The AmoCRM path reads the rules from the storage layer, not through the
    cache: with a stale list cached under the user's key, the rules it
    evaluates are those of the storage layer. *)
Example amocrm_path_bypasses_cache :
  let stale := stage_rule 1 "amocrm" true in
  let fresh := stage_rule 2 "amocrm" true in
  let e := exampleEnv 1000 [fresh] false in
  let w := snd (cache_set e "sync_rules:u1" (CachedRules [stale]) RULES_CACHE_TTL emptyWorld) in
  let lead := VObject [("status_id", VNumber 142)] in
  let w' := snd (processLeadRules e "u1" (VString "42") lead [] status_payload w) in
  fst (getCachedSyncRules e "u1" w) = Return [stale]
  /\ executionCount w' 1 = 0%nat
  /\ executionCount w' 2 = 1%nat.
Proof. vm_compute. repeat split. Qed.

(* ===================================================================== *)
(** ** Cache invalidation and the dedup markers *)
(* ===================================================================== *)

Lemma lookup_foldr_delete (m : gmap string entry) (ks : list string) (k : string) :
  foldr delete m ks !! k = if bool_decide (k ∈ ks) then None else m !! k.
Proof.
  induction ks as [|a ks IH].
  - rewrite (bool_decide_eq_false_2 (k ∈ [])); [reflexivity | apply not_elem_of_nil].
  - cbn [foldr]. destruct (decide (a = k)) as [->|Hne].
    + rewrite lookup_delete_eq.
      rewrite (bool_decide_eq_true_2 (k ∈ k :: ks)); [reflexivity | left].
    + rewrite lookup_delete_ne by exact Hne. rewrite IH.
      destruct (decide (k ∈ ks)) as [Hin|Hin].
      * rewrite (bool_decide_eq_true_2 (k ∈ ks)) by exact Hin.
        rewrite (bool_decide_eq_true_2 (k ∈ a :: ks)); [reflexivity | right; exact Hin].
      * rewrite (bool_decide_eq_false_2 (k ∈ ks)) by exact Hin.
        rewrite (bool_decide_eq_false_2 (k ∈ a :: ks)); [reflexivity|].
        intros Hc. apply elem_of_cons in Hc as [->|Hc];
          [apply Hne; reflexivity | apply Hin, Hc].
Qed.

Lemma elem_of_matching (e : env) (pattern : string) (m : gmap string entry) (k : string) :
  k ∈ matching e pattern m <->
  globMatch pattern k = true /\ is_Some (liveLookup e k m).
Proof.
  unfold matching. rewrite list_elem_of_In, filter_In, andb_true_iff, bool_decide_eq_true.
  split.
  - intros (_ & Hg & Hl). split; assumption.
  - intros (Hg & Hl). split; [|split; assumption].
    destruct Hl as (c & Hc). unfold liveLookup in Hc.
    destruct (m !! k) as [x|] eqn:Hk; [|discriminate].
    apply list_elem_of_In. apply list_elem_of_fmap. exists (k, x).
    split; [reflexivity | apply elem_of_map_to_list; exact Hk].
Qed.

(** What is visible after the matching keys are deleted. *)
Lemma liveLookup_flushed (e : env) (pattern : string) (m : gmap string entry) (k : string) :
  liveLookup e k (foldr delete m (matching e pattern m)) =
    if globMatch pattern k then None else liveLookup e k m.
Proof.
  unfold liveLookup at 1. rewrite lookup_foldr_delete.
  destruct (bool_decide (k ∈ matching e pattern m)) eqn:Hin.
  - apply bool_decide_eq_true in Hin. apply elem_of_matching in Hin as [-> _].
    reflexivity.
  - apply bool_decide_eq_false in Hin. fold (liveLookup e k m).
    destruct (globMatch pattern k) eqn:Hg; [|reflexivity].
    destruct (liveLookup e k m) eqn:Hl; [|reflexivity].
    exfalso. apply Hin. apply elem_of_matching. rewrite Hl. eauto.
Qed.

(** [flushPattern] with Redis answering: the matching keys are deleted and
    nothing else changes. *)
Lemma cache_flushPattern_spec (e : env) (pattern : string) (w : world) :
  redis_up e = true ->
  exists w',
    cache_flushPattern e pattern w = (Return tt, w')
    /\ redis w' = foldr delete (redis w) (matching e (crm pattern) (redis w))
    /\ executions w' = executions w
    /\ dispatched w' = dispatched w
    /\ journal w' = journal w.
Proof.
  intros Hup.
  unfold cache_flushPattern, cache_keys, tryCatch, bind, client_keys, client_del, command.
  rewrite Hup. fold (matching e (crm pattern) (redis w)).
  destruct (0 <? Z.of_nat (List.length (matching e (crm pattern) (redis w)))) eqn:Hlen.
  - eexists. split; [reflexivity|]. simpl. repeat split; reflexivity.
  - exists w. split; [reflexivity|].
    destruct (matching e (crm pattern) (redis w)); [simpl; repeat split; reflexivity|].
    simpl in Hlen. apply Z.ltb_ge in Hlen. lia.
Qed.

Lemma globMatch_star (k : string) : globMatch "*" k = true.
Proof.
  induction k as [|d k IH]; [reflexivity|].
  change (globMatch "*" (String d k)) with (globMatch "*" k). exact IH.
Qed.

Lemma globMatch_literal_prefix (lit k : string) :
  literal lit = true -> globMatch (lit +:+ "*") k = startsWith lit k.
Proof.
  revert k. induction lit as [|c lit IH]; intros k Hlit.
  - apply globMatch_star.
  - simpl in Hlit. apply andb_true_iff in Hlit as [Hc Hlit].
    unfold isMeta in Hc. apply negb_true_iff in Hc.
    repeat (apply orb_false_elim in Hc; destruct Hc as [Hc ?]).
    change (String c lit +:+ "*") with (String c (lit +:+ "*")).
    destruct k as [|d k].
    + cbn [globMatch startsWith]. rewrite Hc. reflexivity.
    + cbn [globMatch startsWith]. rewrite Hc, H1, H0, H. rewrite IH by exact Hlit.
      reflexivity.
Qed.

Lemma startsWith_app (p rest : string) : startsWith p (p +:+ rest) = true.
Proof.
  induction p as [|c p IH]; [reflexivity|].
  change (String c p +:+ rest) with (String c (p +:+ rest)).
  cbn [startsWith]. rewrite Ascii.eqb_refl. exact IH.
Qed.

(** A user's dedup keys match the pattern [invalidateUserCache] flushes. *)
Lemma dedup_key_matches_user_pattern userId leadId ruleId ts :
  literal userId = true ->
  globMatch (crm ("webhook:" +:+ userId +:+ "*"))
            (crm (generateWebhookKey userId leadId ruleId ts)) = true.
Proof.
  intros Hlit.
  change (crm ("webhook:" +:+ userId +:+ "*"))
    with (("crm:webhook:" +:+ userId) +:+ "*").
  rewrite globMatch_literal_prefix by exact Hlit.
  unfold generateWebhookKey.
  change (startsWith userId
            (userId +:+ ":" +:+ leadId +:+ ":" +:+ pretty ruleId +:+ ":"
             +:+ toString (jor ts (VString "default"))) = true).
  apply startsWith_app.
Qed.

Lemma dedup_key_matches_global_pattern userId leadId ruleId ts :
  globMatch (crm "webhook:*") (crm (generateWebhookKey userId leadId ruleId ts)) = true.
Proof.
  change (crm "webhook:*") with ("crm:webhook:" +:+ "*").
  rewrite globMatch_literal_prefix by reflexivity. reflexivity.
Qed.

Arguments globMatch : simpl never.
Arguments crm : simpl never.

(** Four flushes in a row, then a journal entry. *)
Lemma four_flushes (e : env) (p1 p2 p3 p4 : string) (w : world) :
  redis_up e = true ->
  exists w',
    (cache_flushPattern e p1 ;;; cache_flushPattern e p2 ;;;
     cache_flushPattern e p3 ;;; cache_flushPattern e p4 ;;;
     logService Info None MsgCacheCleared) w = (Return tt, w')
    /\ (forall k, liveLookup e k (redis w') =
                  if globMatch (crm p1) k || globMatch (crm p2) k
                     || globMatch (crm p3) k || globMatch (crm p4) k
                  then None else liveLookup e k (redis w))
    /\ executions w' = executions w
    /\ dispatched w' = dispatched w.
Proof.
  intros Hup.
  destruct (cache_flushPattern_spec e p1 w Hup) as (w1 & E1 & R1 & X1 & D1 & _).
  destruct (cache_flushPattern_spec e p2 w1 Hup) as (w2 & E2 & R2 & X2 & D2 & _).
  destruct (cache_flushPattern_spec e p3 w2 Hup) as (w3 & E3 & R3 & X3 & D3 & _).
  destruct (cache_flushPattern_spec e p4 w3 Hup) as (w4 & E4 & R4 & X4 & D4 & _).
  eexists. split; [|split; [|split]].
  - unfold bind. rewrite E1, E2, E3, E4. reflexivity.
  - intros k. simpl. rewrite R4, liveLookup_flushed, R3, liveLookup_flushed,
      R2, liveLookup_flushed, R1, liveLookup_flushed.
    destruct (globMatch (crm p1) k), (globMatch (crm p2) k),
             (globMatch (crm p3) k), (globMatch (crm p4) k); reflexivity.
  - simpl. congruence.
  - simpl. congruence.
Qed.

Lemma keyLive_none (e : env) (key : string) (w : world) :
  liveLookup e (crm key) (redis w) = None -> keyLive e key w = false.
Proof. intros H. unfold keyLive. rewrite H. apply andb_false_r. Qed.

(** C10: with Redis answering, [invalidateUserCache(userId)] deletes exactly
    the live keys matching one of its four patterns, among them every dedup
    marker matching [webhook:{userId}*]; every other key, the counters and
    the adapter calls made so far are untouched.  For a user id without glob
    metacharacters (ids are [nanoid()] strings) all the user's dedup markers
    match, so right after the invalidation the dedup check answers [false]
    for every (entity, rule, timestamp) of that user, whatever was marked
    before and however recently, and a rule that matches is executed and
    counted again.  [clearAllCaches()] does the same for every user. *)
Theorem invalidation_erases_dedup_markers (e : env) (userId : string) (w : world) :
  redis_up e = true ->
  (exists w',
     invalidateUserCache e userId w = (Return tt, w')
     /\ (forall k, liveLookup e k (redis w') =
                   if flushedForUser userId k then None else liveLookup e k (redis w))
     /\ executions w' = executions w
     /\ dispatched w' = dispatched w
     /\ (literal userId = true ->
         (forall leadId ruleId ts,
            isWebhookAlreadyProcessed e userId leadId ruleId ts w' = (Return false, w'))
         /\ (forall rule webhookData id ts,
               checkConditions (conditions rule) webhookData = true ->
               get webhookData "id" = Return id ->
               get webhookData "action_timestamp" = Return ts ->
               isWebhookRelevant webhookData rule = Return true ->
               incrementRuleExecution e (rule_id rule) = None ->
               executionCount (snd (lpRule e userId webhookData rule w')) (rule_id rule)
               = S (executionCount w (rule_id rule)))
         /\ (forall rule leadId leadDetails contacts payload,
               is_nullish leadDetails = false ->
               checkConditions (conditions rule)
                 (amoEventData userId leadId leadDetails contacts payload) = true ->
               incrementRuleExecution e (rule_id rule) = None ->
               executionCount
                 (snd (amoRule e userId leadId leadDetails contacts payload rule w'))
                 (rule_id rule)
               = S (executionCount w (rule_id rule)))))
  /\ (exists w',
        clearAllCaches e w = (Return tt, w')
        /\ (forall k, liveLookup e k (redis w') =
                      if flushedForAll k then None else liveLookup e k (redis w))
        /\ forall user leadId ruleId ts,
             isWebhookAlreadyProcessed e user leadId ruleId ts w' = (Return false, w')).
Proof.
  intros Hup. split.
  - destruct (four_flushes e ("sync_rules:" +:+ userId +:+ "*")
                ("metadata:*:" +:+ userId +:+ "*") ("settings:*:" +:+ userId +:+ "*")
                ("webhook:" +:+ userId +:+ "*") w Hup) as (w' & E & Hk & Hx & Hd).
    exists w'. split; [exact E|]. split; [exact Hk|]. split; [exact Hx|].
    split; [exact Hd|]. intros Hlit.
    assert (Hgone : forall leadId ruleId ts,
              keyLive e (generateWebhookKey userId leadId ruleId ts) w' = false).
    { intros leadId ruleId ts. apply keyLive_none. rewrite Hk.
      rewrite (dedup_key_matches_user_pattern userId leadId ruleId ts Hlit).
      rewrite !orb_true_r. reflexivity. }
    split; [|split].
    + intros leadId ruleId ts. rewrite isWebhookAlreadyProcessed_spec, Hgone. reflexivity.
    + intros rule webhookData id ts Hm Hid Hts Hrel Hinc.
      rewrite (lpRule_executes e userId webhookData rule id ts Hm Hid Hts w'
                 (Hgone _ _ _) Hrel), Hinc.
      cbn [snd]. rewrite executionCount_bump. unfold executionCount.
      destruct (redis_up e); simpl;
        match goal with
        | |- context [executeActions ?a ?b ?c ?d] =>
            destruct (executeActions_frame a b c d) as [_ ->]
        end; simpl; rewrite Hx; reflexivity.
    + intros rule leadId leadDetails contacts payload Hld Hm Hinc.
      rewrite (amoRule_executes e userId leadId leadDetails contacts payload rule
                 Hld Hm w' (Hgone _ _ _)), Hinc.
      cbn [snd]. rewrite executionCount_bump. unfold executionCount.
      destruct (redis_up e); simpl;
        match goal with
        | |- context [executeActions ?a ?b ?c ?d] =>
            destruct (executeActions_frame a b c d) as [_ ->]
        end; simpl; rewrite Hx; reflexivity.
  - destruct (four_flushes e "sync_rules:*" "metadata:*" "settings:*" "webhook:*" w Hup)
      as (w' & E & Hk & Hx & Hd).
    exists w'. split; [exact E|]. split; [exact Hk|].
    intros user leadId ruleId ts. rewrite isWebhookAlreadyProcessed_spec.
    rewrite keyLive_none; [reflexivity|]. rewrite Hk.
    rewrite (dedup_key_matches_global_pattern user leadId ruleId ts).
    rewrite !orb_true_r. reflexivity.
Qed.

Lemma invalidation_erases_dedup_markers_witness :
  let rule := stage_rule 7 "lptracker" true in
  let w := snd (lpRules (exampleEnv 1000 [] false) "u1" stage_event [rule] emptyWorld) in
  let e := exampleEnv 1001 [] false in
  isWebhookAlreadyProcessed e "u1" "55" 7 (VNumber 1700000000) w = (Return true, w)
  /\ exists w',
       invalidateUserCache e "u1" w = (Return tt, w')
       /\ isWebhookAlreadyProcessed e "u1" "55" 7 (VNumber 1700000000) w' = (Return false, w')
       /\ executionCount (snd (lpRule e "u1" stage_event rule w')) 7 = 2%nat.
Proof.
  intros rule w e. split; [vm_compute; reflexivity|].
  destruct (proj1 (invalidation_erases_dedup_markers e "u1" w eq_refl))
    as (w' & E & _ & _ & _ & H).
  destruct (H eq_refl) as (Hgone & Hagain & _).
  exists w'. split; [exact E|]. split; [apply Hgone|].
  exact (Hagain rule stage_event (VNumber 55) (VNumber 1700000000)
           eq_refl eq_refl eq_refl eq_refl eq_refl).
Defined.

(* ===================================================================== *)
(** ** The journal is write-only *)
(* ===================================================================== *)

Section Oblivious.
Context {A B : Type}.

Lemma oblivious_ret (a : A) : oblivious (ret a).
Proof. intros w1 w2 H. split; [reflexivity | exact H]. Qed.

Lemma oblivious_raise (ex : exn) : oblivious (@raise A ex).
Proof. intros w1 w2 H. split; [reflexivity | exact H]. Qed.

Lemma oblivious_lift (o : outcome A) : oblivious (lift o).
Proof. intros w1 w2 H. split; [reflexivity | exact H]. Qed.

Lemma oblivious_read (f : gmap string entry -> A) :
  oblivious (fun w => (Return (f (redis w)), w)).
Proof.
  intros w1 w2 H. simpl. split; [|exact H].
  destruct H as (Hr & _). rewrite Hr. reflexivity.
Qed.

Lemma oblivious_bind (m : M A) (k : A -> M B) :
  oblivious m -> (forall a, oblivious (k a)) -> oblivious (bind m k).
Proof.
  intros Hm Hk w1 w2 H. unfold bind. destruct (Hm w1 w2 H) as [Ho Hw].
  destruct (m w1) as [o1 w1'], (m w2) as [o2 w2']. simpl in *. subst o2.
  destruct o1 as [a|ex]; [apply Hk; exact Hw | split; [reflexivity | exact Hw]].
Qed.

Lemma oblivious_tryCatch (body : M A) (handler : exn -> M A) :
  oblivious body -> (forall ex, oblivious (handler ex)) ->
  oblivious (tryCatch body handler).
Proof.
  intros Hb Hh w1 w2 H. unfold tryCatch. destruct (Hb w1 w2 H) as [Ho Hw].
  destruct (body w1) as [o1 w1'], (body w2) as [o2 w2']. simpl in *. subst o2.
  destruct o1 as [a|ex]; [split; [reflexivity | exact Hw] | apply Hh; exact Hw].
Qed.
End Oblivious.

Lemma oblivious_modify (f : world -> world) :
  (forall w1 w2, agree w1 w2 -> agree (f w1) (f w2)) -> oblivious (modify f).
Proof. intros Hf w1 w2 H. split; [reflexivity | apply Hf; exact H]. Qed.

Lemma oblivious_logService lvl rule msg : oblivious (logService lvl rule msg).
Proof. apply oblivious_modify. intros w1 w2 H. exact H. Qed.

Lemma oblivious_with_redis (f : gmap string entry -> gmap string entry) :
  oblivious (modify (with_redis f)).
Proof.
  apply oblivious_modify. intros w1 w2 (Hr & Hx & Hd).
  unfold agree. simpl. rewrite Hr. auto.
Qed.

Lemma oblivious_with_executions (f : gmap Z nat -> gmap Z nat) :
  oblivious (modify (with_executions f)).
Proof.
  apply oblivious_modify. intros w1 w2 (Hr & Hx & Hd).
  unfold agree. simpl. rewrite Hx. auto.
Qed.

Lemma oblivious_add_dispatch (d : dispatch) : oblivious (modify (add_dispatch d)).
Proof.
  apply oblivious_modify. intros w1 w2 (Hr & Hx & Hd).
  unfold agree. simpl. rewrite Hd. auto.
Qed.

Lemma oblivious_forEach {A} (body : A -> M unit) (items : list A) :
  (forall x, oblivious (body x)) -> oblivious (forEach body items).
Proof.
  intros Hb. induction items as [|x rest IH]; simpl.
  - apply oblivious_ret.
  - apply oblivious_bind; [apply Hb | intros _; exact IH].
Qed.

Ltac step_oblivious :=
  match goal with
  | |- oblivious (bind _ _) => apply oblivious_bind; [|intros ?]
  | |- oblivious (tryCatch _ _) => apply oblivious_tryCatch; [|intros ?]
  | |- oblivious (ret _) => apply oblivious_ret
  | |- oblivious (raise _) => apply oblivious_raise
  | |- oblivious (lift _) => apply oblivious_lift
  | |- oblivious (logService _ _ _) => apply oblivious_logService
  | |- oblivious (modify (with_redis _)) => apply oblivious_with_redis
  | |- oblivious (modify (with_executions _)) => apply oblivious_with_executions
  | |- oblivious (modify (add_dispatch _)) => apply oblivious_add_dispatch
  | |- oblivious (forEach _ _) => apply oblivious_forEach; intros ?
  | |- oblivious (fun w => (Return _, w)) => apply oblivious_read
  | |- oblivious (command _ _) => unfold command
  | |- oblivious (if ?b then _ else _) => destruct b
  | |- oblivious (match ?x with _ => _ end) => destruct x
  end.

Lemma lpRule_oblivious e userId webhookData rule :
  oblivious (lpRule e userId webhookData rule).
Proof.
  unfold lpRule, lpRule_try, isWebhookAlreadyProcessed, markWebhookProcessedInRedis,
    cache_exists, cache_setWithTTL, client_exists, client_setex, consoleError,
    storage_incrementRuleExecution, executeActions, executeAction, executeAction_try,
    callAdapter.
  repeat step_oblivious.
  all: apply (oblivious_read (fun m => match liveLookup e _ m with
                                       | Some _ => 1
                                       | None => 0
                                       end)).
Qed.

Lemma lpRules_oblivious e userId webhookData rules :
  oblivious (lpRules e userId webhookData rules).
Proof. apply oblivious_forEach. intros rule. apply lpRule_oblivious. Qed.

(* ===================================================================== *)
(** ** Relevance filter *)
(* ===================================================================== *)

Lemma oexists_true {A} (pred : A -> outcome bool) (l : list A) :
  oexists pred l = Return true -> exists x, In x l /\ pred x = Return true.
Proof.
  induction l as [|a l IH]; simpl; [discriminate|].
  destruct (pred a) as [[|]|] eqn:Ha; simpl; try discriminate.
  - intros _. exists a. split; [left; reflexivity | exact Ha].
  - intros H. destruct (IH H) as (x & Hx & Hp). exists x. split; [right|]; assumption.
Qed.

Lemma arrayIncludes_In (items : list value) (s : string) :
  arrayIncludes items (VString s) = true <-> In (VString s) items.
Proof.
  unfold arrayIncludes. rewrite existsb_exists. split.
  - intros (x & Hx & Heq). destruct x; simpl in Heq; try discriminate.
    apply String.eqb_eq in Heq. subst. exact Hx.
  - intros H. exists (VString s). split; [exact H | simpl; apply String.eqb_refl].
Qed.

Lemma fieldTouched_true (updated : list value) (name : value) :
  fieldTouched updated name = Return true ->
  exists u, In u updated /\ touches u name.
Proof.
  intros H. apply oexists_true in H as (u & Hu & Ht). exists u. split; [exact Hu|].
  unfold touches. destruct (jsIncludes u name) as [[|]|]; simpl in Ht.
  - left. reflexivity.
  - right. injection Ht as Ht. exact Ht.
  - discriminate.
Qed.

Lemma conditionTouched_true (updated : list value) (c : value) :
  conditionTouched updated c = Return true ->
  exists name, get c "field" = Return name /\ truthy name = true
               /\ exists u, In u updated /\ touches u name.
Proof.
  unfold conditionTouched. destruct (get c "field") as [name|]; simpl; [|discriminate].
  destruct (truthy name) eqn:Ht; simpl; [|discriminate].
  destruct (get c "type") as [ty|]; simpl; [|discriminate].
  destruct (if is_nullish ty then Return false else jsIncludes ty (VString "field_"))
    as [[|]|]; simpl; try discriminate.
  intros H. exists name. split; [reflexivity|]. split; [exact Ht|].
  apply fieldTouched_true. exact H.
Qed.

Lemma actionTouched_true (updated : list value) (a : value) :
  actionTouched updated a = Return true ->
  exists mappings k, get a "fieldMappings" = Return mappings
                     /\ In k (map fst (ownEntries mappings))
                     /\ exists u, In u updated /\ touches u (VString k).
Proof.
  unfold actionTouched. destruct (get a "fieldMappings") as [mappings|]; simpl; [|discriminate].
  destruct (truthy mappings); simpl; [|discriminate].
  intros H. apply oexists_true in H as ([k v] & Hin & Ht).
  exists mappings, k. split; [reflexivity|]. split.
  - apply in_map_iff. exists (k, v). split; [reflexivity | exact Hin].
  - apply fieldTouched_true. exact Ht.
Qed.

(** When the relevance check itself throws, the rule's [catch] logs it and
    nothing is dispatched. *)
Lemma lpRule_relevance_throws e userId webhookData rule id ts ex w :
  checkConditions (conditions rule) webhookData = true ->
  get webhookData "id" = Return id ->
  get webhookData "action_timestamp" = Return ts ->
  keyLive e (generateWebhookKey userId (toString id) (rule_id rule) ts) w = false ->
  isWebhookRelevant webhookData rule = Throw ex ->
  lpRule e userId webhookData rule w =
    (Return tt, add_log (entryOf Failure rule MsgRuleError) w).
Proof.
  intros Hm Hid Hts Hlive Hrel. unfold lpRule, lpRule_try, tryCatch, bind, lift.
  rewrite Hm, Hid, Hts, isWebhookAlreadyProcessed_spec, Hlive, Hrel. reflexivity.
Qed.

Lemma conditionTouched_field_type (updated : list value) (c : value) :
  conditionTouched updated c = Return true ->
  exists ty, get c "type" = Return ty /\ is_nullish ty = false
             /\ jsIncludes ty (VString "field_") = Return true.
Proof.
  unfold conditionTouched. destruct (get c "field") as [name|]; simpl; [|discriminate].
  destruct (truthy name); simpl; [|discriminate].
  destruct (get c "type") as [ty|]; simpl; [|discriminate].
  destruct (is_nullish ty) eqn:Hn; simpl; [discriminate|].
  destruct (jsIncludes ty (VString "field_")) as [[|]|] eqn:Hinc; simpl;
    try discriminate.
  intros _. exists ty. repeat split; assumption.
Qed.

(** [some] answers [true] as soon as it gets to an element on which the
    callback cannot answer [false]. *)
Lemma oexists_complete {A} (pred : A -> outcome bool) (l : list A) (x : A) (b : bool) :
  oexists pred l = Return b -> In x l ->
  (forall b', pred x = Return b' -> b' = true) -> b = true.
Proof.
  intros H Hin Hx. induction l as [|a l IH]; [contradiction|].
  cbn [oexists] in H. destruct (pred a) as [[|]|] eqn:Ha; cbn [obind] in H;
    try discriminate.
  - injection H as <-. reflexivity.
  - destruct Hin as [-> | Hin]; [|exact (IH H Hin)].
    specialize (Hx false Ha). discriminate.
Qed.

Lemma fieldTouched_complete (updated : list value) (name u : value) (b : bool) :
  fieldTouched updated name = Return b -> In u updated -> touches u name -> b = true.
Proof.
  intros H Hin Ht. unfold fieldTouched in H.
  apply (oexists_complete _ _ u b H Hin). intros b'.
  destruct Ht as [Hinc | Heq].
  - rewrite Hinc. cbn [obind]. intros [= <-]. reflexivity.
  - destruct (jsIncludes u name) as [[|]|]; cbn [obind]; [| |discriminate].
    + intros [= <-]. reflexivity.
    + rewrite Heq. intros [= <-]. reflexivity.
Qed.

Lemma iterate_In_truthy (v : value) (items : list value) (x : value) :
  iterate v = Return items -> In x items -> truthy v = true.
Proof.
  destruct v as [| | | |s| |]; cbn [iterate]; try discriminate; [|reflexivity].
  intros [= <-] Hin. destruct s; [contradiction | reflexivity].
Qed.

Lemma ownEntries_In_truthy (v : value) (k : string) :
  In k (map fst (ownEntries v)) -> truthy v = true.
Proof.
  destruct v as [| | | |s| |]; cbn [ownEntries map]; try contradiction;
    try reflexivity.
  destruct s; [contradiction | reflexivity].
Qed.

Lemma conditionTouched_complete (updated : list value) (c name ty u : value) (b : bool) :
  get c "field" = Return name -> truthy name = true ->
  get c "type" = Return ty -> is_nullish ty = false ->
  jsIncludes ty (VString "field_") = Return true ->
  In u updated -> touches u name ->
  conditionTouched updated c = Return b -> b = true.
Proof.
  intros Hf Ht Hty Hn Hinc Hin Htouch. unfold conditionTouched.
  rewrite Hf. cbn [obind]. rewrite Ht. cbn [negb]. rewrite Hty. cbn [obind].
  rewrite Hn, Hinc. cbn [obind]. intros H.
  exact (fieldTouched_complete updated name u b H Hin Htouch).
Qed.

Lemma actionTouched_complete (updated : list value) (a mappings u : value)
    (k : string) (b : bool) :
  get a "fieldMappings" = Return mappings ->
  In k (map fst (ownEntries mappings)) ->
  In u updated -> touches u (VString k) ->
  actionTouched updated a = Return b -> b = true.
Proof.
  intros Hm Hk Hin Htouch. unfold actionTouched. rewrite Hm. cbn [obind].
  rewrite (ownEntries_In_truthy mappings k Hk). cbn [negb]. intros H.
  apply in_map_iff in Hk as ([k' v] & Hfst & Hkv). cbn [fst] in Hfst. subst k'.
  apply (oexists_complete _ _ (k, v) b H Hkv). intros b' Hb'. cbn [fst] in Hb'.
  exact (fieldTouched_complete updated (VString k) u b' Hb' Hin Htouch).
Qed.

(** C6: for every LPTracker event and every rule,
    - with no [action_update_fields] array the rule is relevant;
    - with "stage", "stage_id" or "payments" among the updated fields the
      rule is relevant whatever it contains;
    - otherwise the rule is relevant only if some updated field touches
      (contains as a substring, or is [custom.<name>] of) a name the filter
      looks for in the rule: the [field] of one of its conditions whose
      [type] contains [field_], or a key of the field mappings of one of
      its actions; and, when the check does not throw, it is relevant as
      soon as there are such a field and such a name;
    - a matching, unmarked rule calls its adapters only if the filter
      answers [true]; and when it is skipped as not relevant, only the
      journal records it: the rules after it are processed from the same
      keys and counters, and the run ends as the run without that rule. *)
Theorem relevance_filter (e : env) (userId : string) (webhookData : value)
    (rule : SyncRule) (auf : value) :
  get webhookData "action_update_fields" = Return auf ->
  (isArray auf = false -> isWebhookRelevant webhookData rule = Return true)
  /\ (forall updated, auf = VArray updated ->
        In (VString "stage") updated \/ In (VString "stage_id") updated
        \/ In (VString "payments") updated ->
        isWebhookRelevant webhookData rule = Return true)
  /\ (forall updated, auf = VArray updated ->
        ~ In (VString "stage") updated -> ~ In (VString "stage_id") updated ->
        ~ In (VString "payments") updated ->
        (isWebhookRelevant webhookData rule = Return true ->
         exists name u,
           (conditionField rule name \/ mappingField rule name)
           /\ In u updated /\ touches u name)
        /\ (forall b name u,
              isWebhookRelevant webhookData rule = Return b ->
              conditionField rule name \/ mappingField rule name ->
              In u updated -> touches u name ->
              b = true))
  /\ (forall id ts pre post w0,
        checkConditions (conditions rule) webhookData = true ->
        get webhookData "id" = Return id ->
        get webhookData "action_timestamp" = Return ts ->
        let w := snd (lpRules e userId webhookData pre w0) in
        keyLive e (generateWebhookKey userId (toString id) (rule_id rule) ts) w = false ->
        (isWebhookRelevant webhookData rule <> Return true ->
           dispatched (snd (lpRule e userId webhookData rule w)) = dispatched w)
        /\ (isWebhookRelevant webhookData rule = Return false ->
              lpRule e userId webhookData rule w
              = (Return tt, add_log (entryOf Info rule MsgRuleNotRelevant) w)
              /\ agree (snd (lpRules e userId webhookData (pre ++ rule :: post) w0))
                       (snd (lpRules e userId webhookData (pre ++ post) w0)))).
Proof.
  intros Hauf. split; [|split; [|split]].
  - intros Hna. unfold isWebhookRelevant. rewrite Hauf. simpl.
    rewrite Hna, orb_true_r. reflexivity.
  - intros updated -> Hin. unfold isWebhookRelevant. rewrite Hauf. simpl.
    destruct Hin as [H | [H | H]]; apply arrayIncludes_In in H; rewrite H.
    + reflexivity.
    + rewrite orb_true_r. reflexivity.
    + destruct (_ || _); reflexivity.
  - intros updated -> Hs Hsi Hp.
    rewrite <- arrayIncludes_In in Hs, Hsi, Hp.
    apply not_true_is_false in Hs, Hsi, Hp. split.
    + unfold isWebhookRelevant. rewrite Hauf. simpl. rewrite Hs, Hsi, Hp. simpl.
      destruct (oget (conditions rule) "rules") as [condRules|] eqn:Hcr; simpl;
        [|discriminate].
      destruct (truthy condRules) eqn:Htc.
      * destruct (iterate condRules) as [items|] eqn:Hit; simpl; [|discriminate].
        destruct (oexists (conditionTouched updated) items) as [[|]|] eqn:Hex; simpl;
          [| |discriminate].
        -- intros _. apply oexists_true in Hex as (c & Hc & Hct).
           destruct (conditionTouched_field_type updated c Hct)
             as (ty & Hty & Hn & Hinc).
           apply conditionTouched_true in Hct as (name & Hf & Ht & u & Hu & Htouch).
           exists name, u. split; [|split; assumption].
           left. exists condRules, items, c, ty. repeat split; assumption.
        -- destruct (oget (actions rule) "list") as [actionList|] eqn:Hal; simpl;
             [|discriminate].
           destruct (truthy actionList); [|discriminate].
           destruct (iterate actionList) as [aitems|] eqn:Hait; simpl; [|discriminate].
           intros Hex'. apply oexists_true in Hex' as (a & Ha & Hat).
           apply actionTouched_true in Hat as (mappings & k & Hm & Hk & u & Hu & Htouch).
           exists (VString k), u. split; [|split; assumption].
           right. exists actionList, aitems, a, mappings, k. repeat split; assumption.
      * simpl.
        destruct (oget (actions rule) "list") as [actionList|] eqn:Hal; simpl;
          [|discriminate].
        destruct (truthy actionList); [|discriminate].
        destruct (iterate actionList) as [aitems|] eqn:Hait; simpl; [|discriminate].
        intros Hex'. apply oexists_true in Hex' as (a & Ha & Hat).
        apply actionTouched_true in Hat as (mappings & k & Hm & Hk & u & Hu & Htouch).
        exists (VString k), u. split; [|split; assumption].
        right. exists actionList, aitems, a, mappings, k. repeat split; assumption.
    + intros b name u Hret Hfield Hu Htouch.
      unfold isWebhookRelevant in Hret. rewrite Hauf in Hret. simpl in Hret.
      rewrite Hs, Hsi, Hp in Hret. simpl in Hret.
      destruct (oget (conditions rule) "rules") as [condRules|] eqn:Hcr;
        simpl in Hret; [|discriminate].
      destruct Hfield
        as [(condRules' & items & c & ty & Hcr' & Hit & Hc & Hf & Ht & Hty & Hn & Hinc)
           |(actionList' & aitems & a & mappings & k & Hal' & Hait & Ha & Hm & Hk & ->)].
      * rewrite Hcr in Hcr'. injection Hcr' as <-.
        rewrite (iterate_In_truthy condRules items c Hit Hc), Hit in Hret.
        simpl in Hret.
        destruct (oexists (conditionTouched updated) items) as [bc|] eqn:Hex;
          simpl in Hret; [|discriminate].
        assert (Hbc : bc = true).
        { apply (oexists_complete _ _ c bc Hex Hc). intros b'.
          apply (conditionTouched_complete updated c name ty u b'); assumption. }
        subst bc. injection Hret as <-. reflexivity.
      * destruct (if truthy condRules
                  then obind (iterate condRules)
                         (fun items => oexists (conditionTouched updated) items)
                  else Return false) as [[|]|]; simpl in Hret; [| |discriminate].
        { injection Hret as <-. reflexivity. }
        rewrite Hal' in Hret. simpl in Hret.
        rewrite (iterate_In_truthy actionList' aitems a Hait Ha), Hait in Hret.
        simpl in Hret.
        apply (oexists_complete _ _ a b Hret Ha). intros b'.
        apply (actionTouched_complete updated a mappings u k b'); assumption.
  - intros id ts pre post w0 Hm Hid Hts w Hlive.
    assert (Hwd : is_nullish webhookData = false).
    { destruct webhookData; simpl in Hid; try discriminate; reflexivity. }
    assert (Hskip : isWebhookRelevant webhookData rule = Return false ->
              lpRule e userId webhookData rule w
              = (Return tt, add_log (entryOf Info rule MsgRuleNotRelevant) w)).
    { intros Hrel. apply (lpRule_not_relevant e userId webhookData rule id ts Hm Hid Hts).
      - exact Hlive.
      - exact Hrel. }
    split.
    + intros Hne. destruct (isWebhookRelevant webhookData rule) as [[|]|ex] eqn:Hrel.
      * exfalso. apply Hne. reflexivity.
      * rewrite Hskip by reflexivity. reflexivity.
      * rewrite (lpRule_relevance_throws e userId webhookData rule id ts ex w
                   Hm Hid Hts Hlive Hrel). reflexivity.
    + intros Hrel. split; [apply Hskip; exact Hrel|].
      unfold lpRules.
      rewrite !snd_forEach_app by (apply lpRules_returns; exact Hwd).
      fold (lpRules e userId webhookData pre w0). fold w.
      rewrite (snd_forEach_cons _ _ _ _ _ (Hskip Hrel)).
      apply (lpRules_oblivious e userId webhookData post).
      repeat split; reflexivity.
Qed.

Lemma relevance_filter_witness :
  let e := exampleEnv 1000 [] false in
  let skipped := stage_rule 7 "lptracker" true in
  let other := name_mapping_rule 8 in
  isWebhookRelevant stage_event skipped = Return true
  /\ agree (snd (lpRules e "u1" rename_event ([] ++ skipped :: [other]) emptyWorld))
           (snd (lpRules e "u1" rename_event ([] ++ [other]) emptyWorld)).
Proof.
  intros e skipped other. split.
  - exact (proj1 (proj2
      (relevance_filter e "u1" stage_event skipped (VArray [VString "stage_id"]) eq_refl))
      [VString "stage_id"] eq_refl (or_intror (or_introl (or_introl eq_refl)))).
  - exact (proj2 (proj2 (proj2 (proj2 (proj2
      (relevance_filter e "u1" rename_event skipped (VArray [VString "name"]) eq_refl)))
      (VNumber 55) (VNumber 1700000000) [] [other] emptyWorld
      eq_refl eq_refl eq_refl eq_refl) eq_refl)).
Defined.

(** C6, as stated, fails: a rule is considered although the updated
    fields and the fields it refers to have nothing in common.  The only
    field the rule refers to is [name], the only field updated is
    [first_name], and the filter answers [true], because ["first_name"]
    contains ["name"]. *)
Lemma substring_update_makes_rule_relevant :
  let rule := name_mapping_rule 8 in
  get first_name_event "action_update_fields" = Return (VArray [VString "first_name"])
  /\ isWebhookRelevant first_name_event rule = Return true
  /\ ~ (exists name,
          (referencedByCondition rule name \/ mappingField rule name)
          /\ In name [VString "first_name"]).
Proof.
  intros rule. split; [reflexivity|]. split; [reflexivity|].
  intros (name & Href & Hin).
  destruct Hin as [<- | []].
  destruct Href
    as [(condRules & items & c & Hcr & Hit & Hc & Hf & _)
       |(actionList & aitems & a & mappings & k & Hal & Hait & Ha & Hm & Hk & Hname)].
  - vm_compute in Hcr. injection Hcr as <-.
    vm_compute in Hit. injection Hit as <-.
    destruct Hc as [<- | []]. vm_compute in Hf. discriminate Hf.
  - vm_compute in Hal. injection Hal as <-.
    vm_compute in Hait. injection Hait as <-.
    destruct Ha as [<- | []]. vm_compute in Hm. injection Hm as <-.
    cbn in Hk. destruct Hk as [<- | []]. discriminate Hname.
Qed.

(** In the run of the witness the renamed contact reaches AmoCRM through
    the other rule alone. *)
Example other_rule_still_considered :
  let e := exampleEnv 1000 [] false in
  let w' := snd (lpRules e "u1" rename_event
                   [stage_rule 7 "lptracker" true; name_mapping_rule 8] emptyWorld) in
  executionCount w' 7 = 0%nat /\ executionCount w' 8 = 1%nat
  /\ List.length (dispatched w') = 1%nat.
Proof. vm_compute. repeat split. Qed.

(* ===================================================================== *)
(** ** [RedisCache]: round trips and failure defaults *)
(* ===================================================================== *)

Lemma cache_get_spec (e : env) (key : string) (w : world) :
  cache_get e key w =
    (Return (if redis_up e then liveLookup e (crm key) (redis w) else None), w).
Proof.
  unfold cache_get, tryCatch, client_get, command. destruct (redis_up e); reflexivity.
Qed.

Lemma cache_set_spec (e : env) (key : string) (v : cached) (ttl : Z) (w : world) :
  cache_set e key v ttl w =
    (Return tt,
     if redis_up e
     then with_redis (insert (crm key) {| payload := v; expires_at := now e + ttl |}) w
     else w).
Proof.
  unfold cache_set, tryCatch, client_setex, command. destruct (redis_up e); reflexivity.
Qed.

Lemma liveLookup_insert_ne (e : env) (k k' : string) (x : entry) (m : gmap string entry) :
  k <> k' -> liveLookup e k' (<[k := x]> m) = liveLookup e k' m.
Proof. intros Hne. unfold liveLookup. rewrite lookup_insert_ne by exact Hne. reflexivity. Qed.

Lemma crm_ne (a b : string) : a <> b -> crm a <> crm b.
Proof. intros Hne Heq. apply Hne, crm_inj, Heq. Qed.

(** X1: a value written with [set] under a positive TTL is what [get]
    returns, and [exists] answers [true], at any time before the TTL has
    elapsed; from then on the key reads as absent.  Reads of other keys are
    not affected by the write. *)
Theorem cache_set_get_roundtrip (e e' : env) (key : string) (v : cached) (ttl : Z)
    (w : world) :
  redis_up e = true -> redis_up e' = true -> 0 < ttl -> storable v = true ->
  let w' := snd (cache_set e key v ttl w) in
  fst (cache_get e' key w') = Return (if now e' <? now e + ttl then Some v else None)
  /\ fst (cache_exists e' key w') = Return (now e' <? now e + ttl)
  /\ forall other, other <> key ->
       fst (cache_get e' other w') = fst (cache_get e' other w)
       /\ fst (cache_exists e' other w') = fst (cache_exists e' other w).
Proof.
  intros Hup Hup' Httl _ w'. subst w'. rewrite cache_set_spec, Hup. cbn [snd].
  split; [|split].
  - rewrite cache_get_spec, Hup'. cbn [fst redis with_redis].
    rewrite liveLookup_insert_eq. reflexivity.
  - rewrite cache_exists_spec, Hup'. cbn [fst redis with_redis].
    rewrite liveLookup_insert_eq. unfold live. cbn [expires_at].
    destruct (now e' <? now e + ttl); reflexivity.
  - intros other Hne. rewrite !cache_get_spec, !cache_exists_spec.
    cbn [fst redis with_redis].
    rewrite liveLookup_insert_ne by (apply crm_ne; congruence).
    split; reflexivity.
Qed.

Lemma cache_set_get_roundtrip_witness :
  let e := exampleEnv 1000 [] false in
  let w' := snd (cache_set e "settings:amocrm:u1" (CachedJson (VString "acme")) 600
                   emptyWorld) in
  fst (cache_get (exampleEnv 1599 [] false) "settings:amocrm:u1" w')
  = Return (Some (CachedJson (VString "acme")))
  /\ fst (cache_get (exampleEnv 1600 [] false) "settings:amocrm:u1" w') = Return None.
Proof.
  intros e w'. split.
  - exact (proj1 (cache_set_get_roundtrip e (exampleEnv 1599 [] false)
                    "settings:amocrm:u1" (CachedJson (VString "acme")) 600 emptyWorld
                    eq_refl eq_refl eq_refl eq_refl)).
  - exact (proj1 (cache_set_get_roundtrip e (exampleEnv 1600 [] false)
                    "settings:amocrm:u1" (CachedJson (VString "acme")) 600 emptyWorld
                    eq_refl eq_refl eq_refl eq_refl)).
Defined.

(** X2: when Redis does not answer, no method of the wrapper throws: [get]
    answers [null], [exists] and [setIfNotExists] answer [false], [keys]
    answers the empty list, and the writing methods do nothing; the world is
    left as it was. *)
Theorem cache_defaults_when_redis_is_down (e : env) (key : string) (v : cached)
    (ttl : Z) (w : world) :
  redis_up e = false ->
  cache_get e key w = (Return None, w)
  /\ cache_exists e key w = (Return false, w)
  /\ cache_keys e key w = (Return [], w)
  /\ cache_set e key v ttl w = (Return tt, w)
  /\ cache_setWithTTL e key v ttl w = (Return tt, w)
  /\ cache_setIfNotExists e key v ttl w = (Return false, w)
  /\ cache_del e key w = (Return tt, w)
  /\ cache_flushPattern e key w = (Return tt, w).
Proof.
  intros Hdown.
  unfold cache_get, cache_exists, cache_keys, cache_set, cache_setWithTTL,
    cache_setIfNotExists, cache_del, cache_flushPattern, cache_keys,
    client_get, client_exists, client_keys, client_setex, client_set_nx, client_del,
    command, tryCatch, bind.
  rewrite Hdown. cbn. repeat split; reflexivity.
Qed.


Lemma cache_defaults_when_redis_is_down_witness :
  cache_get (downEnv 1000 []) "sync_rules:u1" emptyWorld = (Return None, emptyWorld)
  /\ cache_exists (downEnv 1000 []) "sync_rules:u1" emptyWorld = (Return false, emptyWorld).
Proof.
  pose proof (cache_defaults_when_redis_is_down (downEnv 1000 []) "sync_rules:u1"
                (CachedRules []) 300 emptyWorld eq_refl) as H.
  split; [exact (proj1 H) | exact (proj1 (proj2 H))].
Defined.

Lemma cache_setIfNotExists_spec (e : env) (key : string) (v : cached) (ttl : Z)
    (w : world) :
  redis_up e = true ->
  cache_setIfNotExists e key v ttl w =
    match liveLookup e (crm key) (redis w) with
    | Some _ => (Return false, w)
    | None =>
        (Return true,
         with_redis (insert (crm key) {| payload := v; expires_at := now e + ttl |}) w)
    end.
Proof.
  intros Hup. unfold cache_setIfNotExists, tryCatch, client_set_nx, command.
  rewrite Hup. destruct (liveLookup e (crm key) (redis w)); reflexivity.
Qed.

(** X3: [setIfNotExists] is first-writer-wins.  On a key that is absent or
    expired the first call answers [true] and stores its value; a second
    call made before the first TTL has elapsed answers [false] and changes
    nothing, whatever value and TTL it carries, so that [get] still returns
    the first value. *)
Theorem setIfNotExists_first_writer_wins (e1 e2 : env) (key : string)
    (v1 v2 : cached) (ttl1 ttl2 : Z) (w : world) :
  redis_up e1 = true -> redis_up e2 = true ->
  0 < ttl1 -> storable v1 = true ->
  now e2 < now e1 + ttl1 ->
  fst (cache_get e1 key w) = Return None ->
  let first := cache_setIfNotExists e1 key v1 ttl1 w in
  let second := cache_setIfNotExists e2 key v2 ttl2 (snd first) in
  fst first = Return true
  /\ second = (Return false, snd first)
  /\ fst (cache_get e2 key (snd second)) = Return (Some v1).
Proof.
  intros Hup1 Hup2 Httl _ Hlt Hmiss first second.
  rewrite cache_get_spec, Hup1 in Hmiss. cbn [fst] in Hmiss.
  assert (Hnone : liveLookup e1 (crm key) (redis w) = None) by congruence.
  assert (Hfirst : first =
            (Return true,
             with_redis (insert (crm key)
                           {| payload := v1; expires_at := now e1 + ttl1 |}) w)).
  { subst first. rewrite cache_setIfNotExists_spec by exact Hup1.
    rewrite Hnone. reflexivity. }
  assert (Hlive : liveLookup e2 (crm key) (redis (snd first)) = Some v1).
  { rewrite Hfirst. cbn [snd redis with_redis]. rewrite liveLookup_insert_eq.
    unfold live. cbn [expires_at payload].
    apply Z.ltb_lt in Hlt. rewrite Hlt. reflexivity. }
  assert (Hsecond : second = (Return false, snd first)).
  { subst second. rewrite cache_setIfNotExists_spec by exact Hup2.
    rewrite Hlive. reflexivity. }
  split; [rewrite Hfirst; reflexivity|]. split; [exact Hsecond|].
  rewrite Hsecond. cbn [snd]. rewrite cache_get_spec, Hup2. cbn [fst].
  rewrite Hlive. reflexivity.
Qed.

Lemma setIfNotExists_first_writer_wins_witness :
  let e1 := exampleEnv 1000 [] false in
  let e2 := exampleEnv 1030 [] false in
  let first := cache_setIfNotExists e1 "lock:sync" (CachedJson (VString "worker-1")) 60
                 emptyWorld in
  let second := cache_setIfNotExists e2 "lock:sync" (CachedJson (VString "worker-2")) 60
                  (snd first) in
  fst first = Return true
  /\ second = (Return false, snd first)
  /\ fst (cache_get e2 "lock:sync" (snd second))
     = Return (Some (CachedJson (VString "worker-1"))).
Proof.
  exact (setIfNotExists_first_writer_wins (exampleEnv 1000 [] false)
           (exampleEnv 1030 [] false) "lock:sync"
           (CachedJson (VString "worker-1")) (CachedJson (VString "worker-2"))
           60 60 emptyWorld eq_refl eq_refl eq_refl eq_refl eq_refl eq_refl).
Defined.

Lemma cache_del_spec (e : env) (key : string) (w : world) :
  cache_del e key w =
    (Return tt, if redis_up e then with_redis (delete (crm key)) w else w).
Proof.
  unfold cache_del, tryCatch, client_del, command. destruct (redis_up e); reflexivity.
Qed.

(** X4: [del] removes the key and nothing else: afterwards [get] answers
    [null] and [exists] answers [false] for it, at any time, and every
    other key reads as before. *)
Theorem cache_del_removes_exactly_the_key (e e' : env) (key : string) (w : world) :
  redis_up e = true -> redis_up e' = true ->
  let w' := snd (cache_del e key w) in
  fst (cache_get e' key w') = Return None
  /\ fst (cache_exists e' key w') = Return false
  /\ forall other, other <> key ->
       fst (cache_get e' other w') = fst (cache_get e' other w)
       /\ fst (cache_exists e' other w') = fst (cache_exists e' other w).
Proof.
  intros Hup Hup' w'. subst w'. rewrite cache_del_spec, Hup. cbn [snd].
  split; [|split].
  - rewrite cache_get_spec, Hup'. cbn [fst redis with_redis].
    unfold liveLookup. rewrite lookup_delete_eq. reflexivity.
  - rewrite cache_exists_spec, Hup'. cbn [fst redis with_redis].
    unfold liveLookup. rewrite lookup_delete_eq. reflexivity.
  - intros other Hne. rewrite !cache_get_spec, !cache_exists_spec.
    cbn [fst redis with_redis]. unfold liveLookup.
    rewrite lookup_delete_ne by (apply crm_ne; congruence).
    split; reflexivity.
Qed.

Lemma cache_del_removes_exactly_the_key_witness :
  let e := exampleEnv 1000 [] false in
  let w := snd (cache_set e "settings:amocrm:u1" (CachedJson (VString "acme")) 600
                  emptyWorld) in
  fst (cache_get e "settings:amocrm:u1" w) = Return (Some (CachedJson (VString "acme")))
  /\ fst (cache_get e "settings:amocrm:u1" (snd (cache_del e "settings:amocrm:u1" w)))
     = Return None.
Proof.
  intros e w. split; [reflexivity|].
  exact (proj1 (cache_del_removes_exactly_the_key e e "settings:amocrm:u1" w
                  eq_refl eq_refl)).
Defined.

(* ===================================================================== *)
(** ** Configuration cache: what is served from Redis and for how long *)
(* ===================================================================== *)

Lemma getCachedSyncRules_spec (e : env) (userId : string) (w : world) :
  redis_up e = true ->
  getCachedSyncRules e userId w =
    match liveLookup e (crm ("sync_rules:" +:+ userId)) (redis w) with
    | Some (CachedRules rules) =>
        (Return rules,
         add_log {| log_level := Info; log_rule := None; log_message := MsgCacheHit |} w)
    | _ =>
        match getSyncRules e userId with
        | Return rules =>
            (Return rules,
             add_log {| log_level := Info; log_rule := None;
                        log_message := MsgCacheStored |}
               (with_redis (insert (crm ("sync_rules:" +:+ userId))
                              {| payload := CachedRules rules;
                                 expires_at := now e + RULES_CACHE_TTL |}) w))
        | Throw ex => (Throw ex, w)
        end
    end.
Proof.
  intros Hup. unfold getCachedSyncRules, bind. rewrite cache_get_spec, Hup.
  destruct (liveLookup e (crm ("sync_rules:" +:+ userId)) (redis w)) as [[rules|v]|];
    try reflexivity.
  all: unfold lift; destruct (getSyncRules e userId) as [rules|ex]; [|reflexivity].
  all: rewrite cache_set_spec, Hup; reflexivity.
Qed.

(** X5: the rules cache is a staleness window of 300 seconds.  After a
    miss has stored a user's rules, every read made before 300 seconds
    have elapsed answers that stored list without consulting the storage
    layer, whatever the storage layer holds by then and even if it fails;
    the first read at or after 300 seconds answers what the storage layer
    answers, its failure included. *)
Theorem rules_cache_staleness_window (e0 e1 : env) (userId : string)
    (rules : list SyncRule) (w : world) :
  redis_up e0 = true -> redis_up e1 = true ->
  fst (cache_get e0 ("sync_rules:" +:+ userId) w) = Return None ->
  getSyncRules e0 userId = Return rules ->
  let w1 := snd (getCachedSyncRules e0 userId w) in
  fst (getCachedSyncRules e0 userId w) = Return rules
  /\ (now e1 < now e0 + 300 -> fst (getCachedSyncRules e1 userId w1) = Return rules)
  /\ (now e0 + 300 <= now e1 ->
      fst (getCachedSyncRules e1 userId w1) = getSyncRules e1 userId).
Proof.
  intros Hup0 Hup1 Hmiss Hdb w1.
  rewrite cache_get_spec, Hup0 in Hmiss. cbn [fst] in Hmiss.
  assert (Hnone : liveLookup e0 (crm ("sync_rules:" +:+ userId)) (redis w) = None)
    by congruence.
  assert (Hw1 : redis w1 = <[crm ("sync_rules:" +:+ userId) :=
                   {| payload := CachedRules rules; expires_at := now e0 + 300 |}]>
                 (redis w)).
  { subst w1. rewrite getCachedSyncRules_spec by exact Hup0.
    rewrite Hnone, Hdb. reflexivity. }
  split; [|split].
  - rewrite getCachedSyncRules_spec by exact Hup0. rewrite Hnone, Hdb. reflexivity.
  - intros Hlt. rewrite getCachedSyncRules_spec by exact Hup1.
    rewrite Hw1, liveLookup_insert_eq. unfold live. cbn [expires_at payload].
    apply Z.ltb_lt in Hlt. rewrite Hlt. reflexivity.
  - intros Hge. rewrite getCachedSyncRules_spec by exact Hup1.
    rewrite Hw1, liveLookup_insert_eq. unfold live. cbn [expires_at payload].
    apply Z.ltb_ge in Hge. rewrite Hge.
    destruct (getSyncRules e1 userId); reflexivity.
Qed.

Lemma rules_cache_staleness_window_witness :
  let e0 := exampleEnv 1000 [stage_rule 1 "lptracker" true] false in
  let w1 := snd (getCachedSyncRules e0 "u1" emptyWorld) in
  fst (getCachedSyncRules (exampleEnv 1299 [] false) "u1" w1)
  = Return [stage_rule 1 "lptracker" true]
  /\ fst (getCachedSyncRules (exampleEnv 1300 [] false) "u1" w1) = Return [].
Proof.
  intros e0 w1.
  pose proof (rules_cache_staleness_window e0 (exampleEnv 1299 [] false) "u1"
                [stage_rule 1 "lptracker" true] emptyWorld
                eq_refl eq_refl eq_refl eq_refl) as H1.
  pose proof (rules_cache_staleness_window e0 (exampleEnv 1300 [] false) "u1"
                [stage_rule 1 "lptracker" true] emptyWorld
                eq_refl eq_refl eq_refl eq_refl) as H2.
  split.
  - apply (proj1 (proj2 H1)). reflexivity.
  - apply (proj2 (proj2 H2)). discriminate.
Defined.

Lemma getCachedSettings_spec (e : env) (st : configStore) (userId : string)
    (type : platform) (w : world) :
  redis_up e = true ->
  getCachedSettings e st userId type w =
    let hit := cachedJson (liveLookup e (crm (settingsKey type userId)) (redis w)) in
    if truthy hit then
      (Return hit,
       add_log {| log_level := Info; log_rule := None; log_message := MsgCacheHit |} w)
    else
      match getSettings st type userId with
      | Return settings =>
          if truthy settings then
            (Return settings,
             add_log {| log_level := Info; log_rule := None;
                        log_message := MsgCacheStored |}
               (with_redis (insert (crm (settingsKey type userId))
                              {| payload := CachedJson settings;
                                 expires_at := now e + SETTINGS_CACHE_TTL |}) w))
          else (Return VNull, w)
      | Throw ex => (Throw ex, w)
      end.
Proof.
  intros Hup. unfold getCachedSettings, bind. fold (settingsKey type userId).
  rewrite cache_get_spec, Hup. cbv zeta.
  destruct (truthy (cachedJson (liveLookup e (crm (settingsKey type userId)) (redis w))));
    [reflexivity|].
  unfold lift. destruct (getSettings st type userId) as [settings|ex]; [|reflexivity].
  destruct (truthy settings); [|reflexivity].
  rewrite cache_set_spec, Hup. reflexivity.
Qed.

Lemma getCachedMetadata_spec (e : env) (st : configStore) (userId : string)
    (type : platform) (metadataType : string) (w : world) :
  redis_up e = true ->
  getCachedMetadata e st userId type metadataType w =
    let key := crm (metadataKey type userId metadataType) in
    let hit := cachedJson (liveLookup e key (redis w)) in
    if truthy hit then
      (Return hit,
       add_log {| log_level := Info; log_rule := None; log_message := MsgCacheHit |} w)
    else
      match getMetadata st type userId metadataType with
      | Return metadata =>
          if truthy metadata then
            match get metadata "data" with
            | Return data =>
                (Return data,
                 add_log {| log_level := Info; log_rule := None;
                            log_message := MsgCacheStored |}
                   (with_redis (insert key
                                  {| payload := CachedJson data;
                                     expires_at := now e + METADATA_CACHE_TTL |}) w))
            | Throw ex => (Throw ex, w)
            end
          else (Return VNull, w)
      | Throw ex => (Throw ex, w)
      end.
Proof.
  intros Hup. unfold getCachedMetadata, bind.
  fold (metadataKey type userId metadataType).
  rewrite cache_get_spec, Hup. cbv zeta.
  destruct (truthy (cachedJson
              (liveLookup e (crm (metadataKey type userId metadataType)) (redis w))));
    [reflexivity|].
  unfold lift. destruct (getMetadata st type userId metadataType) as [metadata|ex];
    [|reflexivity].
  destruct (truthy metadata); [|reflexivity].
  destruct (get metadata "data") as [data|ex]; [|reflexivity].
  rewrite cache_set_spec, Hup. reflexivity.
Qed.

Lemma cachedJson_miss (e : env) (key : string) (w : world) :
  redis_up e = true ->
  fst (cache_get e key w) = Return None ->
  liveLookup e (crm key) (redis w) = None.
Proof.
  intros Hup H. rewrite cache_get_spec, Hup in H. cbn [fst] in H. congruence.
Qed.

(** X6: the settings cache stores a settings row for 600 seconds and never
    stores the absence of one.  When the storage layer has no row the call
    answers [null] and leaves Redis as it was, so every such call reads the
    storage layer again.  When it has one, the row is answered and then
    served from Redis, without a storage read, until 600 seconds have
    elapsed; the first read after that goes to the storage layer. *)
Theorem settings_cache_window (e0 e1 : env) (st0 st1 : configStore)
    (userId : string) (type : platform) (s : value) (w : world) :
  redis_up e0 = true -> redis_up e1 = true ->
  fst (cache_get e0 (settingsKey type userId) w) = Return None ->
  getSettings st0 type userId = Return s ->
  let first := getCachedSettings e0 st0 userId type w in
  (truthy s = false -> first = (Return VNull, w))
  /\ (truthy s = true -> isJson s = true ->
      fst first = Return s
      /\ (now e1 < now e0 + 600 ->
          fst (getCachedSettings e1 st1 userId type (snd first)) = Return s)
      /\ (now e0 + 600 <= now e1 ->
          fst (getCachedSettings e1 st1 userId type (snd first))
          = freshSettings st1 type userId)).
Proof.
  intros Hup0 Hup1 Hmiss Hdb first.
  apply cachedJson_miss in Hmiss; [|exact Hup0].
  assert (Hfirst : first =
            if truthy s then
              (Return s,
               add_log {| log_level := Info; log_rule := None;
                          log_message := MsgCacheStored |}
                 (with_redis (insert (crm (settingsKey type userId))
                                {| payload := CachedJson s;
                                   expires_at := now e0 + 600 |}) w))
            else (Return VNull, w)).
  { subst first. rewrite getCachedSettings_spec by exact Hup0.
    rewrite Hmiss, Hdb. reflexivity. }
  split.
  - intros Hs. rewrite Hfirst, Hs. reflexivity.
  - intros Hs _. rewrite Hfirst, Hs. cbn [fst snd]. split; [reflexivity|].
    split.
    + intros Hlt. rewrite getCachedSettings_spec by exact Hup1.
      cbn [redis add_log with_redis]. rewrite liveLookup_insert_eq.
      unfold live. cbn [expires_at payload]. apply Z.ltb_lt in Hlt. rewrite Hlt.
      cbn [cachedJson]. rewrite Hs. reflexivity.
    + intros Hge. rewrite getCachedSettings_spec by exact Hup1.
      cbn [redis add_log with_redis]. rewrite liveLookup_insert_eq.
      unfold live. cbn [expires_at payload]. apply Z.ltb_ge in Hge. rewrite Hge.
      cbn [cachedJson truthy]. unfold freshSettings.
      destruct (getSettings st1 type userId) as [s'|ex]; [|reflexivity].
      cbn [obind]. destruct (truthy s'); reflexivity.
Qed.

Lemma settings_cache_window_witness :
  let e0 := exampleEnv 1000 [] false in
  let first := getCachedSettings e0 (exampleStore "acme") "u1" OfAmoCrm emptyWorld in
  fst (getCachedSettings (exampleEnv 1599 [] false) (exampleStore "other") "u1" OfAmoCrm
         (snd first))
  = Return (VObject [("subdomain", VString "acme")])
  /\ getCachedSettings e0 (exampleStore "acme") "u1" OfLpTracker emptyWorld
     = (Return VNull, emptyWorld).
Proof.
  intros e0 first.
  pose proof (settings_cache_window e0 (exampleEnv 1599 [] false) (exampleStore "acme")
                (exampleStore "other") "u1" OfAmoCrm
                (VObject [("subdomain", VString "acme")]) emptyWorld
                eq_refl eq_refl eq_refl eq_refl) as H1.
  pose proof (settings_cache_window e0 e0 (exampleStore "acme")
                (exampleStore "acme") "u1" OfLpTracker VUndefined emptyWorld
                eq_refl eq_refl eq_refl eq_refl) as H2.
  split.
  - apply (proj2 H1 eq_refl eq_refl). reflexivity.
  - apply (proj1 H2 eq_refl).
Defined.

(** X7: the metadata cache stores the [data] part of a metadata row, not
    the row, for 1800 seconds.  After a miss on a row with a truthy [data],
    reads made before 1800 seconds have elapsed answer that [data] without
    a storage read; the first read after that goes to the storage layer.
    When the storage layer has no row the call answers [null] and leaves
    Redis as it was. *)
Theorem metadata_cache_window (e0 e1 : env) (st0 st1 : configStore)
    (userId : string) (type : platform) (metadataType : string)
    (row : value) (w : world) :
  redis_up e0 = true -> redis_up e1 = true ->
  fst (cache_get e0 (metadataKey type userId metadataType) w) = Return None ->
  getMetadata st0 type userId metadataType = Return row ->
  let first := getCachedMetadata e0 st0 userId type metadataType w in
  (truthy row = false -> first = (Return VNull, w))
  /\ (forall data,
        truthy row = true -> get row "data" = Return data ->
        truthy data = true -> isJson data = true ->
        fst first = Return data
        /\ (now e1 < now e0 + 1800 ->
            fst (getCachedMetadata e1 st1 userId type metadataType (snd first))
            = Return data)
        /\ (now e0 + 1800 <= now e1 ->
            fst (getCachedMetadata e1 st1 userId type metadataType (snd first))
            = freshMetadata st1 type userId metadataType)).
Proof.
  intros Hup0 Hup1 Hmiss Hdb first.
  apply cachedJson_miss in Hmiss; [|exact Hup0].
  split.
  - intros Hrow. subst first. rewrite getCachedMetadata_spec by exact Hup0.
    cbv zeta. rewrite Hmiss, Hdb. cbn [cachedJson truthy]. rewrite Hrow. reflexivity.
  - intros data Hrow Hdata Htruthy _.
    assert (Hfirst : first =
              (Return data,
               add_log {| log_level := Info; log_rule := None;
                          log_message := MsgCacheStored |}
                 (with_redis (insert (crm (metadataKey type userId metadataType))
                                {| payload := CachedJson data;
                                   expires_at := now e0 + 1800 |}) w))).
    { subst first. rewrite getCachedMetadata_spec by exact Hup0.
      cbv zeta. rewrite Hmiss, Hdb. cbn [cachedJson truthy]. rewrite Hrow, Hdata.
      reflexivity. }
    rewrite Hfirst. cbn [fst snd]. split; [reflexivity|]. split.
    + intros Hlt. rewrite getCachedMetadata_spec by exact Hup1. cbv zeta.
      cbn [redis add_log with_redis]. rewrite liveLookup_insert_eq.
      unfold live. cbn [expires_at payload]. apply Z.ltb_lt in Hlt. rewrite Hlt.
      cbn [cachedJson]. rewrite Htruthy. reflexivity.
    + intros Hge. rewrite getCachedMetadata_spec by exact Hup1. cbv zeta.
      cbn [redis add_log with_redis]. rewrite liveLookup_insert_eq.
      unfold live. cbn [expires_at payload]. apply Z.ltb_ge in Hge. rewrite Hge.
      cbn [cachedJson truthy]. unfold freshMetadata.
      destruct (getMetadata st1 type userId metadataType) as [row'|ex]; [|reflexivity].
      cbn [obind]. destruct (truthy row'); [|reflexivity].
      destruct (get row' "data"); reflexivity.
Qed.

Lemma metadata_cache_window_witness :
  let e0 := exampleEnv 1000 [] false in
  let first := getCachedMetadata e0 (exampleStore "acme") "u1" OfAmoCrm "pipelines"
                 emptyWorld in
  fst first = Return (VArray [VString "Sales"])
  /\ fst (getCachedMetadata (exampleEnv 2799 [] false) failingStore "u1" OfAmoCrm
            "pipelines" (snd first))
     = Return (VArray [VString "Sales"]).
Proof.
  intros e0 first.
  pose proof (metadata_cache_window e0 (exampleEnv 2799 [] false) (exampleStore "acme")
                failingStore "u1" OfAmoCrm "pipelines"
                (VObject [("id", VNumber 1); ("data", VArray [VString "Sales"])])
                emptyWorld eq_refl eq_refl eq_refl eq_refl) as H.
  destruct (proj2 H (VArray [VString "Sales"]) eq_refl eq_refl eq_refl eq_refl)
    as (H1 & H2 & _).
  split; [exact H1 | apply H2; reflexivity].
Defined.

Lemma settingsKey_inj (t t' : platform) (u u' : string) :
  settingsKey t u = settingsKey t' u' -> t = t' /\ u = u'.
Proof.
  intros H. destruct t, t'; cbv [settingsKey platformName append] in H;
    first [discriminate H | injection H as H; split; [reflexivity | exact H]].
Qed.

(** X8: settings are cached per platform and per user.  Reading (and so
    possibly caching) the settings of one user on one platform does not
    change what a read for another user, or for the same user on the other
    platform, answers. *)
Theorem settings_cache_isolation (e0 e1 : env) (st0 st1 : configStore)
    (userId userId' : string) (type type' : platform) (w : world) :
  redis_up e0 = true -> redis_up e1 = true ->
  (type, userId) <> (type', userId') ->
  fst (getCachedSettings e1 st1 userId' type'
         (snd (getCachedSettings e0 st0 userId type w)))
  = fst (getCachedSettings e1 st1 userId' type' w).
Proof.
  intros Hup0 Hup1 Hne.
  assert (Hkey : crm (settingsKey type userId) <> crm (settingsKey type' userId')).
  { intros Heq. apply crm_inj, settingsKey_inj in Heq as [-> ->]. apply Hne. reflexivity. }
  assert (Hlook : liveLookup e1 (crm (settingsKey type' userId'))
                    (redis (snd (getCachedSettings e0 st0 userId type w)))
                  = liveLookup e1 (crm (settingsKey type' userId')) (redis w)).
  { rewrite getCachedSettings_spec by exact Hup0. cbv zeta.
    destruct (truthy (cachedJson (liveLookup e0 (crm (settingsKey type userId)) (redis w))));
      [reflexivity|].
    destruct (getSettings st0 type userId) as [s|ex]; [|reflexivity].
    destruct (truthy s); [|reflexivity].
    cbn [snd redis add_log with_redis].
    apply liveLookup_insert_ne. exact Hkey. }
  rewrite !(getCachedSettings_spec e1) by exact Hup1. cbv zeta. rewrite Hlook.
  destruct (truthy (cachedJson (liveLookup e1 (crm (settingsKey type' userId')) (redis w))));
    [reflexivity|].
  destruct (getSettings st1 type' userId') as [s|ex]; [|reflexivity].
  destruct (truthy s); reflexivity.
Qed.

Lemma settings_cache_isolation_witness :
  fst (getCachedSettings (exampleEnv 1001 [] false) failingStore "u1" OfLpTracker
         (snd (getCachedSettings (exampleEnv 1000 [] false) (exampleStore "acme") "u1"
                 OfAmoCrm emptyWorld)))
  = Throw (JsError "storage: connection refused").
Proof.
  rewrite (settings_cache_isolation (exampleEnv 1000 [] false) (exampleEnv 1001 [] false)
             (exampleStore "acme") failingStore "u1" "u1" OfAmoCrm OfLpTracker
             emptyWorld eq_refl eq_refl); [reflexivity | discriminate].
Defined.

(* ===================================================================== *)
(** ** Invalidation and the reads that follow it *)
(* ===================================================================== *)

Arguments globMatch !p s.

Lemma globMatch_literal_app (lit p s : string) :
  literal lit = true -> globMatch (lit +:+ p) (lit +:+ s) = globMatch p s.
Proof.
  induction lit as [|c lit IH]; intros Hlit; [reflexivity|].
  simpl in Hlit. apply andb_true_iff in Hlit as [Hc Hlit].
  unfold isMeta in Hc. apply negb_true_iff in Hc.
  repeat (apply orb_false_elim in Hc; destruct Hc as [Hc ?]).
  change (String c lit +:+ p) with (String c (lit +:+ p)).
  change (String c lit +:+ s) with (String c (lit +:+ s)).
  cbn [globMatch]. rewrite Hc, H1, H0, H, Ascii.eqb_refl. cbn [andb].
  apply IH. exact Hlit.
Qed.

Arguments globMatch : simpl never.

Lemma globMatch_star_skip (p a b : string) :
  globMatch p b = true -> globMatch (String "*" p) (a +:+ b) = true.
Proof.
  intros Hb. induction a as [|d a IH].
  - change (EmptyString +:+ b) with b.
    destruct b as [|d b].
    + change (globMatch (String "*" p) EmptyString)
        with (globMatch p EmptyString || false). rewrite Hb. reflexivity.
    + change (globMatch (String "*" p) (String d b))
        with (globMatch p (String d b) || globMatch (String "*" p) b).
      rewrite Hb. reflexivity.
  - change (String d a +:+ b) with (String d (a +:+ b)).
    change (globMatch (String "*" p) (String d (a +:+ b)))
      with (globMatch p (String d (a +:+ b)) || globMatch (String "*" p) (a +:+ b)).
    rewrite IH. apply orb_true_r.
Qed.

Lemma liveLookup_none_later (e e1 : env) (k : string) (m : gmap string entry) :
  now e <= now e1 -> liveLookup e k m = None -> liveLookup e1 k m = None.
Proof.
  unfold liveLookup, live. intros Hle H.
  destruct (m !! k) as [x|]; [|reflexivity].
  destruct (now e <? expires_at x) eqn:E; [discriminate|].
  apply Z.ltb_ge in E.
  replace (now e1 <? expires_at x) with false by (symmetry; apply Z.ltb_ge; lia).
  reflexivity.
Qed.

Lemma startsWith_refl (p : string) : startsWith p p = true.
Proof.
  induction p as [|c p IH]; [reflexivity|].
  cbn [startsWith]. rewrite Ascii.eqb_refl. exact IH.
Qed.

Lemma rules_key_flushed_for_user (userId : string) :
  literal userId = true ->
  flushedForUser userId (crm ("sync_rules:" +:+ userId)) = true.
Proof.
  intros Hlit. unfold flushedForUser.
  replace (globMatch (crm ("sync_rules:" +:+ userId +:+ "*"))
             (crm ("sync_rules:" +:+ userId))) with true; [reflexivity|].
  symmetry.
  change (globMatch (("crm:sync_rules:" +:+ userId) +:+ "*")
            ("crm:sync_rules:" +:+ userId) = true).
  rewrite globMatch_literal_prefix by exact Hlit. apply startsWith_refl.
Qed.

Lemma settings_key_flushed_for_user (type : platform) (userId : string) :
  literal userId = true ->
  flushedForUser userId (crm (settingsKey type userId)) = true.
Proof.
  intros Hlit. unfold flushedForUser.
  replace (globMatch (crm ("settings:*:" +:+ userId +:+ "*"))
             (crm (settingsKey type userId))) with true;
    [rewrite !orb_true_r; reflexivity|].
  symmetry.
  change (globMatch ("crm:settings:" +:+ String "*" ((":" +:+ userId) +:+ "*"))
            ("crm:settings:" +:+ (platformName type +:+ (":" +:+ userId))) = true).
  rewrite globMatch_literal_app by reflexivity.
  apply globMatch_star_skip.
  rewrite globMatch_literal_prefix by exact Hlit. apply startsWith_refl.
Qed.

Lemma metadata_key_flushed_for_user (type : platform) (userId metadataType : string) :
  literal userId = true ->
  flushedForUser userId (crm (metadataKey type userId metadataType)) = true.
Proof.
  intros Hlit. unfold flushedForUser.
  replace (globMatch (crm ("metadata:*:" +:+ userId +:+ "*"))
             (crm (metadataKey type userId metadataType))) with true;
    [rewrite !orb_true_r; reflexivity|].
  symmetry.
  change (globMatch ("crm:metadata:" +:+ String "*" ((":" +:+ userId) +:+ "*"))
            ("crm:metadata:"
             +:+ (platformName type
                  +:+ ((":" +:+ userId) +:+ (":" +:+ metadataType)))) = true).
  rewrite globMatch_literal_app by reflexivity.
  apply globMatch_star_skip.
  rewrite globMatch_literal_prefix by exact Hlit. apply startsWith_app.
Qed.

Lemma invalidateUserCache_flushes (e e1 : env) (userId : string) (w : world) (k : string) :
  redis_up e = true -> now e <= now e1 ->
  flushedForUser userId k = true ->
  liveLookup e1 k (redis (snd (invalidateUserCache e userId w))) = None.
Proof.
  intros Hup Hle Hk.
  destruct (four_flushes e ("sync_rules:" +:+ userId +:+ "*")
              ("metadata:*:" +:+ userId +:+ "*") ("settings:*:" +:+ userId +:+ "*")
              ("webhook:" +:+ userId +:+ "*") w Hup) as (w' & E & Hlook & _).
  unfold invalidateUserCache. rewrite E. cbn [snd].
  apply (liveLookup_none_later e e1); [exact Hle|].
  rewrite Hlook. unfold flushedForUser in Hk. rewrite Hk. reflexivity.
Qed.

(** X9: after [invalidateUserCache(userId)], for a user id without glob
    metacharacters and with Redis answering, the next read of that user's
    rules, settings and metadata (of either platform and of any kind) is
    answered by the storage layer, not by Redis. *)
Theorem invalidation_forces_fresh_reads (e e1 : env) (st : configStore)
    (userId : string) (type : platform) (metadataType : string) (w : world) :
  redis_up e = true -> redis_up e1 = true -> now e <= now e1 ->
  literal userId = true ->
  let w' := snd (invalidateUserCache e userId w) in
  fst (getCachedSyncRules e1 userId w') = getSyncRules e1 userId
  /\ fst (getCachedSettings e1 st userId type w') = freshSettings st type userId
  /\ fst (getCachedMetadata e1 st userId type metadataType w')
     = freshMetadata st type userId metadataType.
Proof.
  intros Hup Hup1 Hle Hlit w'. subst w'. split; [|split].
  - rewrite getCachedSyncRules_spec by exact Hup1.
    rewrite (invalidateUserCache_flushes e e1 userId w _ Hup Hle
               (rules_key_flushed_for_user userId Hlit)).
    destruct (getSyncRules e1 userId); reflexivity.
  - rewrite getCachedSettings_spec by exact Hup1. cbv zeta.
    rewrite (invalidateUserCache_flushes e e1 userId w _ Hup Hle
               (settings_key_flushed_for_user type userId Hlit)).
    cbn [cachedJson truthy]. unfold freshSettings.
    destruct (getSettings st type userId) as [s|ex]; [|reflexivity].
    cbn [obind]. destruct (truthy s); reflexivity.
  - rewrite getCachedMetadata_spec by exact Hup1. cbv zeta.
    rewrite (invalidateUserCache_flushes e e1 userId w _ Hup Hle
               (metadata_key_flushed_for_user type userId metadataType Hlit)).
    cbn [cachedJson truthy]. unfold freshMetadata.
    destruct (getMetadata st type userId metadataType) as [row|ex]; [|reflexivity].
    cbn [obind]. destruct (truthy row); [|reflexivity].
    destruct (get row "data"); reflexivity.
Qed.

Lemma invalidation_forces_fresh_reads_witness :
  let e0 := exampleEnv 1000 [stage_rule 1 "lptracker" true] false in
  let e1 := exampleEnv 1010 [] false in
  let cachedWorld := snd (getCachedSettings e0 (exampleStore "acme") "u1" OfAmoCrm
                            (snd (getCachedSyncRules e0 "u1" emptyWorld))) in
  fst (getCachedSyncRules e1 "u1" cachedWorld) = Return [stage_rule 1 "lptracker" true]
  /\ fst (getCachedSyncRules e1 "u1" (snd (invalidateUserCache e1 "u1" cachedWorld)))
     = Return []
  /\ fst (getCachedSettings e1 (exampleStore "renamed") "u1" OfAmoCrm
            (snd (invalidateUserCache e1 "u1" cachedWorld)))
     = Return (VObject [("subdomain", VString "renamed")]).
Proof.
  intros e0 e1 cachedWorld.
  pose proof (invalidation_forces_fresh_reads e1 e1 (exampleStore "renamed") "u1"
                OfAmoCrm "pipelines" cachedWorld eq_refl eq_refl (Z.le_refl _) eq_refl)
    as (H1 & H2 & _).
  split; [reflexivity|]. split; [exact H1 | exact H2].
Defined.

Lemma rules_key_flushed_iff_prefix (userId other : string) :
  literal userId = true ->
  flushedForUser userId (crm ("sync_rules:" +:+ other)) = startsWith userId other.
Proof.
  intros Hlit. unfold flushedForUser.
  replace (globMatch (crm ("metadata:*:" +:+ userId +:+ "*"))
             (crm ("sync_rules:" +:+ other))) with false by reflexivity.
  replace (globMatch (crm ("settings:*:" +:+ userId +:+ "*"))
             (crm ("sync_rules:" +:+ other))) with false by reflexivity.
  replace (globMatch (crm ("webhook:" +:+ userId +:+ "*"))
             (crm ("sync_rules:" +:+ other))) with false by reflexivity.
  rewrite !orb_false_r.
  change (globMatch ("crm:sync_rules:" +:+ (userId +:+ "*"))
            ("crm:sync_rules:" +:+ other) = startsWith userId other).
  rewrite globMatch_literal_app by reflexivity.
  apply globMatch_literal_prefix. exact Hlit.
Qed.

Lemma append_assoc (a b c : string) : (a +:+ b) +:+ c = a +:+ (b +:+ c).
Proof.
  induction a as [|x a IH]; [reflexivity|].
  change (String x ((a +:+ b) +:+ c) = String x (a +:+ (b +:+ c))). rewrite IH. reflexivity.
Qed.

Lemma dedup_key_flushed_for_prefix (userId suffix leadId : string) (ruleId : Z)
    (ts : value) :
  literal userId = true ->
  flushedForUser userId
    (crm (generateWebhookKey (userId +:+ suffix) leadId ruleId ts)) = true.
Proof.
  intros Hlit. unfold flushedForUser.
  replace (globMatch (crm ("webhook:" +:+ userId +:+ "*"))
             (crm (generateWebhookKey (userId +:+ suffix) leadId ruleId ts)))
    with true; [rewrite !orb_true_r; reflexivity|].
  symmetry. unfold generateWebhookKey.
  change (globMatch ("crm:webhook:" +:+ (userId +:+ "*"))
            ("crm:webhook:"
             +:+ ((userId +:+ suffix)
                  +:+ (":" +:+ leadId +:+ ":" +:+ pretty ruleId +:+ ":"
                       +:+ toString (jor ts (VString "default"))))) = true).
  rewrite globMatch_literal_app by reflexivity.
  rewrite globMatch_literal_prefix by exact Hlit.
  rewrite append_assoc. apply startsWith_app.
Qed.

(** X10: [invalidateUserCache] selects keys by prefix, not by user.  For a
    user id without glob metacharacters and with Redis answering, the
    cached rules of another user are erased exactly when the invalidated id
    is a prefix of that user's id (as [u1] is of [u10]), and are left alone
    otherwise; for such a user the dedup markers are erased as well, so
    the dedup check answers [false] for every event of theirs. *)
Theorem user_invalidation_is_by_prefix (e : env) (userId other leadId : string)
    (ruleId : Z) (ts : value) (w : world) :
  redis_up e = true -> literal userId = true ->
  let w' := snd (invalidateUserCache e userId w) in
  fst (cache_get e ("sync_rules:" +:+ other) w')
  = (if startsWith userId other then Return None
     else fst (cache_get e ("sync_rules:" +:+ other) w))
  /\ (startsWith userId other = true ->
      fst (isWebhookAlreadyProcessed e other leadId ruleId ts w') = Return false).
Proof.
  intros Hup Hlit w'.
  destruct (four_flushes e ("sync_rules:" +:+ userId +:+ "*")
              ("metadata:*:" +:+ userId +:+ "*") ("settings:*:" +:+ userId +:+ "*")
              ("webhook:" +:+ userId +:+ "*") w Hup) as (w1 & E & Hlook & _).
  assert (Hw' : w' = w1) by (subst w'; unfold invalidateUserCache; rewrite E; reflexivity).
  rewrite Hw'. split.
  - rewrite !cache_get_spec, Hup. cbn [fst]. rewrite Hlook.
    fold (flushedForUser userId (crm ("sync_rules:" +:+ other))).
    rewrite rules_key_flushed_iff_prefix by exact Hlit.
    destruct (startsWith userId other); reflexivity.
  - intros Hpre.
    assert (Hsplit : exists suffix, other = userId +:+ suffix).
    { clear -Hpre. revert other Hpre.
      induction userId as [|c u IH]; intros other Hpre.
      - exists other. reflexivity.
      - destruct other as [|d other]; [discriminate|].
        cbn [startsWith] in Hpre. apply andb_true_iff in Hpre as [Hc Hrest].
        apply Ascii.eqb_eq in Hc. subst d.
        destruct (IH other Hrest) as (suffix & ->). exists suffix. reflexivity. }
    destruct Hsplit as (suffix & ->).
    rewrite isWebhookAlreadyProcessed_spec. cbn [fst]. f_equal.
    apply keyLive_none. rewrite Hlook.
    fold (flushedForUser userId
            (crm (generateWebhookKey (userId +:+ suffix) leadId ruleId ts))).
    rewrite dedup_key_flushed_for_prefix by exact Hlit. reflexivity.
Qed.

Lemma user_invalidation_is_by_prefix_witness :
  let e := exampleEnv 1000 [stage_rule 1 "lptracker" true] false in
  let w := snd (getCachedSyncRules e "u2" (snd (getCachedSyncRules e "u10" emptyWorld))) in
  let w' := snd (invalidateUserCache e "u1" w) in
  fst (cache_get e "sync_rules:u10" w) = Return (Some (CachedRules [stage_rule 1 "lptracker" true]))
  /\ fst (cache_get e "sync_rules:u10" w') = Return None
  /\ fst (cache_get e "sync_rules:u2" w')
     = Return (Some (CachedRules [stage_rule 1 "lptracker" true])).
Proof.
  intros e w w'. split; [reflexivity|]. split.
  - exact (proj1 (user_invalidation_is_by_prefix e "u1" "u10" "55" 1 VUndefined w
                    eq_refl eq_refl)).
  - exact (proj1 (user_invalidation_is_by_prefix e "u1" "u2" "55" 1 VUndefined w
                    eq_refl eq_refl)).
Defined.

(* ===================================================================== *)
(** ** Deliveries that end before any rule is read *)
(* ===================================================================== *)

Lemma agree_refl (w : world) : agree w w.
Proof. repeat split. Qed.

Lemma agree_log (w w' : world) (en : logEntry) : agree w w' -> agree w (add_log en w').
Proof. intros (R & X & D). repeat split; assumption. Qed.

Lemma findUserByProjectId_spec (e : env) (projectId : value) (w : world) :
  findUserByProjectId e projectId w =
    match getAllLpTrackerSettings e with
    | Return all =>
        (Return (option_map lp_userId
                   (List.find (fun s => strictEq (lp_projectId s)
                                          (VString (toString projectId))) all)), w)
    | Throw _ =>
        (Return None,
         add_log {| log_level := Failure; log_rule := None; log_message := MsgNoUser |} w)
    end.
Proof.
  unfold findUserByProjectId, tryCatch, bind, lift.
  destruct (getAllLpTrackerSettings e); reflexivity.
Qed.

Lemma processLpTrackerData_unowned (e : env) (webhookData : value) (w : world) :
  lpUnowned e webhookData ->
  exists w', processLpTrackerData e webhookData w = (Return tt, w') /\ agree w w'.
Proof.
  intros [pid Hpid Hfalsy | pid ex Hpid Htruthy Hall | pid all Hpid Htruthy Hall Hnone];
    unfold processLpTrackerData, bind, lift; rewrite Hpid; cbn [logService modify].
  - rewrite Hfalsy. cbn [negb]. eexists. split; [reflexivity|].
    apply agree_log, agree_log, agree_refl.
  - rewrite Htruthy. cbn [negb]. rewrite findUserByProjectId_spec, Hall.
    eexists. split; [reflexivity|]. apply agree_log, agree_log, agree_log, agree_refl.
  - rewrite Htruthy. cbn [negb]. rewrite findUserByProjectId_spec, Hall.
    destruct (option_map lp_userId _) as [user|]; [rewrite Hnone|];
      (eexists; split; [reflexivity|]); apply agree_log, agree_log, agree_refl.
Qed.

Lemma jobHandler_completes (process : M unit) (w w' : world) :
  process w = (Return tt, w') ->
  jobHandler process w =
    (Return true,
     add_log {| log_level := Info; log_rule := None; log_message := MsgJobDone |} w').
Proof. intros H. unfold jobHandler, tryCatch, bind. rewrite H. reflexivity. Qed.

Lemma jobHandler_fails (process : M unit) (ex : exn) (w w' : world) :
  process w = (Throw ex, w') ->
  jobHandler process w =
    (Throw ex,
     add_log {| log_level := Failure; log_rule := None; log_message := MsgJobError |} w').
Proof. intros H. unfold jobHandler, tryCatch, bind. rewrite H. reflexivity. Qed.

(** X11: an LPTracker delivery whose [data] string does not parse, or
    whose event has no [project_id], or whose project belongs to no user
    (or the settings cannot be read), is dropped: processing returns
    normally, the queue handler answers [{ processed: true }] so the job is
    completed and not retried, and nothing but the journal changes: no
    Redis key, no counter, no adapter call. *)
Theorem lptracker_dropped_delivery_completes (e : env) (payload : value) (w : world) :
  lpDropped e payload ->
  exists w', lptrackerWebhookJob e payload w = (Return true, w') /\ agree w w'.
Proof.
  intros Hdrop.
  assert (H : exists w', processLpTrackerWebhookDirect e payload w = (Return tt, w')
                         /\ agree w w').
  { unfold processLpTrackerWebhookDirect, tryCatch, bind, lift.
    destruct Hdrop as [data ex Hdata Hstr Hparse
                      | data webhookData Hdata Hstr Hparse Hun
                      | data Hdata Hstr Hun]; rewrite Hdata, Hstr.
    - rewrite Hparse. eexists. split; [reflexivity|]. apply agree_log, agree_refl.
    - rewrite Hparse.
      destruct (processLpTrackerData_unowned e webhookData w Hun) as (w' & -> & Hag).
      eauto.
    - destruct (processLpTrackerData_unowned e payload w Hun) as (w' & -> & Hag).
      eauto. }
  destruct H as (w' & E & Hag). eexists. split.
  - unfold lptrackerWebhookJob. apply jobHandler_completes. exact E.
  - apply agree_log. exact Hag.
Qed.

Lemma lptracker_dropped_delivery_completes_witness :
  exists w',
    lptrackerWebhookJob (exampleEnv 1000 [stage_rule 1 "lptracker" true] false)
      (VObject [("project_id", VNumber 78); ("id", VNumber 55);
                ("stage_id", VNumber 142)]) emptyWorld = (Return true, w')
    /\ agree emptyWorld w'.
Proof.
  apply lptracker_dropped_delivery_completes.
  apply (LpPlainUnowned _ _ VUndefined); [reflexivity | reflexivity |].
  apply (LpUnknownProject _ _ (VNumber 78)
           [{| lp_userId := "u1"; lp_projectId := VString "77" |}]); reflexivity.
Defined.

Lemma findUserBySubdomain_spec (e : env) (subdomain : value) (w : world) :
  findUserBySubdomain e subdomain w =
    (Return match (let* users := allUsers e in
                   firstUserWithSubdomain e subdomain users) with
            | Return user => user
            | Throw _ => None
            end, w).
Proof.
  unfold findUserBySubdomain, tryCatch, bind, lift, ret.
  destruct (allUsers e) as [users|ex]; [|reflexivity].
  cbn [obind]. destruct (firstUserWithSubdomain e subdomain users); reflexivity.
Qed.

Lemma get_returns_is_defined (v : value) (k : string) (r : value) :
  get v k = Return r -> isUndefined v = false.
Proof. destruct v; try reflexivity. discriminate. Qed.

(** X12: an AmoCRM delivery that names no account subdomain, or whose
    subdomain belongs to no user (or the users or their settings cannot be
    read), or that names no lead, is dropped: processing returns normally,
    the queue handler answers [{ processed: true }] so the job is completed
    and not retried, and nothing but the journal changes. *)
Theorem amocrm_dropped_delivery_completes (e : env) (payload : value) (w : world) :
  amoDropped e payload ->
  exists w', amocrmWebhookJob e payload w = (Return true, w') /\ agree w w'.
Proof.
  intros Hdrop.
  assert (H : exists w', processAmoCrmWebhookDirect e payload w = (Return tt, w')
                         /\ agree w w').
  { unfold processAmoCrmWebhookDirect, tryCatch, bind, lift.
    destruct Hdrop as [sub Hsub Hfalsy
                      | sub ex Hsub Htruthy Husers
                      | sub user Hsub Htruthy Husers Hno
                      | sub user leadId Hsub Htruthy Husers Hyes Hlead Hfalsy];
      rewrite (get_returns_is_defined _ _ _ Hsub); cbn [ret logService modify];
      rewrite Hsub.
    - rewrite Hfalsy. cbn [negb]. eexists. split; [reflexivity|].
      apply agree_log, agree_log, agree_refl.
    - rewrite Htruthy. cbn [negb]. rewrite findUserBySubdomain_spec, Husers.
      eexists. split; [reflexivity|]. apply agree_log, agree_log, agree_refl.
    - rewrite Htruthy. cbn [negb]. rewrite findUserBySubdomain_spec, Husers.
      destruct user as [user|]; [rewrite Hno|];
        (eexists; split; [reflexivity|]); apply agree_log, agree_log, agree_refl.
    - rewrite Htruthy. cbn [negb]. rewrite findUserBySubdomain_spec, Husers.
      rewrite Hyes, Hlead, Hfalsy. cbn [negb].
      eexists. split; [reflexivity|]. apply agree_log, agree_log, agree_refl. }
  destruct H as (w' & E & Hag). eexists. split.
  - unfold amocrmWebhookJob. apply jobHandler_completes. exact E.
  - apply agree_log. exact Hag.
Qed.

Lemma amocrm_dropped_delivery_completes_witness :
  exists w',
    amocrmWebhookJob (exampleEnv 1000 [stage_rule 1 "amocrm" true] false)
      (VObject [("account[subdomain]", VString "unknown");
                ("leads[status][0][id]", VString "55")]) emptyWorld = (Return true, w')
    /\ agree emptyWorld w'.
Proof.
  apply amocrm_dropped_delivery_completes.
  apply (AmoUnknownSubdomain _ _ (VString "unknown") None); reflexivity.
Defined.

(* ===================================================================== *)
(** ** When the rules cannot be read *)
(* ===================================================================== *)

Lemma processLpTrackerData_owned (e : env) (webhookData : value) (user : string)
    (w : world) :
  lpOwnedBy e webhookData user ->
  processLpTrackerData e webhookData w =
    (do* syncRules := getCachedSyncRules e user in
     lpRules e user webhookData syncRules)
      (add_log {| log_level := Info; log_rule := None; log_message := MsgWebhookStart |}
         (add_log {| log_level := Info; log_rule := None;
                     log_message := MsgWebhookStart |} w)).
Proof.
  intros (pid & all & s & Hpid & Htruthy & Hall & Hfind & Huser & Hne).
  unfold processLpTrackerData. unfold bind at 1. unfold lift. rewrite Hpid.
  unfold bind at 1. cbn [logService modify]. rewrite Htruthy. cbn [negb].
  unfold bind at 1. rewrite findUserByProjectId_spec, Hall, Hfind.
  cbn [option_map]. rewrite Huser.
  assert (Hno : noUser (Some user) = false).
  { cbn [noUser]. apply String.eqb_neq. exact Hne. }
  rewrite Hno. unfold bind at 1. reflexivity.
Qed.

Lemma processLpTrackerWebhookDirect_decoded (e : env) (payload webhookData : value)
    (w : world) :
  lpDecoded e payload webhookData ->
  processLpTrackerWebhookDirect e payload w =
    tryCatch (processLpTrackerData e webhookData)
      (fun error => logService Failure None MsgWebhookError ;;; raise error) w.
Proof.
  intros (data & Hdata & Hdec).
  unfold processLpTrackerWebhookDirect, tryCatch. unfold bind at 1. unfold lift.
  rewrite Hdata. destruct (truthy data && isString data).
  - rewrite Hdec. reflexivity.
  - subst webhookData. reflexivity.
Qed.

(** X13: the two paths treat a failure to read the rules differently.  On
    the LPTracker path, when the rules are not in Redis and the storage
    layer fails, the failure leaves [processLpTrackerWebhookDirect] and the
    queue handler, so the job fails and is retried; on the AmoCRM path
    [processLeadRules] catches the same failure and returns normally.  On
    both, nothing but the journal changes. *)
Theorem rules_storage_failure (e : env) (payload webhookData : value) (user : string)
    (ex : exn) (leadId leadDetails : value) (contactsDetails : list value)
    (originalPayload : value) (w : world) :
  lpDecoded e payload webhookData ->
  lpOwnedBy e webhookData user ->
  fst (cache_get e ("sync_rules:" +:+ user) w) = Return None ->
  getSyncRules e user = Throw ex ->
  (exists w', lptrackerWebhookJob e payload w = (Throw ex, w') /\ agree w w')
  /\ (exists w', processLeadRules e user leadId leadDetails contactsDetails
                   originalPayload w = (Return tt, w') /\ agree w w').
Proof.
  intros Hdec Hown Hmiss Hdb. split.
  - assert (Hrules : forall w0, redis w0 = redis w ->
              getCachedSyncRules e user w0 = (Throw ex, w0)).
    { intros w0 Hr. unfold getCachedSyncRules. unfold bind at 1.
      rewrite cache_get_spec in Hmiss. cbn [fst] in Hmiss.
      rewrite cache_get_spec, Hr.
      replace (if redis_up e then liveLookup e (crm ("sync_rules:" +:+ user)) (redis w)
               else None) with (@None cached) by congruence.
      unfold bind, lift. rewrite Hdb. reflexivity. }
    eexists. split.
    + unfold lptrackerWebhookJob. apply jobHandler_fails.
      rewrite (processLpTrackerWebhookDirect_decoded e payload webhookData w Hdec).
      unfold tryCatch. rewrite (processLpTrackerData_owned e webhookData user w Hown).
      unfold bind at 1. rewrite Hrules by reflexivity.
      unfold bind, raise. cbn [logService modify]. reflexivity.
    + apply agree_log, agree_log, agree_log, agree_log, agree_refl.
  - eexists. split.
    + unfold processLeadRules, tryCatch. unfold bind at 1. unfold lift. rewrite Hdb.
      cbn [logService modify]. reflexivity.
    + apply agree_log, agree_refl.
Qed.

Lemma rules_storage_failure_witness :
  (exists w', lptrackerWebhookJob (noRulesEnv 1000 true) stage_event emptyWorld
              = (Throw (JsError "storage: connection refused"), w')
              /\ agree emptyWorld w')
  /\ (exists w', processLeadRules (noRulesEnv 1000 true) "u1" (VString "55")
                   (VObject [("name", VString "Deal")]) [] (VObject []) emptyWorld
                 = (Return tt, w')
                 /\ agree emptyWorld w').
Proof.
  apply (rules_storage_failure (noRulesEnv 1000 true) stage_event stage_event "u1").
  - exists VUndefined. split; reflexivity.
  - exists (VNumber 77), [{| lp_userId := "u1"; lp_projectId := VString "77" |}],
      {| lp_userId := "u1"; lp_projectId := VString "77" |}.
    repeat split; try reflexivity. discriminate.
  - reflexivity.
  - reflexivity.
Defined.


(* ===================================================================== *)
(** ** The life of a dedup marker *)
(* ===================================================================== *)

Lemma executeActions_keeps_counts (e : env) (actionsV eventData : value) (w : world)
    (ruleId : Z) :
  executionCount (snd (executeActions e actionsV eventData w)) ruleId
  = executionCount w ruleId.
Proof.
  unfold executionCount.
  rewrite (proj2 (executeActions_frame e actionsV eventData w)). reflexivity.
Qed.

(** X15: a dedup marker suppresses for exactly 600 seconds.  Take a rule
    that an LPTracker delivery executes at time [t0] (conditions match, not
    yet marked, relevant).  The same event delivered again is skipped, with
    the counter left alone and no adapter call, as long as fewer than 600
    seconds have passed; delivered at [t0 + 600] or later it is executed
    again: the actions run, the marker is written anew and the counter is
    incremented a second time. *)
Theorem dedup_marker_expires_after_600s (e0 e1 : env) (userId : string)
    (webhookData : value) (rule : SyncRule) (id ts : value) (w : world) :
  checkConditions (conditions rule) webhookData = true ->
  get webhookData "id" = Return id ->
  get webhookData "action_timestamp" = Return ts ->
  isWebhookRelevant webhookData rule = Return true ->
  redis_up e0 = true -> redis_up e1 = true ->
  incrementRuleExecution e0 (rule_id rule) = None ->
  incrementRuleExecution e1 (rule_id rule) = None ->
  let key := generateWebhookKey userId (toString id) (rule_id rule) ts in
  keyLive e0 key w = false ->
  let w1 := snd (lpRule e0 userId webhookData rule w) in
  let w2 := snd (lpRule e1 userId webhookData rule w1) in
  executionCount w1 (rule_id rule) = S (executionCount w (rule_id rule))
  /\ (now e1 < now e0 + 600 ->
      w2 = add_log (entryOf Info rule MsgRuleAlreadyProcessed) w1)
  /\ (now e0 + 600 <= now e1 ->
      w2 = with_executions (bump (rule_id rule))
             (with_redis (insert (crm key) (marker e1))
                (snd (executeActions e1 (actions rule) (lpEventData userId webhookData)
                        (add_log (entryOf Info rule MsgRuleApplicable) w1))))
      /\ executionCount w2 (rule_id rule) = S (S (executionCount w (rule_id rule)))).
Proof.
  intros Hmatch Hid Hts Hrel Hup0 Hup1 Hinc0 Hinc1 key Hfresh w1 w2.
  pose proof (lpRule_executes e0 userId webhookData rule id ts Hmatch Hid Hts w
                Hfresh Hrel) as Hrun.
  cbv zeta in Hrun. rewrite Hup0, Hinc0 in Hrun.
  assert (Hw1 : w1 = with_executions (bump (rule_id rule))
             (with_redis (insert (crm key) (marker e0))
                (snd (executeActions e0 (actions rule) (lpEventData userId webhookData)
                        (add_log (entryOf Info rule MsgRuleApplicable) w))))).
  { subst w1. rewrite Hrun. reflexivity. }
  assert (Hcount1 : executionCount w1 (rule_id rule) = S (executionCount w (rule_id rule))).
  { rewrite Hw1, executionCount_bump. f_equal.
    change (executionCount
              (snd (executeActions e0 (actions rule) (lpEventData userId webhookData)
                      (add_log (entryOf Info rule MsgRuleApplicable) w))) (rule_id rule)
            = executionCount w (rule_id rule)).
    rewrite executeActions_keeps_counts. reflexivity. }
  assert (Hlook : redis w1 !! crm key = Some (marker e0)).
  { rewrite Hw1. cbn [redis with_executions with_redis]. apply lookup_insert_eq. }
  split; [exact Hcount1|]. split.
  - intros Hlt.
    assert (Hlive : keyLive e1 key w1 = true).
    { unfold keyLive, liveLookup. rewrite Hup1, Hlook. unfold live, marker.
      cbn [expires_at]. change WEBHOOK_DEDUP_TTL with 600.
      apply Z.ltb_lt in Hlt. rewrite Hlt. reflexivity. }
    subst w2.
    rewrite (lpRule_already e1 userId webhookData rule id ts Hmatch Hid Hts w1 Hlive).
    reflexivity.
  - intros Hge.
    assert (Hdead : keyLive e1 key w1 = false).
    { apply keyLive_none. unfold liveLookup. rewrite Hlook. unfold live, marker.
      cbn [expires_at]. change WEBHOOK_DEDUP_TTL with 600.
      apply Z.ltb_ge in Hge. rewrite Hge. reflexivity. }
    pose proof (lpRule_executes e1 userId webhookData rule id ts Hmatch Hid Hts w1
                  Hdead Hrel) as Hrun1.
    cbv zeta in Hrun1. rewrite Hup1, Hinc1 in Hrun1.
    assert (Hw2 : w2 = with_executions (bump (rule_id rule))
             (with_redis (insert (crm key) (marker e1))
                (snd (executeActions e1 (actions rule) (lpEventData userId webhookData)
                        (add_log (entryOf Info rule MsgRuleApplicable) w1))))).
    { subst w2. rewrite Hrun1. reflexivity. }
    split; [exact Hw2|].
    rewrite Hw2, executionCount_bump. f_equal.
    change (executionCount
              (snd (executeActions e1 (actions rule) (lpEventData userId webhookData)
                      (add_log (entryOf Info rule MsgRuleApplicable) w1))) (rule_id rule)
            = S (executionCount w (rule_id rule))).
    rewrite executeActions_keeps_counts. exact Hcount1.
Qed.

Lemma dedup_marker_expires_after_600s_witness :
  let rule := stage_rule 1 "lptracker" true in
  let w1 := snd (lpRule (exampleEnv 1000 [] false) "u1" stage_event rule emptyWorld) in
  executionCount (snd (lpRule (exampleEnv 1599 [] false) "u1" stage_event rule w1)) 1
  = 1%nat
  /\ executionCount (snd (lpRule (exampleEnv 1600 [] false) "u1" stage_event rule w1)) 1
     = 2%nat.
Proof.
  intros rule w1. subst w1.
  pose proof (dedup_marker_expires_after_600s (exampleEnv 1000 [] false)
                (exampleEnv 1599 [] false) "u1" stage_event rule
                (VNumber 55) (VNumber 1700000000) emptyWorld
                eq_refl eq_refl eq_refl eq_refl eq_refl eq_refl eq_refl eq_refl
                eq_refl) as (_ & Hbefore & _).
  pose proof (dedup_marker_expires_after_600s (exampleEnv 1000 [] false)
                (exampleEnv 1600 [] false) "u1" stage_event rule
                (VNumber 55) (VNumber 1700000000) emptyWorld
                eq_refl eq_refl eq_refl eq_refl eq_refl eq_refl eq_refl eq_refl
                eq_refl) as (_ & _ & Hafter).
  split.
  - cbv zeta in Hbefore. rewrite (Hbefore eq_refl). reflexivity.
  - exact (proj2 (Hafter ltac:(discriminate))).
Defined.

(** X16: while Redis does not answer there is no deduplication.  On the
    AmoCRM path a rule whose conditions match is executed on every
    delivery of the same event, however close together: after [n]
    deliveries its counter has grown by [n], and Redis holds what it held
    before. *)
Theorem redis_outage_disables_dedup (e : env) (userId : string)
    (leadId leadDetails : value) (contactsDetails : list value)
    (originalPayload : value) (rule : SyncRule) (w : world) (n : nat) :
  is_nullish leadDetails = false ->
  checkConditions (conditions rule)
    (amoEventData userId leadId leadDetails contactsDetails originalPayload) = true ->
  redis_up e = false ->
  incrementRuleExecution e (rule_id rule) = None ->
  let deliver := fun w0 =>
    snd (amoRule e userId leadId leadDetails contactsDetails originalPayload rule w0) in
  executionCount (Nat.iter n deliver w) (rule_id rule)
  = (n + executionCount w (rule_id rule))%nat
  /\ redis (Nat.iter n deliver w) = redis w.
Proof.
  intros Hlead Hmatch Hdown Hinc deliver.
  assert (Hstep : forall w0,
            executionCount (deliver w0) (rule_id rule)
            = S (executionCount w0 (rule_id rule))
            /\ redis (deliver w0) = redis w0).
  { intros w0. subst deliver. cbv beta.
    assert (Hdead : keyLive e (generateWebhookKey userId (toString leadId)
                                 (rule_id rule) VUndefined) w0 = false).
    { unfold keyLive. rewrite Hdown. reflexivity. }
    pose proof (amoRule_executes e userId leadId leadDetails contactsDetails
                  originalPayload rule Hlead Hmatch w0 Hdead) as Hrun.
    cbv zeta in Hrun. rewrite Hdown, Hinc in Hrun. rewrite Hrun. cbn [snd].
    split.
    - rewrite executionCount_bump. f_equal.
      rewrite executeActions_keeps_counts. reflexivity.
    - cbn [redis with_executions].
      rewrite (proj1 (executeActions_frame _ _ _ _)). reflexivity. }
  induction n as [|n [IHc IHr]].
  - split; reflexivity.
  - change (Nat.iter (S n) deliver w) with (deliver (Nat.iter n deliver w)).
    destruct (Hstep (Nat.iter n deliver w)) as [Hc Hr].
    split.
    + rewrite Hc, IHc. reflexivity.
    + rewrite Hr. exact IHr.
Qed.

Lemma redis_outage_disables_dedup_witness :
  let rule := stage_rule 1 "amocrm" true in
  let deliver := fun w0 =>
    snd (amoRule (downEnv 1000 []) "u1" (VString "55")
           (VObject [("name", VString "Deal"); ("status_id", VNumber 142)])
           [] (VObject []) rule w0) in
  executionCount (Nat.iter 3 deliver emptyWorld) 1 = 3%nat.
Proof.
  intros rule deliver.
  exact (proj1 (redis_outage_disables_dedup (downEnv 1000 []) "u1" (VString "55")
                  (VObject [("name", VString "Deal"); ("status_id", VNumber 142)])
                  [] (VObject []) rule emptyWorld 3 eq_refl eq_refl eq_refl eq_refl)).
Defined.


(* ===================================================================== *)
(** ** Dedup keys are unambiguous *)
(* ===================================================================== *)

Lemma split_at_colon (a a' b b' : string) :
  colonFree a = true -> colonFree a' = true ->
  a +:+ String ":" b = a' +:+ String ":" b' -> a = a' /\ b = b'.
Proof.
  revert a'. induction a as [|c a IH]; intros [|c' a'] Ha Ha' H.
  - injection H as H. split; [reflexivity | exact H].
  - cbv [append] in H. fold append in H. injection H as Hc _.
    subst c'. simpl in Ha'. discriminate.
  - cbv [append] in H. fold append in H. injection H as Hc _.
    subst c. simpl in Ha. discriminate.
  - change (String c (a +:+ String ":" b) = String c' (a' +:+ String ":" b')) in H.
    injection H as Hc H. subst c'.
    simpl in Ha, Ha'. apply andb_true_iff in Ha as [_ Ha].
    apply andb_true_iff in Ha' as [_ Ha'].
    destruct (IH a' Ha Ha' H) as [-> ->]. split; reflexivity.
Qed.

Lemma pretty_N_char_no_colon (x : N) : is_char (pretty_N_char x) ":" = false.
Proof. unfold pretty_N_char. repeat case_match; reflexivity. Qed.

Lemma pretty_N_go_colonFree (x : N) (s : string) :
  colonFree s = true -> colonFree (pretty_N_go x s) = true.
Proof.
  revert s. induction (N.lt_wf_0 x) as [x _ IH]; intros s Hs.
  assert (Hx : (x = 0 \/ 0 < x)%N) by lia. destruct Hx as [-> | Hx].
  - rewrite pretty_N_go_0. exact Hs.
  - rewrite pretty_N_go_step by exact Hx. apply IH.
    + apply N.div_lt; [exact Hx | reflexivity].
    + cbn [colonFree]. rewrite pretty_N_char_no_colon. exact Hs.
Qed.

Lemma pretty_Z_colonFree (n : Z) : colonFree (pretty n) = true.
Proof.
  assert (HN : forall x : N, colonFree (pretty x) = true).
  { intros x. unfold pretty, pretty_N. destruct (decide (x = 0%N)); [reflexivity|].
    apply pretty_N_go_colonFree. reflexivity. }
  destruct n as [|p|p]; [reflexivity | apply (HN (Npos p)) |].
  change (colonFree (String "-" (pretty (Npos p))) = true).
  cbn [colonFree]. apply (HN (Npos p)).
Qed.

(** X18: dedup keys are unambiguous.  When the user ids and the lead ids
    contain no colon, two executions share a dedup key only if they are
    executions of the same rule for the same user and the same lead, with
    the same last component (the timestamp as a string, or ["default"]):
    one rule, lead or user never suppresses another. *)
Theorem dedup_key_injective (userId userId' leadId leadId' : string)
    (ruleId ruleId' : Z) (ts ts' : value) :
  colonFree userId = true -> colonFree userId' = true ->
  colonFree leadId = true -> colonFree leadId' = true ->
  generateWebhookKey userId leadId ruleId ts
  = generateWebhookKey userId' leadId' ruleId' ts' ->
  userId = userId' /\ leadId = leadId' /\ ruleId = ruleId'
  /\ toString (jor ts (VString "default")) = toString (jor ts' (VString "default")).
Proof.
  intros Hu Hu' Hl Hl' H. unfold generateWebhookKey in H.
  apply (inj (String.append "webhook:")) in H.
  change (userId +:+ String ":" (leadId +:+ ":" +:+ pretty ruleId +:+ ":"
                                 +:+ toString (jor ts (VString "default")))
          = userId' +:+ String ":" (leadId' +:+ ":" +:+ pretty ruleId' +:+ ":"
                                    +:+ toString (jor ts' (VString "default")))) in H.
  apply split_at_colon in H as [-> H]; [|assumption..].
  change (leadId +:+ String ":" (pretty ruleId +:+ ":"
                                 +:+ toString (jor ts (VString "default")))
          = leadId' +:+ String ":" (pretty ruleId' +:+ ":"
                                    +:+ toString (jor ts' (VString "default")))) in H.
  apply split_at_colon in H as [-> H]; [|assumption..].
  change (pretty ruleId +:+ String ":" (toString (jor ts (VString "default")))
          = pretty ruleId' +:+ String ":" (toString (jor ts' (VString "default")))) in H.
  apply split_at_colon in H as [Hr H]; [|apply pretty_Z_colonFree..].
  apply (inj pretty) in Hr. subst ruleId'. repeat split. exact H.
Qed.

Lemma dedup_key_injective_witness :
  generateWebhookKey "u1" "55" 1 VUndefined
  = generateWebhookKey "u1" "55" 1 (VString "default")
  /\ ("u1" = "u1" /\ "55" = "55" /\ 1 = 1
      /\ toString (jor VUndefined (VString "default"))
         = toString (jor (VString "default") (VString "default"))).
Proof.
  split; [reflexivity|].
  exact (dedup_key_injective "u1" "u1" "55" "55" 1 1 VUndefined (VString "default")
           eq_refl eq_refl eq_refl eq_refl eq_refl).
Defined.

(* ===================================================================== *)
(** ** Which rules the AmoCRM path runs *)
(* ===================================================================== *)

Lemma preserves_forEach_In {A} P (body : A -> M unit) (items : list A) :
  (forall x, In x items -> preserves P (body x)) -> preserves P (forEach body items).
Proof.
  induction items as [|x rest IH]; intros Hb; cbn [forEach].
  - apply preserves_ret.
  - apply preserves_bind.
    + apply Hb. left. reflexivity.
    + intros _. apply IH. intros y Hy. apply Hb. right. exact Hy.
Qed.

Lemma amoRule_preserves_within P e userId leadId leadDetails contactsDetails payload rule :
  quiet P ->
  (forall w, P w ->
     P (with_redis (insert (crm (generateWebhookKey userId (toString leadId)
                                   (rule_id rule) VUndefined)) (marker e)) w)) ->
  (forall w, P w -> P (with_executions (bump (rule_id rule)) w)) ->
  preserves P (amoRule e userId leadId leadDetails contactsDetails payload rule).
Proof.
  intros HQ Hmark Hbump.
  assert (Hm : preserves P (markWebhookProcessedInRedis e userId (toString leadId)
                              (rule_id rule) VUndefined)).
  { intros w H. rewrite markWebhookProcessedInRedis_spec. cbn [snd].
    destruct (redis_up e); [apply Hmark; exact H | exact H]. }
  assert (Hi : preserves P (storage_incrementRuleExecution e (rule_id rule))).
  { unfold storage_incrementRuleExecution.
    destruct (incrementRuleExecution e (rule_id rule));
      [apply preserves_raise | apply preserves_modify; exact Hbump]. }
  unfold amoRule, amoRule_try, isWebhookAlreadyProcessed.
  repeat first [ apply preserves_cache_exists
               | apply executeActions_preserves; assumption
               | exact Hm
               | exact Hi
               | step_method ].
Qed.

Lemma amo_keys_differ (userId leadId : string) (r r' : Z) :
  r <> r' ->
  crm (generateWebhookKey userId leadId r VUndefined)
  <> crm (generateWebhookKey userId leadId r' VUndefined).
Proof.
  intros Hne H. apply crm_inj in H. unfold generateWebhookKey in H.
  apply (inj (String.append "webhook:")) in H.
  apply (inj (String.append userId)) in H.
  apply (inj (String.append ":")) in H.
  apply (inj (String.append leadId)) in H.
  apply (inj (String.append ":")) in H.
  change (pretty r +:+ String ":" "default" = pretty r' +:+ String ":" "default") in H.
  apply split_at_colon in H as [H _]; [|apply pretty_Z_colonFree..].
  apply (inj pretty) in H. contradiction.
Qed.

(** X19: the AmoCRM path runs only the active rules whose source is
    [amocrm].  A rule id that belongs to no such rule of the user (because
    the rule is inactive, or has another source, or does not exist) is
    left alone by [processLeadRules]: its execution counter and its dedup
    key for the lead are what they were.  When the user has no active
    AmoCRM rule at all, no adapter is called. *)
Theorem amocrm_path_runs_only_active_amocrm_rules (e : env) (userId : string)
    (leadId leadDetails : value) (contactsDetails : list value)
    (originalPayload : value) (rules : list SyncRule) (ruleId : Z) (w : world) :
  getSyncRules e userId = Return rules ->
  (forall rule, In rule rules -> rule_id rule = ruleId ->
     webhookSource rule <> "amocrm" \/ isActive rule = false) ->
  let w' := snd (processLeadRules e userId leadId leadDetails contactsDetails
                   originalPayload w) in
  let key := crm (generateWebhookKey userId (toString leadId) ruleId VUndefined) in
  executionCount w' ruleId = executionCount w ruleId
  /\ redis w' !! key = redis w !! key
  /\ (activeAmoCrmRules rules = [] -> dispatched w' = dispatched w).
Proof.
  intros Hdb Hnone w' key.
  set (P := fun w0 : world =>
              executionCount w0 ruleId = executionCount w ruleId
              /\ redis w0 !! key = redis w !! key).
  assert (HQ : quiet P) by (split; intros w0 x H; exact H).
  assert (Hrest : preserves P
            (do* _name := lift (get leadDetails "name") in
             logService Info None MsgCheckingRules ;;;
             amoRules e userId leadId leadDetails contactsDetails
               originalPayload (activeAmoCrmRules rules))).
  { apply preserves_bind; [apply preserves_lift | intros _].
    apply preserves_bind; [apply preserves_logService; exact HQ | intros _].
    unfold amoRules. apply preserves_forEach_In. intros rule Hin.
    apply activeAmoCrmRules_spec in Hin as (Hin & Hsrc & Hact).
    assert (Hid : rule_id rule <> ruleId).
    { intros Heq. destruct (Hnone rule Hin Heq) as [Hs | Ha];
        [contradiction | congruence]. }
    apply amoRule_preserves_within; [exact HQ | |].
    - intros w0 [Hc Hr]. split; [exact Hc|].
      cbn [redis with_redis]. rewrite lookup_insert_ne; [exact Hr|].
      apply amo_keys_differ. exact Hid.
    - intros w0 [Hc Hr]. split; [|exact Hr].
      unfold executionCount, bump in *. cbn [executions with_executions].
      rewrite lookup_insert_ne by exact Hid. exact Hc. }
  assert (HP : preserves P (processLeadRules e userId leadId leadDetails contactsDetails
                              originalPayload)).
  { intros w0 H0. unfold processLeadRules, tryCatch. unfold bind at 1.
    unfold lift at 1. rewrite Hdb. specialize (Hrest w0 H0).
    destruct ((do* _name := lift (get leadDetails "name") in
               logService Info None MsgCheckingRules ;;;
               amoRules e userId leadId leadDetails contactsDetails
                 originalPayload (activeAmoCrmRules rules)) w0) as [[a|ex] w1];
      cbn [snd] in *; [exact Hrest|].
    apply (preserves_logService P); assumption. }
  assert (HPw : P w) by (split; reflexivity).
  destruct (HP w HPw) as [Hc Hr].
  split; [exact Hc|]. split; [exact Hr|].
  intros Hempty. subst w'. unfold processLeadRules, tryCatch, bind, lift.
  rewrite Hdb, Hempty. destruct (get leadDetails "name"); reflexivity.
Qed.

Lemma amocrm_path_runs_only_active_amocrm_rules_witness :
  let e := exampleEnv 1000 [stage_rule 1 "amocrm" false; stage_rule 2 "lptracker" true]
             false in
  let w' := snd (processLeadRules e "u1" (VString "55")
                   (VObject [("name", VString "Deal"); ("status_id", VNumber 142)])
                   [] (VObject []) emptyWorld) in
  executionCount w' 1 = 0%nat /\ dispatched w' = [].
Proof.
  intros e w'.
  destruct (amocrm_path_runs_only_active_amocrm_rules e "u1" (VString "55")
              (VObject [("name", VString "Deal"); ("status_id", VNumber 142)])
              [] (VObject [])
              [stage_rule 1 "amocrm" false; stage_rule 2 "lptracker" true] 1 emptyWorld
              eq_refl) as (Hc & _ & Hd).
  - intros rule [<- | [<- | []]] Hid; [right; reflexivity | left; discriminate].
  - split; [exact Hc | exact (Hd eq_refl)].
Defined.

(* ===================================================================== *)
(** ** Rate limiting *)
(* ===================================================================== *)

Lemma arrivalsFrom_nonneg (address : string) (arrivals : list (request * Z)) :
  0 <= arrivalsFrom address arrivals.
Proof.
  induction arrivals as [|[req t] rest IH]; cbn [arrivalsFrom]; [lia|].
  destruct (String.eqb (clientAddress req) address); lia.
Qed.

Lemma rateLimit_other (windowMs max : Z) (req : request) (t : Z)
    (table : gmap string rateRecord) (address : string) :
  clientAddress req <> address ->
  snd (rateLimit windowMs max req t table) !! address = table !! address.
Proof.
  intros Hne. unfold rateLimit.
  destruct (table !! clientAddress req) as [record|]; cbn [snd].
  - destruct (resetTime record <? t); cbn [snd];
      [apply lookup_insert_ne; exact Hne|].
    destruct (max <=? count record); cbn [snd];
      [reflexivity | apply lookup_insert_ne; exact Hne].
  - apply lookup_insert_ne. exact Hne.
Qed.

(** Within a window: the requests of an address whose record has count
    [c] and has not expired are let through until the count reaches
    [max]. *)
Lemma serve_within_window (windowMs max : Z) (address : string)
    (arrivals : list (request * Z)) (table : gmap string rateRecord) (c R : Z) :
  table !! address = Some {| count := c; resetTime := R |} ->
  arriveBy address R arrivals ->
  let n := Z.max 0 (Z.min (arrivalsFrom address arrivals) (max - c)) in
  fst (serve (rateLimit windowMs max) address arrivals table) = n
  /\ snd (serve (rateLimit windowMs max) address arrivals table) !! address
     = Some {| count := c + n; resetTime := R |}.
Proof.
  revert table c. induction arrivals as [|[req t] rest IH]; intros table c Hrec Hby.
  - cbn [serve arrivalsFrom fst snd].
    replace (Z.max 0 (Z.min 0 (max - c))) with 0 by lia.
    rewrite Z.add_0_r. split; [reflexivity | exact Hrec].
  - apply Forall_cons in Hby as [Hnow Hby]. cbn [fst snd] in Hnow.
    pose proof (arrivalsFrom_nonneg address rest) as Hn.
    cbn [serve arrivalsFrom].
    destruct (String.eqb (clientAddress req) address) eqn:Haddr.
    + apply String.eqb_eq in Haddr. specialize (Hnow Haddr).
      unfold rateLimit at 1 3. rewrite Haddr, Hrec. cbn [resetTime count].
      replace (R <? t) with false by (symmetry; apply Z.ltb_ge; lia).
      destruct (max <=? c) eqn:Hfull.
      * apply Z.leb_le in Hfull.
        destruct (IH table c Hrec Hby) as [IHn IHt]. cbv zeta in IHn, IHt.
        destruct (serve (rateLimit windowMs max) address rest table) as [n final].
        cbn [fst snd] in *. cbv zeta. split.
        -- rewrite IHn. lia.
        -- rewrite IHt. f_equal. f_equal. lia.
      * apply Z.leb_gt in Hfull.
        destruct (IH (<[address := {| count := c + 1; resetTime := R |}]> table)
                    (c + 1) (lookup_insert_eq _ _ _) Hby) as [IHn IHt].
        cbv zeta in IHn, IHt.
        destruct (serve (rateLimit windowMs max) address rest
                    (<[address := {| count := c + 1; resetTime := R |}]> table))
          as [n final].
        cbn [fst snd] in *. cbv zeta. split.
        -- rewrite IHn. lia.
        -- rewrite IHt. f_equal. f_equal. lia.
    + apply String.eqb_neq in Haddr.
      pose proof (rateLimit_other windowMs max req t table address Haddr) as Hother.
      destruct (rateLimit windowMs max req t table) as [v table1]. cbn [snd] in Hother.
      rewrite <- Hother in Hrec.
      destruct (IH table1 c Hrec Hby) as [IHn IHt]. cbv zeta in IHn, IHt.
      destruct (serve (rateLimit windowMs max) address rest table1) as [n final].
      cbn [fst snd] in *. cbv zeta. rewrite Z.add_0_l.
      split; [destruct v; exact IHn | exact IHt].
Qed.

(** The first request of a window: the address has no record, or its
    record has expired. *)
Lemma serve_opens_window (windowMs max : Z) (address : string) (req0 : request)
    (t0 : Z) (rest : list (request * Z)) (table : gmap string rateRecord) :
  clientAddress req0 = address ->
  match table !! address with
  | Some record => resetTime record < t0
  | None => True
  end ->
  arriveBy address (t0 + windowMs) rest ->
  let n := Z.max 0 (Z.min (arrivalsFrom address rest) (max - 1)) in
  fst (serve (rateLimit windowMs max) address ((req0, t0) :: rest) table) = n + 1
  /\ snd (serve (rateLimit windowMs max) address ((req0, t0) :: rest) table) !! address
     = Some {| count := 1 + n; resetTime := t0 + windowMs |}.
Proof.
  intros Haddr Hopen Hby.
  assert (Hfirst : rateLimit windowMs max req0 t0 table
                   = (Next, <[address := {| count := 1; resetTime := t0 + windowMs |}]>
                              table)).
  { unfold rateLimit. rewrite Haddr.
    destruct (table !! address) as [record|]; [|reflexivity].
    replace (resetTime record <? t0) with true by (symmetry; apply Z.ltb_lt; exact Hopen).
    reflexivity. }
  cbn [serve]. rewrite Hfirst.
  destruct (serve_within_window windowMs max address rest
              (<[address := {| count := 1; resetTime := t0 + windowMs |}]> table)
              1 (t0 + windowMs) (lookup_insert_eq _ _ _) Hby) as [Hn Ht].
  cbv zeta in Hn, Ht.
  destruct (serve (rateLimit windowMs max) address rest
              (<[address := {| count := 1; resetTime := t0 + windowMs |}]> table))
    as [n final].
  cbn [fst snd] in *. cbv zeta.
  replace (String.eqb (clientAddress req0) address) with true
    by (symmetry; apply String.eqb_eq; exact Haddr).
  split; [rewrite Hn; reflexivity | exact Ht].
Qed.

Lemma rate_limit_window_quota_aux (windowMs max : Z) (address : string) (req0 : request)
    (t0 : Z) (rest : list (request * Z)) (table : gmap string rateRecord) :
  1 <= max ->
  clientAddress req0 = address ->
  match table !! address with
  | Some record => resetTime record < t0
  | None => True
  end ->
  arriveBy address (t0 + windowMs) rest ->
  fst (serve (rateLimit windowMs max) address ((req0, t0) :: rest) table)
  = Z.min (arrivalsFrom address rest + 1) max.
Proof.
  intros Hmax Haddr Hopen Hby.
  destruct (serve_opens_window windowMs max address req0 t0 rest table Haddr Hopen Hby)
    as [Hn _].
  cbv zeta in Hn. rewrite Hn.
  pose proof (arrivalsFrom_nonneg address rest). lia.
Qed.

(** X20: the limiter lets through at most [max] requests of an address per
    window.  For [max >= 1], when a request of an address opens a window at
    time [t0] (the address has no record, or its record has expired) and
    the later requests of the address, [n] of them, all arrive no later
    than [t0 + windowMs], exactly [min (n + 1, max)] of these [n + 1]
    requests are let through, however they are interleaved with the
    requests of other addresses. *)
Theorem rate_limit_window_quota (windowMs max : Z) (address : string) (req0 : request)
    (t0 : Z) (rest : list (request * Z)) (table : gmap string rateRecord) :
  1 <= max ->
  clientAddress req0 = address ->
  match table !! address with
  | Some record => resetTime record < t0
  | None => True
  end ->
  arriveBy address (t0 + windowMs) rest ->
  fst (serve (rateLimit windowMs max) address ((req0, t0) :: rest) table)
  = Z.min (arrivalsFrom address rest + 1) max.
Proof.
  apply rate_limit_window_quota_aux.
Qed.

Lemma rate_limit_window_quota_witness :
  fst (serve (rateLimit 1000 2) "10.0.0.1"
         [(requestFrom "10.0.0.1", 0); (requestFrom "10.0.0.2", 1);
          (requestFrom "10.0.0.1", 2); (requestFrom "10.0.0.1", 1000)] ∅) = 2.
Proof.
  exact (rate_limit_window_quota 1000 2 "10.0.0.1" (requestFrom "10.0.0.1") 0
           [(requestFrom "10.0.0.2", 1); (requestFrom "10.0.0.1", 2);
            (requestFrom "10.0.0.1", 1000)] ∅
           ltac:(lia) eq_refl I
           ltac:(repeat constructor; cbn; intros; try lia; discriminate)).
Defined.

(** X21: the two limiters count in one table.  When an address opens a
    window with a request seen by the API limiter and sends 59 or more
    further such requests, all within the 15 minutes of that window, a
    request of that address seen by the webhook limiter at any time up to
    the end of those 15 minutes is answered 429 and leaves the table as it
    is, although the address has sent no webhook before: the webhook
    limiter finds the count of the API requests, which has reached its own
    maximum of 60. *)
Theorem limiters_share_one_table (address : string) (req0 : request) (t0 : Z)
    (rest : list (request * Z)) (table : gmap string rateRecord)
    (req : request) (t : Z) :
  clientAddress req0 = address ->
  match table !! address with
  | Some record => resetTime record < t0
  | None => True
  end ->
  arriveBy address (t0 + 900000) rest ->
  59 <= arrivalsFrom address rest ->
  clientAddress req = address ->
  t <= t0 + 900000 ->
  let table1 := snd (serve apiLimiter address ((req0, t0) :: rest) table) in
  webhookLimiter req t table1 = (TooManyRequests, table1).
Proof.
  intros Haddr Hopen Hby Hmany Hreq Ht table1.
  destruct (serve_opens_window (15 * 60 * 1000) 100 address req0 t0 rest table
              Haddr Hopen Hby) as [_ Hrec].
  cbv zeta in Hrec. fold apiLimiter in Hrec. fold table1 in Hrec.
  unfold webhookLimiter, rateLimit. rewrite Hreq, Hrec. cbn [resetTime count].
  replace (t0 + 15 * 60 * 1000 <? t) with false by (symmetry; apply Z.ltb_ge; lia).
  replace (60 <=? 1 + Z.max 0 (Z.min (arrivalsFrom address rest) (100 - 1))) with true
    by (symmetry; apply Z.leb_le; lia).
  reflexivity.
Qed.

Lemma limiters_share_one_table_witness :
  let table1 := snd (serve apiLimiter "10.0.0.1"
                       ((requestFrom "10.0.0.1", 0)
                        :: repeat (requestFrom "10.0.0.1", 5) 59) ∅) in
  webhookLimiter (requestFrom "10.0.0.1") 10 table1 = (TooManyRequests, table1).
Proof.
  exact (limiters_share_one_table "10.0.0.1" (requestFrom "10.0.0.1") 0
           (repeat (requestFrom "10.0.0.1", 5) 59) ∅ (requestFrom "10.0.0.1") 10
           eq_refl I
           ltac:(apply List.Forall_forall; intros a Ha; apply repeat_spec in Ha; subst a;
                 intros _; cbn; lia)
           ltac:(vm_compute; discriminate) eq_refl ltac:(lia)).
Defined.




(* ===================================================================== *)
(** ** Custom fields are found by numeric id *)
(* ===================================================================== *)

Lemma digit_of_pretty_N_char (d : N) :
  (d < 10)%N -> digit_of 10 (pretty_N_char d) = Some (Z.of_N d).
Proof.
  intros Hd.
  assert (H : (d = 0 \/ d = 1 \/ d = 2 \/ d = 3 \/ d = 4 \/ d = 5 \/ d = 6 \/ d = 7
               \/ d = 8 \/ d = 9)%N) by lia.
  repeat (destruct H as [-> | H]; [reflexivity|]). subst d. reflexivity.
Qed.

Lemma is_space_pretty_N_char (d : N) : is_space (pretty_N_char d) = false.
Proof. unfold pretty_N_char. repeat case_match; reflexivity. Qed.

(** Reading the digits of [pretty x] back gives [x]. *)
Lemma read_digits_pretty_N_go (x : N) :
  exists k, 0 <= k /\ ((0 < x)%N -> 0 < k) /\
    forall s acc cnt,
      read_digits 10 (pretty_N_go x s) acc cnt
      = read_digits 10 s (acc * 10 ^ k + Z.of_N x) (cnt + k).
Proof.
  induction (N.lt_wf_0 x) as [x _ IH].
  assert (Hx : (x = 0 \/ 0 < x)%N) by lia. destruct Hx as [-> | Hx].
  - exists 0. split; [lia|]. split; [lia|]. intros s acc cnt.
    rewrite pretty_N_go_0. f_equal; lia.
  - destruct (IH (x `div` 10)%N) as (k & Hk & _ & Hread).
    { apply N.div_lt; [exact Hx | reflexivity]. }
    exists (k + 1). split; [lia|]. split; [lia|]. intros s acc cnt.
    rewrite pretty_N_go_step by exact Hx. rewrite Hread.
    cbn [read_digits]. rewrite digit_of_pretty_N_char by (apply N.mod_lt; lia).
    f_equal; [|lia].
    rewrite Z.pow_add_r by lia.
    rewrite (N.div_mod x 10) at 3 by lia.
    rewrite N2Z.inj_add, N2Z.inj_mul. change (Z.of_N 10) with 10. lia.
Qed.

Lemma pretty_N_go_digitsOnly (x : N) (s : string) :
  digitsOnly s = true -> digitsOnly (pretty_N_go x s) = true.
Proof.
  revert s. induction (N.lt_wf_0 x) as [x _ IH]; intros s Hs.
  assert (Hx : (x = 0 \/ 0 < x)%N) by lia. destruct Hx as [-> | Hx].
  - rewrite pretty_N_go_0. exact Hs.
  - rewrite pretty_N_go_step by exact Hx. apply IH.
    + apply N.div_lt; [exact Hx | reflexivity].
    + cbn [digitsOnly]. unfold is_digit.
      rewrite digit_of_pretty_N_char by (apply N.mod_lt; lia). exact Hs.
Qed.

Lemma pretty_N_go_nonempty (x : N) (s : string) :
  s <> EmptyString -> pretty_N_go x s <> EmptyString.
Proof.
  revert s. induction (N.lt_wf_0 x) as [x _ IH]; intros s Hs.
  assert (Hx : (x = 0 \/ 0 < x)%N) by lia. destruct Hx as [-> | Hx].
  - rewrite pretty_N_go_0. exact Hs.
  - rewrite pretty_N_go_step by exact Hx. apply IH.
    + apply N.div_lt; [exact Hx | reflexivity].
    + discriminate.
Qed.

Lemma is_digit_cases (c : ascii) :
  is_digit c = true ->
  c = "0"%char \/ c = "1"%char \/ c = "2"%char \/ c = "3"%char \/ c = "4"%char
  \/ c = "5"%char \/ c = "6"%char \/ c = "7"%char \/ c = "8"%char \/ c = "9"%char.
Proof.
  destruct c as [[] [] [] [] [] [] [] []]; intros H;
    try (exfalso; vm_compute in H; discriminate H); tauto.
Qed.

Lemma rtrim_digitsOnly (s : string) : digitsOnly s = true -> rtrim s = s.
Proof.
  induction s as [|c s IH]; [reflexivity|]. cbn [digitsOnly rtrim].
  intros H. apply andb_true_iff in H as [Hc Hs]. rewrite (IH Hs).
  destruct s; [|reflexivity].
  apply is_digit_cases in Hc.
  repeat (destruct Hc as [-> | Hc]; [reflexivity|]). subst c. reflexivity.
Qed.

Lemma ltrim_digitsOnly (s : string) : digitsOnly s = true -> ltrim s = s.
Proof.
  destruct s as [|c s]; [reflexivity|]. cbn [digitsOnly ltrim].
  intros H. apply andb_true_iff in H as [Hc _].
  apply is_digit_cases in Hc.
  repeat (destruct Hc as [-> | Hc]; [reflexivity|]). subst c. reflexivity.
Qed.

(** A string of digits is read as a decimal literal. *)
Lemma toNumberString_digitsOnly (s : string) :
  s <> EmptyString -> digitsOnly s = true -> toNumberString s = decimal_literal s.
Proof.
  intros Hne Hd. unfold toNumberString.
  rewrite (ltrim_digitsOnly s Hd), (rtrim_digitsOnly s Hd).
  destruct s as [|c1 s1]; [contradiction|].
  cbn [digitsOnly] in Hd. apply andb_true_iff in Hd as [Hc1 Hs1].
  apply is_digit_cases in Hc1.
  destruct Hc1 as [-> | Hc1].
  - destruct s1 as [|c2 s2]; [reflexivity|].
    cbn [digitsOnly] in Hs1. apply andb_true_iff in Hs1 as [Hc2 _].
    apply is_digit_cases in Hc2.
    repeat (destruct Hc2 as [-> | Hc2]; [reflexivity|]). subst c2. reflexivity.
  - repeat (destruct Hc1 as [-> | Hc1]; [reflexivity|]). subst c1. reflexivity.
Qed.

Lemma decimal_literal_pretty_N_go (x : N) :
  (0 < x)%N -> decimal_literal (pretty_N_go x EmptyString) = Some (Z.of_N x).
Proof.
  intros Hx. destruct (read_digits_pretty_N_go x) as (k & _ & Hk & Hread).
  specialize (Hk Hx). unfold decimal_literal. rewrite Hread.
  cbn [read_digits read_exponent].
  replace (0 + k =? 0) with false by (symmetry; apply Z.eqb_neq; lia).
  cbn [andb]. replace (0 * 10 ^ k + Z.of_N x) with (Z.of_N x) by lia.
  replace (Z.of_N x =? 0) with false by (symmetry; apply Z.eqb_neq; lia).
  replace (0 - 0) with 0 by lia. cbn [Z.leb Z.compare].
  f_equal. change (10 ^ 0) with 1. lia.
Qed.

Lemma toNumberString_pretty_N (x : N) :
  (0 < x)%N -> toNumberString (pretty_N_go x EmptyString) = Some (Z.of_N x).
Proof.
  intros Hx. rewrite pretty_N_go_step by exact Hx.
  rewrite toNumberString_digitsOnly.
  - rewrite <- pretty_N_go_step by exact Hx. apply decimal_literal_pretty_N_go. exact Hx.
  - apply pretty_N_go_nonempty. discriminate.
  - apply pretty_N_go_digitsOnly. cbn [digitsOnly]. unfold is_digit.
    rewrite digit_of_pretty_N_char by (apply N.mod_lt; lia). reflexivity.
Qed.

(** [Number(String(n)) = n] for every integer [n]. *)
Lemma toNumberString_pretty (n : Z) : toNumberString (pretty n) = Some n.
Proof.
  destruct n as [|p|p].
  - reflexivity.
  - change (pretty (Zpos p)) with (pretty_N_go (Npos p) EmptyString).
    rewrite toNumberString_pretty_N by lia. reflexivity.
  - change (pretty (Zneg p)) with (String "-" (pretty_N_go (Npos p) EmptyString)).
    assert (Hd : digitsOnly (pretty_N_go (Npos p) EmptyString) = true)
      by (apply pretty_N_go_digitsOnly; reflexivity).
    assert (Hne : pretty_N_go (Npos p) EmptyString <> EmptyString).
    { rewrite pretty_N_go_step by lia. apply pretty_N_go_nonempty. discriminate. }
    unfold toNumberString. cbn [ltrim]. change (is_space "-") with false. cbv iota.
    cbn [rtrim]. rewrite (rtrim_digitsOnly _ Hd).
    destruct (pretty_N_go (Npos p) EmptyString) as [|c r] eqn:E; [contradiction|].
    rewrite <- E. rewrite decimal_literal_pretty_N_go by lia. reflexivity.
Qed.

Lemma looseEq_number_string (k n : Z) :
  looseEq (VNumber k) (VString (pretty n)) = (k =? n).
Proof.
  unfold looseEq. cbn [is_nullish is_object orb andb boolToNumber looseEqPrim].
  rewrite toNumberString_pretty. reflexivity.
Qed.

(** X23: a custom field of an LPTracker event is found by its numeric id.
    When the event's custom fields carry numbers as ids and the condition
    names its field by the decimal string of the integer [n], the lookup
    yields the [value] of the first custom field whose id is [n], and
    [undefined] when there is none: the string ["123"] selects the field
    123 and no other. *)
Theorem custom_field_found_by_numeric_id (eventData condition : value)
    (fields : list value) (n : Z) :
  get eventData "custom" = Return (VArray fields) ->
  get condition "field" = Return (VString (pretty n)) ->
  Forall (fun field => exists k, get field "id" = Return (VNumber k)) fields ->
  lpTrackerFieldValue eventData condition
  = match List.find (hasId n) fields with
    | Some field => get field "value"
    | None => Return VUndefined
    end.
Proof.
  intros Hcustom Hfield Hids. unfold lpTrackerFieldValue.
  rewrite Hcustom, Hfield. cbn [obind ochain is_nullish arrayFind]. clear Hcustom.
  induction Hids as [|field rest (k & Hk) _ IH].
  - reflexivity.
  - cbn [ofind List.find]. rewrite Hk. cbn [obind].
    unfold hasId at 1. rewrite Hk. rewrite looseEq_number_string.
    destruct (k =? n).
    + cbn [obind]. unfold ochain.
      replace (is_nullish field) with false; [reflexivity|].
      destruct field; try reflexivity; discriminate Hk.
    + exact IH.
Qed.

Lemma custom_field_found_by_numeric_id_witness :
  lpTrackerFieldValue custom_event
    (VObject [("type", VString "field_equals"); ("field", VString "123");
              ("value", VString "silver")])
  = Return (VString "silver").
Proof.
  exact (custom_field_found_by_numeric_id custom_event
           (VObject [("type", VString "field_equals"); ("field", VString "123");
                     ("value", VString "silver")])
           [VObject [("id", VNumber 12); ("value", VString "gold")];
            VObject [("id", VNumber 123); ("value", VString "silver")]]
           123 eq_refl eq_refl
           ltac:(repeat constructor; eexists; reflexivity)).
Defined.

(* ===================================================================== *)
(** ** Passwords *)
(* ===================================================================== *)

Lemma fromHex_pair (b : Byte.byte) (rest : string) :
  fromHex (String (hexChar (Byte.to_N b / 16))
             (String (hexChar (Byte.to_N b mod 16)) rest))
  = b :: fromHex rest.
Proof. destruct b; reflexivity. Qed.

Lemma fromHex_toHex (buf : buffer) : fromHex (toHex buf) = buf.
Proof.
  induction buf as [|b rest IH]; [reflexivity|].
  cbn [toHex]. rewrite fromHex_pair, IH. reflexivity.
Qed.

Lemma hexChar_no_dot (n : N) : Ascii.eqb (hexChar n) "." = false.
Proof. unfold hexChar. repeat case_match; reflexivity. Qed.

Lemma split_toHex (buf : buffer) : split "." (toHex buf) = [toHex buf].
Proof.
  induction buf as [|b rest IH]; [reflexivity|].
  cbn [toHex split]. rewrite !hexChar_no_dot, IH. reflexivity.
Qed.

Lemma split_toHex_dot (buf : buffer) (tail : string) :
  split "." (toHex buf +:+ String "." tail) = toHex buf :: split "." tail.
Proof.
  induction buf as [|b rest IH]; [reflexivity|].
  cbn [toHex].
  change (String ?a (String ?c (toHex rest)) +:+ String "." tail)
    with (String a (String c (toHex rest +:+ String "." tail))).
  cbn [split]. rewrite !hexChar_no_dot, IH. reflexivity.
Qed.

Lemma str_includes_dot (a b : string) :
  str_includes (a +:+ String "." b) "." = true.
Proof.
  induction a as [|c a IH]; [reflexivity|].
  change (String c a +:+ String "." b) with (String c (a +:+ String "." b)).
  cbn [str_includes]. rewrite IH. apply orb_true_r.
Qed.

Lemma bytesEq_eq (a b : buffer) : bytesEq a b = true <-> a = b.
Proof.
  revert b. induction a as [|x a IH]; intros [|y b]; cbn [bytesEq];
    try (split; [discriminate | discriminate]); [split; reflexivity|].
  rewrite andb_true_iff, IH. split.
  - intros [Hxy ->]. apply Byte.byte_dec_bl in Hxy. subst y. reflexivity.
  - intros [= -> ->]. split; [apply Byte.byte_dec_lb|]; reflexivity.
Qed.

Lemma timingSafeEqual_true (a b : buffer) :
  timingSafeEqual a b = Return true <-> a = b.
Proof.
  unfold timingSafeEqual. split.
  - destruct (List.length a =? List.length b)%nat; [|discriminate].
    intros [= H]. apply bytesEq_eq. exact H.
  - intros ->. rewrite Nat.eqb_refl. f_equal. apply bytesEq_eq. reflexivity.
Qed.

Lemma toHex_nonempty (buf : buffer) : buf <> [] -> String.eqb (toHex buf) EmptyString = false.
Proof. destruct buf; [contradiction | reflexivity]. Qed.

(** X24: a password is accepted against its own hash, and only a password
    with the same derived key is.  When [scrypt] derives a non-empty key
    for the password and the (non-empty) salt drawn, [hashPassword] answers
    [hex(key).hex(salt)], and [comparePasswords] answers [true] for a
    supplied password exactly when [scrypt] derives that same key for it
    under the stored salt; in particular it does for the password
    itself. *)
Theorem password_roundtrip (lib : crypto) (randomBytes key : buffer)
    (password : string) :
  scrypt lib password (toHex randomBytes) 64 = Return key ->
  key <> [] -> randomBytes <> [] ->
  exists stored,
    hashPassword lib randomBytes password = Return stored
    /\ comparePasswords lib password stored = true
    /\ forall supplied,
         comparePasswords lib supplied stored = true
         <-> scrypt lib supplied (toHex randomBytes) 64 = Return key.
Proof.
  intros Hkey Hne Hsalt.
  exists (toHex key +:+ "." +:+ toHex randomBytes).
  assert (Hcmp : forall supplied,
            comparePasswords lib supplied (toHex key +:+ "." +:+ toHex randomBytes) = true
            <-> scrypt lib supplied (toHex randomBytes) 64 = Return key).
  { intros supplied. unfold comparePasswords, comparePasswords_try.
    change (toHex key +:+ "." +:+ toHex randomBytes)
      with (toHex key +:+ String "." (toHex randomBytes)).
    rewrite str_includes_dot. cbn [negb]. rewrite andb_false_r.
    rewrite split_toHex_dot, split_toHex.
    rewrite (toHex_nonempty key Hne), (toHex_nonempty randomBytes Hsalt).
    cbn [orb]. rewrite fromHex_toHex.
    destruct (scrypt lib supplied (toHex randomBytes) 64) as [suppliedBuf|ex];
      cbn [obind].
    - split.
      + intros H. destruct (timingSafeEqual key suppliedBuf) as [[]|] eqn:E;
          try discriminate H.
        apply timingSafeEqual_true in E. subst. reflexivity.
      + intros [= ->].
        rewrite (proj2 (timingSafeEqual_true key key) eq_refl). reflexivity.
    - split; discriminate. }
  split; [|split].
  - unfold hashPassword. rewrite Hkey. reflexivity.
  - apply Hcmp. exact Hkey.
  - exact Hcmp.
Qed.

Lemma password_roundtrip_witness :
  exists stored,
    hashPassword toyCrypto [Byte.x01; Byte.xab] "secret" = Return stored
    /\ comparePasswords toyCrypto "secret" stored = true
    /\ comparePasswords toyCrypto "Secret" stored = false.
Proof.
  destruct (password_roundtrip toyCrypto [Byte.x01; Byte.xab]
              (list_byte_of_string "01ab" ++ list_byte_of_string "secret")%list
              "secret" eq_refl ltac:(discriminate) ltac:(discriminate))
    as (stored & Hhash & Hok & _).
  exists stored. split; [exact Hhash|]. split; [exact Hok|].
  injection Hhash as <-. reflexivity.
Defined.

Lemma length_toHex (buf : buffer) :
  Z.of_nat (String.length (toHex buf)) = 2 * Z.of_nat (List.length buf).
Proof.
  induction buf as [|b rest IH]; [reflexivity|].
  cbn [toHex String.length List.length]. lia.
Qed.

Lemma dot_is_no_hexChar (n : N) : Ascii.eqb "." (hexChar n) = false.
Proof. rewrite Ascii.eqb_sym. apply hexChar_no_dot. Qed.

Lemma toHex_no_dot (buf : buffer) : str_includes (toHex buf) "." = false.
Proof.
  induction buf as [|b rest IH]; [reflexivity|].
  cbn [toHex str_includes startsWith]. rewrite !dot_is_no_hexChar, IH. reflexivity.
Qed.

Lemma toHex_inj (a b : buffer) : toHex a = toHex b -> a = b.
Proof. intros H. rewrite <- (fromHex_toHex a), <- (fromHex_toHex b), H. reflexivity. Qed.

(** X25: the superuser's password is checked by the unsalted branch.
    [createSuperuserIfNotExists] stores the hexadecimal SHA-256 digest of
    ["admin123"]; the digest having 32 bytes, these are 64 characters
    without a dot, which [comparePasswords] takes for an unsalted hash: it
    answers [true] exactly for the supplied passwords whose SHA-256 digest
    is that of ["admin123"], so ["admin123"] itself is accepted, whatever
    [scrypt] would answer. *)
Theorem superuser_password_is_checked_by_sha256 (lib : crypto) (supplied : string) :
  List.length (sha256 lib "admin123") = 32%nat ->
  comparePasswords lib "admin123" (superuserPassword lib) = true
  /\ (comparePasswords lib supplied (superuserPassword lib) = true
      <-> sha256 lib supplied = sha256 lib "admin123").
Proof.
  intros Hlen.
  assert (Hcmp : forall s,
            comparePasswords lib s (superuserPassword lib)
            = String.eqb (toHex (sha256 lib s)) (toHex (sha256 lib "admin123"))).
  { intros s. unfold comparePasswords, comparePasswords_try, superuserPassword.
    rewrite length_toHex, Hlen, toHex_no_dot. reflexivity. }
  split.
  - rewrite Hcmp. apply String.eqb_refl.
  - rewrite Hcmp, String.eqb_eq. split; [apply toHex_inj | intros ->; reflexivity].
Qed.

Lemma superuser_password_is_checked_by_sha256_witness :
  comparePasswords toyCrypto32 "admin123" (superuserPassword toyCrypto32) = true
  /\ comparePasswords toyCrypto32 "admin124" (superuserPassword toyCrypto32) = false.
Proof.
  split.
  - exact (proj1 (superuser_password_is_checked_by_sha256 toyCrypto32 "admin124"
                    eq_refl)).
  - reflexivity.
Defined.

(* ===================================================================== *)
(** ** Contact enrichment *)
(* ===================================================================== *)

Lemma amoGet_pure (e : env) (userId path errorPrefix : string) (w w0 : world) :
  amoGet e userId path errorPrefix w = (fst (amoGet e userId path errorPrefix w0), w).
Proof.
  unfold amoGet, bind, lift, raise.
  destruct (getAmoCrmSettings e userId) as [settings|ex]; [|reflexivity].
  destruct (negb (truthy (settingsSubdomain settings))
            || negb (truthy (settingsApiKey settings))); [reflexivity|].
  destruct (fetch e _) as [resp|ex]; [|reflexivity].
  destruct (negb (resp_ok resp)); reflexivity.
Qed.

(** X26: a contact whose details cannot be fetched is left out, and the
    others are kept in order.  For contacts none of which is [null] or
    [undefined], whatever the AmoCRM API answers for each of them (a
    failure of the settings lookup, of the request, a non-2xx status, an
    unreadable body), [fetchContacts] returns normally with the details of
    exactly the contacts whose fetch succeeded, and changes nothing but
    the journal. *)
Theorem failed_contacts_are_left_out (e : env) (userId : string)
    (contacts : list value) (w : world) :
  Forall (fun contact => is_nullish contact = false) contacts ->
  exists w',
    fetchContacts e userId contacts w
    = (Return (flat_map (fetchedContact e userId w) contacts), w')
    /\ agree w w'.
Proof.
  intros Hcontacts.
  assert (Hgen : forall w1, agree w w1 ->
            exists w', fetchContacts e userId contacts w1
                       = (Return (flat_map (fetchedContact e userId w) contacts), w')
                       /\ agree w w').
  { induction Hcontacts as [|contact rest Hc _ IH]; intros w1 Hag.
    - exists w1. split; [reflexivity | exact Hag].
    - destruct (get_not_nullish contact "id" Hc) as (cid & Hcid).
      cbn [fetchContacts flat_map]. unfold fetchedContact at 1.
      unfold bind at 1. unfold tryCatch, bind, lift. rewrite !Hcid.
      unfold getContactDetails.
      rewrite (amoGet_pure e userId _ _ w1 w).
      destruct (fst (amoGet e userId ("contacts/" +:+ toString cid)
                       "AmoCRM Contact API error: " w)) as [details|ex];
        cbn [logService modify ret].
      + destruct (IH (add_log {| log_level := Info; log_rule := None;
                                 log_message := MsgContactDetails |} w1)
                    (agree_log _ _ _ Hag)) as (w' & E & Hag').
        rewrite E. exists w'. split; [reflexivity | exact Hag'].
      + destruct (IH (add_log {| log_level := Warning; log_rule := None;
                                 log_message := MsgContactFailed |} w1)
                    (agree_log _ _ _ Hag)) as (w' & E & Hag').
        rewrite E. exists w'. split; [reflexivity | exact Hag']. }
  apply Hgen. apply agree_refl.
Qed.

Lemma failed_contacts_are_left_out_witness :
  exists w',
    fetchContacts contactsEnv "u1"
      [VObject [("id", VNumber 3)]; VObject [("id", VNumber 7)]] emptyWorld
    = (Return [VObject [("id", VNumber 7); ("name", VString "Ann")]], w')
    /\ agree emptyWorld w'.
Proof.
  exact (failed_contacts_are_left_out contactsEnv "u1"
           [VObject [("id", VNumber 3)]; VObject [("id", VNumber 7)]] emptyWorld
           ltac:(repeat constructor)).
Defined.

(* ===================================================================== *)
(** ** The configuration cache without Redis *)
(* ===================================================================== *)

(** X27: without Redis the configuration cache is a pass-through.  While
    Redis does not answer, [getCachedSyncRules], [getCachedSettings] and
    [getCachedMetadata] answer what the storage layer answers (its failure
    included), on every call, and leave Redis as it was: an outage of
    Redis costs the cache, not the reads. *)
Theorem config_cache_passes_through_when_redis_is_down (e : env) (st : configStore)
    (userId : string) (type : platform) (metadataType : string) (w : world) :
  redis_up e = false ->
  (fst (getCachedSyncRules e userId w) = getSyncRules e userId
   /\ redis (snd (getCachedSyncRules e userId w)) = redis w)
  /\ (fst (getCachedSettings e st userId type w) = freshSettings st type userId
      /\ redis (snd (getCachedSettings e st userId type w)) = redis w)
  /\ (fst (getCachedMetadata e st userId type metadataType w)
      = freshMetadata st type userId metadataType
      /\ redis (snd (getCachedMetadata e st userId type metadataType w)) = redis w).
Proof.
  intros Hdown. split; [|split].
  - unfold getCachedSyncRules, bind, lift. rewrite cache_get_spec, Hdown.
    destruct (getSyncRules e userId) as [rules|ex]; [|split; reflexivity].
    rewrite cache_set_spec, Hdown. split; reflexivity.
  - unfold getCachedSettings, freshSettings, bind, lift. rewrite cache_get_spec, Hdown.
    cbn [cachedJson truthy].
    destruct (getSettings st type userId) as [s|ex]; [|split; reflexivity].
    cbn [obind]. destruct (truthy s); [|split; reflexivity].
    rewrite cache_set_spec, Hdown. split; reflexivity.
  - unfold getCachedMetadata, freshMetadata, bind, lift. rewrite cache_get_spec, Hdown.
    cbn [cachedJson truthy].
    destruct (getMetadata st type userId metadataType) as [row|ex];
      [|split; reflexivity].
    cbn [obind]. destruct (truthy row); [|split; reflexivity].
    destruct (get row "data") as [data|ex]; [|split; reflexivity].
    rewrite cache_set_spec, Hdown. split; reflexivity.
Qed.

Lemma config_cache_passes_through_when_redis_is_down_witness :
  fst (getCachedSyncRules (downEnv 1000 [stage_rule 1 "lptracker" true]) "u1" emptyWorld)
  = Return [stage_rule 1 "lptracker" true]
  /\ fst (getCachedSettings (downEnv 1000 []) (exampleStore "acme") "u1" OfAmoCrm
            emptyWorld)
     = Return (VObject [("subdomain", VString "acme")]).
Proof.
  pose proof (config_cache_passes_through_when_redis_is_down
                (downEnv 1000 [stage_rule 1 "lptracker" true]) (exampleStore "acme")
                "u1" OfAmoCrm "pipelines" emptyWorld eq_refl) as ((H1 & _) & _).
  pose proof (config_cache_passes_through_when_redis_is_down
                (downEnv 1000 []) (exampleStore "acme")
                "u1" OfAmoCrm "pipelines" emptyWorld eq_refl) as (_ & (H2 & _) & _).
  split; [exact H1 | exact H2].
Defined.


(* ===================================================================== *)
(** ** The action dispatcher *)
(* ===================================================================== *)

Lemma executeAction_null (e : env) (eventData action : value) (w : world) :
  is_nullish action = true ->
  executeAction e eventData action w = (Throw TypeError, w).
Proof.
  intros Ha. unfold executeAction, executeAction_try, tryCatch, bind, lift.
  destruct action; try discriminate Ha; reflexivity.
Qed.

Lemma forEach_executeAction_prefix (e : env) (eventData : value)
    (base : list (string * value)) (items : list value) (w : world) :
  syncRecord eventData = Return base ->
  exists o w',
    forEach (executeAction e eventData) items w = (o, w')
    /\ map callOf (dispatched w')
       = (map callOf (dispatched w)
          ++ flat_map (actionCall eventData) (beforeNull items))%list.
Proof.
  intros Hbase. revert w. induction items as [|action items IH]; intros w.
  - exists (Return tt), w. split; [reflexivity|]. cbn. rewrite app_nil_r. reflexivity.
  - cbn [forEach beforeNull]. unfold bind at 1.
    destruct (is_nullish action) eqn:Ha.
    + rewrite (executeAction_null e eventData action w Ha).
      exists (Throw TypeError), w. split; [reflexivity|].
      cbn. rewrite app_nil_r. reflexivity.
    + destruct (executeAction_calls e eventData action base w Ha Hbase)
        as (w1 & calls & E & D & C & _).
      rewrite E. destruct (IH w1) as (o & w2 & E2 & D2).
      exists o, w2. split; [exact E2|].
      rewrite D2, D, map_app, C. cbn [flat_map]. rewrite app_assoc. reflexivity.
Qed.

Lemma executeAction_without_record (e : env) (eventData action : value) (ex : exn)
    (w : world) :
  is_nullish eventData = false ->
  syncRecord eventData = Throw ex ->
  exists o w',
    executeAction e eventData action w = (o, w') /\ dispatched w' = dispatched w.
Proof.
  intros Hev Hbase.
  destruct (get_not_nullish eventData "userId" Hev) as (uid & Huid).
  unfold executeAction, executeAction_try, tryCatch, bind, lift.
  destruct (get action "type") as [ty|ex']; [|eauto].
  rewrite Huid. cbn [logService modify]. rewrite Hbase. eauto.
Qed.

Lemma forEach_executeAction_without_record (e : env) (eventData : value) (ex : exn)
    (items : list value) (w : world) :
  is_nullish eventData = false ->
  syncRecord eventData = Throw ex ->
  exists o w',
    forEach (executeAction e eventData) items w = (o, w')
    /\ dispatched w' = dispatched w.
Proof.
  intros Hev Hbase. revert w. induction items as [|action items IH]; intros w.
  - exists (Return tt), w. split; reflexivity.
  - cbn [forEach]. unfold bind at 1.
    destruct (executeAction_without_record e eventData action ex w Hev Hbase)
      as ([[]|ex'] & w1 & E & D); rewrite E.
    + destruct (IH w1) as (o & w2 & E2 & D2). exists o, w2.
      split; [exact E2 | congruence].
    + eauto.
Qed.

(** X14: the adapter calls of an action list.  Take an event that is
    neither [null] nor [undefined] and truthy [actions] whose [list] is
    truthy and can be iterated.  Then [executeActions] returns normally,
    whatever the adapters do.  When building the record for the adapters
    from the event does not throw, the adapter calls it adds are, in list
    order, one for each action whose [type] is [sync_to_amocrm] or
    [sync_to_lptracker] among the elements that come before the first
    [null] or [undefined] element of the list: to the adapter the type
    names, for the user of the event, with [searchBy] defaulting to
    ["phone"].  An action of another type makes no call, a failing call
    does not keep the later actions from being called, and a [null] or
    [undefined] element ends the loop.  When building the record throws,
    no call is made. *)
Theorem one_call_per_known_action (e : env) (actionsV eventData actionList : value)
    (items : list value) (w : world) :
  is_nullish eventData = false ->
  truthy actionsV = true ->
  get actionsV "list" = Return actionList ->
  truthy actionList = true ->
  iterate actionList = Return items ->
  exists w',
    executeActions e actionsV eventData w = (Return tt, w')
    /\ map callOf (dispatched w')
       = (map callOf (dispatched w)
          ++ match syncRecord eventData with
             | Return _ => flat_map (actionCall eventData) (beforeNull items)
             | Throw _ => []
             end)%list.
Proof.
  intros Hev Hact Hlist Htruthy Hiter.
  destruct (get_not_nullish eventData "userId" Hev) as (uid & Huid).
  assert (Hloop : exists o w1,
            forEach (executeAction e eventData) items w = (o, w1)
            /\ map callOf (dispatched w1)
               = (map callOf (dispatched w)
                  ++ match syncRecord eventData with
                     | Return _ => flat_map (actionCall eventData) (beforeNull items)
                     | Throw _ => []
                     end)%list).
  { destruct (syncRecord eventData) as [base|ex] eqn:Hbase.
    - apply (forEach_executeAction_prefix e eventData base items w Hbase).
    - destruct (forEach_executeAction_without_record e eventData ex items w Hev Hbase)
        as (o & w1 & E & D).
      exists o, w1. split; [exact E|]. rewrite D, app_nil_r. reflexivity. }
  destruct Hloop as (o & w1 & E & D).
  unfold executeActions, tryCatch. rewrite Hact. cbn [negb].
  unfold bind, lift. rewrite Hlist, Htruthy. cbn [negb]. rewrite Hiter, E.
  destruct o as [[]|ex].
  - exists w1. split; [reflexivity | exact D].
  - rewrite Huid. cbn [logService modify]. eexists. split; [reflexivity|]. exact D.
Qed.

Lemma one_call_per_known_action_witness :
  (exists w',
     executeActions (exampleEnv 1000 [] true) three_actions amo_event emptyWorld
     = (Return tt, w')
     /\ map callOf (dispatched w')
        = [(LpTracker, VString "u1", VString "email");
           (AmoCrm, VString "u1", VString "phone")])
  /\ (exists w',
        executeActions (exampleEnv 1000 [] false) actions_with_null amo_event emptyWorld
        = (Return tt, w')
        /\ map callOf (dispatched w') = [(LpTracker, VString "u1", VString "phone")]).
Proof.
  split.
  - exact (one_call_per_known_action (exampleEnv 1000 [] true) three_actions amo_event
             (VArray [VObject [("type", VString "sync_to_lptracker");
                               ("searchBy", VString "email")];
                      VObject [("type", VString "send_email")];
                      VObject [("type", VString "sync_to_amocrm")]])
             [VObject [("type", VString "sync_to_lptracker");
                       ("searchBy", VString "email")];
              VObject [("type", VString "send_email")];
              VObject [("type", VString "sync_to_amocrm")]]
             emptyWorld eq_refl eq_refl eq_refl eq_refl eq_refl).
  - exact (one_call_per_known_action (exampleEnv 1000 [] false) actions_with_null
             amo_event
             (VArray [VObject [("type", VString "sync_to_lptracker")]; VNull;
                      VObject [("type", VString "sync_to_amocrm")]])
             [VObject [("type", VString "sync_to_lptracker")]; VNull;
              VObject [("type", VString "sync_to_amocrm")]]
             emptyWorld eq_refl eq_refl eq_refl eq_refl eq_refl).
Defined.

(* ===================================================================== *)
(** ** The record handed to the adapters *)
(* ===================================================================== *)

Lemma orElse_defaults (a b : outcome value) (d : value) :
  (forall y, b = Return y -> truthy y = true \/ y = d) ->
  forall x, orElse a b = Return x -> truthy x = true \/ x = d.
Proof.
  intros Hb x. unfold orElse. destruct a as [y|ex]; cbn [obind]; [|discriminate].
  destruct (truthy y) eqn:Hy.
  - intros [= <-]. left. exact Hy.
  - apply Hb.
Qed.

Lemma Return_defaults (d y : value) : Return d = Return y -> truthy y = true \/ y = d.
Proof. intros [= <-]. right. reflexivity. Qed.

Ltac orElse_chain :=
  repeat first [ exact (Return_defaults _) | apply orElse_defaults ].

Lemma orElse_truthy (a b : outcome value) :
  (forall y, b = Return y -> truthy y = true) ->
  forall x, orElse a b = Return x -> truthy x = true.
Proof.
  intros Hb x. unfold orElse. destruct a as [y|ex]; cbn [obind]; [|discriminate].
  destruct (truthy y) eqn:Hy.
  - intros [= <-]. exact Hy.
  - apply Hb.
Qed.

Ltac fallback :=
  match goal with
  | E : orElse _ _ = Return ?x |- truthy ?x = true =>
      revert E; repeat apply orElse_truthy; intros ? [= <-]; reflexivity
  | E : orElse _ _ = Return ?x |- truthy ?x = true \/ ?x = _ =>
      revert E; orElse_chain
  end.

Ltac field_of_record :=
  cbv [assoc String.eqb Ascii.eqb Bool.eqb andb]; fallback.

Lemma syncRecord_fields (eventData : value) (fs : list (string * value)) :
  syncRecord eventData = Return fs ->
  truthy (assoc "name" fs) = true
  /\ truthy (assoc "deal_name" fs) = true
  /\ assoc "source" fs = VString "webhook_automation"
  /\ (truthy (assoc "price" fs) = true \/ assoc "price" fs = VNumber 0)
  /\ Forall (fun k => truthy (assoc k fs) = true \/ assoc k fs = VString EmptyString)
       ["first_name"; "last_name"; "phone"; "email"; "campaign"; "keyword"]
  /\ truthy (assoc "custom_fields" fs) = true.
Proof.
  unfold syncRecord. intros H.
  repeat match type of H with
         | obind ?m _ = Return _ =>
             let E := fresh "E" in
             destruct m eqn:E; cbn [obind] in H; [|discriminate H]
         end.
  injection H as <-.
  repeat match goal with
         | E : get _ _ = Return _ |- _ => clear E
         | E : ochain _ _ = Return _ |- _ => clear E
         end.
  split; [field_of_record|]. split; [field_of_record|]. split; [reflexivity|].
  split; [field_of_record|].
  split; [repeat (constructor; [field_of_record|]); constructor|].
  field_of_record.
Qed.

Lemma assoc_setField_same (k : string) (v : value) (fs : list (string * value)) :
  assoc k (setField k v fs) = v.
Proof.
  induction fs as [|[k' v'] fs IH]; cbn [setField assoc].
  - rewrite String.eqb_refl. reflexivity.
  - destruct (String.eqb k k') eqn:E; cbn [assoc].
    + rewrite String.eqb_refl. reflexivity.
    + rewrite E. exact IH.
Qed.

Lemma assoc_setField_other (k k' : string) (v : value) (fs : list (string * value)) :
  String.eqb k' k = false -> assoc k' (setField k v fs) = assoc k' fs.
Proof.
  intros Hne. induction fs as [|[k0 v0] fs IH]; cbn [setField assoc].
  - rewrite Hne. reflexivity.
  - destruct (String.eqb k k0) eqn:E; cbn [assoc].
    + apply String.eqb_eq in E. subst k0. rewrite Hne. reflexivity.
    + rewrite IH. reflexivity.
Qed.

Lemma copyIfSet_assoc (action : value) (k k' : string) (fs fs' : list (string * value)) :
  copyIfSet action k fs = Return fs' ->
  String.eqb k' k = false -> assoc k' fs' = assoc k' fs.
Proof.
  unfold copyIfSet. destruct (get action k) as [v|]; cbn [obind]; [|discriminate].
  destruct (truthy v && negb (strictEq v (VString EmptyString)));
    intros [= <-] Hne; [apply assoc_setField_other; exact Hne | reflexivity].
Qed.

(** The record an action is dispatched with: the fields of [syncRecord],
    then [fieldMappings] and [originalEventData], then the ids the action
    carries. *)
Lemma built_record_is_complete (eventData action mappings : value)
    (base fs3 fs4 fs5 fs6 : list (string * value)) :
  syncRecord eventData = Return base ->
  copyIfSet action "amocrmPipelineId"
    (setField "originalEventData" eventData
       (setField "fieldMappings" (jor mappings (VObject [])) base)) = Return fs3 ->
  copyIfSet action "amocrmStatusId" fs3 = Return fs4 ->
  copyIfSet action "lptrackerStageId" fs4 = Return fs5 ->
  copyIfSet action "lptrackerProjectId" fs5 = Return fs6 ->
  completeRecord eventData (VObject fs6).
Proof.
  intros Hbase H3 H4 H5 H6. exists fs6. split; [reflexivity|].
  assert (Hkeep : forall k',
            String.eqb k' "lptrackerProjectId" = false ->
            String.eqb k' "lptrackerStageId" = false ->
            String.eqb k' "amocrmStatusId" = false ->
            String.eqb k' "amocrmPipelineId" = false ->
            assoc k' fs6
            = assoc k' (setField "originalEventData" eventData
                          (setField "fieldMappings" (jor mappings (VObject [])) base))).
  { intros k' E6 E5 E4 E3.
    rewrite (copyIfSet_assoc _ _ _ _ _ H6 E6), (copyIfSet_assoc _ _ _ _ _ H5 E5),
      (copyIfSet_assoc _ _ _ _ _ H4 E4), (copyIfSet_assoc _ _ _ _ _ H3 E3).
    reflexivity. }
  assert (Hbasek : forall k',
            String.eqb k' "lptrackerProjectId" = false ->
            String.eqb k' "lptrackerStageId" = false ->
            String.eqb k' "amocrmStatusId" = false ->
            String.eqb k' "amocrmPipelineId" = false ->
            String.eqb k' "originalEventData" = false ->
            String.eqb k' "fieldMappings" = false ->
            assoc k' fs6 = assoc k' base).
  { intros k' E6 E5 E4 E3 Eo Em. rewrite (Hkeep k' E6 E5 E4 E3).
    rewrite (assoc_setField_other _ _ _ _ Eo), (assoc_setField_other _ _ _ _ Em).
    reflexivity. }
  destruct (syncRecord_fields eventData base Hbase)
    as (Hname & Hdeal & Hsource & Hprice & Hrest & Hcustom).
  unfold recordFields.
  rewrite !(Hbasek "name"), !(Hbasek "deal_name"), !(Hbasek "source"),
    !(Hbasek "price"), !(Hbasek "custom_fields") by reflexivity.
  split; [exact Hname|]. split; [exact Hdeal|]. split; [exact Hsource|].
  split; [exact Hprice|]. split.
  { repeat (apply Forall_cons_1 in Hrest as [? Hrest]).
    repeat (constructor; [rewrite !Hbasek by reflexivity; assumption|]).
    constructor. }
  split; [exact Hcustom|]. split.
  - rewrite (Hkeep "fieldMappings") by reflexivity.
    rewrite assoc_setField_other by reflexivity. rewrite assoc_setField_same.
    unfold jor. destruct (truthy mappings) eqn:E; [exact E | reflexivity].
  - rewrite (Hkeep "originalEventData") by reflexivity.
    apply assoc_setField_same.
Qed.

(** X17: every record handed to an adapter is complete.  Whatever the
    action list, the event and the adapters, each adapter call
    [executeActions] makes carries an object in which [name] and
    [deal_name] are truthy (they fall back to the literals
    ["Новый контакт"] and ["Новая сделка"]), [source] is
    ["webhook_automation"], [price] is a truthy value or [0], each of
    [first_name], [last_name], [phone], [email], [campaign] and [keyword]
    is a truthy value or the empty string, [custom_fields] and
    [fieldMappings] are truthy (they fall back to [{}]), and
    [originalEventData] is the event itself. *)
Theorem adapter_records_are_complete (e : env) (actionsV eventData : value)
    (w : world) :
  exists calls,
    dispatched (snd (executeActions e actionsV eventData w))
    = (dispatched w ++ calls)%list
    /\ Forall (fun d => completeRecord eventData (d_data d)) calls.
Proof.
  set (P := fun w' : world =>
              exists calls,
                dispatched w' = (dispatched w ++ calls)%list
                /\ Forall (fun d => completeRecord eventData (d_data d)) calls).
  assert (Hlog : forall en w', P w' -> P (add_log en w')) by (intros en w' H; exact H).
  assert (Hcall : forall d w', completeRecord eventData (d_data d) -> P w' ->
                    P (add_dispatch d w')).
  { intros d w' Hd (calls & D & F). exists (calls ++ [d])%list. split.
    - cbn [dispatched add_dispatch]. rewrite D, app_assoc. reflexivity.
    - apply Forall_app. split; [exact F | constructor; [exact Hd | constructor]]. }
  assert (Hlogs : forall lvl rule msg, preserves P (logService lvl rule msg)).
  { intros lvl rule msg. apply preserves_modify. intros w'. apply Hlog. }
  assert (Htry : forall action, preserves P (executeAction_try e eventData action)).
  { intros action w0 HP. unfold executeAction_try, bind, lift.
    destruct (get action "type") as [ty|]; [|exact HP].
    destruct (get eventData "userId") as [uid|]; [|exact HP].
    cbn [logService modify].
    destruct (syncRecord eventData) as [base|] eqn:Hbase; [|apply Hlog; exact HP].
    destruct (get action "fieldMappings") as [mappings|];
      [|apply Hlog, Hlog; exact HP].
    destruct (copyIfSet action "amocrmPipelineId" _) as [fs3|] eqn:H3;
      [|apply Hlog, Hlog; exact HP].
    destruct (copyIfSet action "amocrmStatusId" fs3) as [fs4|] eqn:H4;
      [|apply Hlog, Hlog; exact HP].
    destruct (copyIfSet action "lptrackerStageId" fs4) as [fs5|] eqn:H5;
      [|apply Hlog, Hlog; exact HP].
    destruct (copyIfSet action "lptrackerProjectId" fs5) as [fs6|] eqn:H6;
      [|apply Hlog, Hlog; exact HP].
    destruct (get action "searchBy") as [sb|]; [|apply Hlog, Hlog; exact HP].
    pose proof (built_record_is_complete eventData action mappings base fs3 fs4 fs5 fs6
                  Hbase H3 H4 H5 H6) as Hrec.
    destruct (is_str ty "sync_to_amocrm");
      [|destruct (is_str ty "sync_to_lptracker")].
    - unfold callAdapter, bind, modify, raise, ret.
      destruct (syncToAmoCrm e uid (VObject fs6) (jor sb (VString "phone")));
        cbn [snd]; apply Hcall; [exact Hrec | | exact Hrec |];
        apply Hlog, Hlog; exact HP.
    - unfold callAdapter, bind, modify, raise, ret.
      destruct (syncToLpTracker e uid (VObject fs6) (jor sb (VString "phone")));
        cbn [snd]; apply Hcall; [exact Hrec | | exact Hrec |];
        apply Hlog, Hlog; exact HP.
    - cbn [snd]. apply Hlog, Hlog, Hlog. exact HP. }
  assert (Hone : forall action, preserves P (executeAction e eventData action)).
  { intros action. unfold executeAction. apply preserves_tryCatch; [apply Htry|].
    intros _. apply preserves_bind; [apply preserves_lift | intros _].
    apply preserves_bind; [apply preserves_lift | intros _]. apply Hlogs. }
  assert (Hall : preserves P (executeActions e actionsV eventData)).
  { unfold executeActions. apply preserves_tryCatch.
    - destruct (negb (truthy actionsV)); [apply preserves_ret|].
      apply preserves_bind; [apply preserves_lift | intros actionList].
      destruct (negb (truthy actionList)); [apply preserves_ret|].
      apply preserves_bind; [apply preserves_lift | intros items].
      apply preserves_forEach. exact Hone.
    - intros _. apply preserves_bind; [apply preserves_lift | intros _]. apply Hlogs. }
  apply Hall. exists []. split; [rewrite app_nil_r; reflexivity | constructor].
Qed.

(** An action dispatched for an event without a contact and without a
    lead: the record falls back to the literals. *)
Example dispatched_record_falls_back :
  exists d,
    dispatched (snd (executeActions (exampleEnv 1000 [] false) to_amocrm
                       (VObject [("userId", VString "u1")]) emptyWorld)) = [d]
    /\ get (d_data d) "name" = Return (VString "Новый контакт")
    /\ get (d_data d) "deal_name" = Return (VString "Новая сделка")
    /\ get (d_data d) "originalEventData" = Return (VObject [("userId", VString "u1")]).
Proof. eexists. vm_compute. repeat split. Qed.
